(** * Organization-scoped data isolation of the analytics platform

    A shallow embedding of the TypeScript sources that decide who may touch
    which tenant's rows:

    - [lib/rbac]            : [ROLES], [hasMinimumRole], [assertRole]
    - [lib/db-org]          : the class [OrgDatabase] and [generateApiKey]
    - [lib/org-utils]       : [isValidOrgId], [parseOrgId], [hasOrgAccess]
    - [middleware/org-middleware] : [getOrgIdFromRequest]
    - [app/actions/org-actions]   : [getOrgDashboard]
    - [packages/db/src/schema]    : the tables and their constraints
    - [lib/rbac], [lib/auth]      : [canAccessOrg], [getUserOrganizations],
                                    the [createUser] event
    - [middleware/org-middleware] : [orgMiddleware], [verifyOrgAccess],
                                    [getOrgIdFromHeaders]
    - [app/actions/org-actions]   : [getOrgProjects], [createProject],
                                    [getUserOrganizations], [switchActiveOrg]
    - [app/api/projects], [app/api/org] : the route handlers
    - [lib/org-utils]             : [createOrgContext], [getOrgUrl],
                                    [formatOrgName]

    Conventions.  A JavaScript [number] that holds an id, a rank or a count
    is an integer of [Z], and [NaN] is kept as a value of its own where
    [parseInt] can produce it.  An integer stands for the double of that
    value: the texts of numbers are those of JavaScript on the safe integers
    ([JS.isSafeInteger], below 2^53 in magnitude), which hold every id of
    the storage and every time of the clock.  A string is the
    UTF-8 text of the JavaScript string, byte by byte.  A table is the list
    of its rows in insertion order.  The ambient session returned by
    [getServerSession] and the database handle [db] are explicit arguments.
    A thrown [Error] is the left summand of a result.

    Storage.  The columns of the schema decide what an insert stores: a
    [varchar(n)] refuses a text of more than n characters, a text column
    refuses the character NUL, and the primary keys, the unique constraints
    and the foreign keys refuse the rows that violate them.  An id is a value
    of an [integer] column: the queries compare ids as integers, and the
    statements about an id that comes from the client are stated for the
    range of the column ([int4]), outside of which the storage refuses the
    parameter.  Connection failures are outside the embedding. *)

From Stdlib Require Import ZArith Ascii String List Lia Bool.
From Stdlib Require DecimalZ DecimalPos.
From stdpp Require Import base decidable option list sorting strings.

Open Scope string_scope.
Open Scope list_scope.
Open Scope Z_scope.

(** ** Texts *)

(** The characters of a string, in order. *)
Fixpoint characters (s : string) : list ascii :=
  match s with
  | EmptyString => []
  | String c s' => c :: characters s'
  end.

(** What follows the prefix [p] in [s], when [s] starts with [p]. *)
Fixpoint strip_prefix (p s : string) : option string :=
  match p, s with
  | EmptyString, _ => Some s
  | String a p', String b s' => if Ascii.eqb a b then strip_prefix p' s' else None
  | String _ _, EmptyString => None
  end.

(** ** JavaScript values *)

Module JS.

(** The numbers the code handles: an integer, or the [NaN] that
    [parseInt] returns when it finds no digit. *)
Inductive number : Type :=
| NaN
| Num (z : Z).

#[global] Instance number_eq_dec : EqDecision number.
Proof. solve_decision. Defined.

(** [Number.isSafeInteger]: the integers that a double holds exactly, with
    their neighbours. *)
Definition isSafeInteger (z : Z) : Prop :=
  - 9007199254740991 ≤ z ≤ 9007199254740991.

(** [if (n)] on a number: [NaN] and [0] are falsy. *)
Definition truthy (n : number) : bool :=
  match n with
  | NaN => false
  | Num z => negb (z =? 0)
  end.

(** [if (s)] on [string | null | undefined]: a missing or empty string is
    falsy. *)
Definition truthy_str (s : option string) : bool :=
  match s with
  | Some (String _ _) => true
  | _ => false
  end.

Definition code (c : ascii) : Z := Z.of_N (N_of_ascii c).

(** The text of the given bytes. *)
Definition bytes (l : list Z) : string :=
  fold_right (λ n s, String (ascii_of_N (Z.to_N n)) s) "" l.

(** [WhiteSpace] and [LineTerminator] of ECMAScript, the characters that
    [parseInt] and [trim] skip, each in UTF-8. *)
Definition whiteSpace : list string :=
  map bytes
    [[9]; [10]; [11]; [12]; [13]; [32];           (* TAB LF VT FF CR SP *)
     [194; 160];                                   (* U+00A0 *)
     [225; 154; 128];                              (* U+1680 *)
     [226; 128; 128]; [226; 128; 129]; [226; 128; 130]; [226; 128; 131];
     [226; 128; 132]; [226; 128; 133]; [226; 128; 134]; [226; 128; 135];
     [226; 128; 136]; [226; 128; 137]; [226; 128; 138];   (* U+2000..U+200A *)
     [226; 128; 168]; [226; 128; 169];             (* U+2028 U+2029 *)
     [226; 128; 175];                              (* U+202F *)
     [226; 129; 159];                              (* U+205F *)
     [227; 128; 128];                              (* U+3000 *)
     [239; 187; 191]].                             (* U+FEFF *)

(** What follows in [s] after one of the texts [seqs] at its start. *)
Definition skipOne (seqs : list string) (s : string) : option string :=
  head (omap (λ w, strip_prefix w s) seqs).

(** [s] after every text of [seqs] at its start; [fuel] bounds the number
    of texts skipped, and the length of [s] is enough. *)
Fixpoint skipAll (seqs : list string) (fuel : nat) (s : string) : string :=
  match fuel with
  | O => s
  | S fuel' =>
      match skipOne seqs s with
      | Some s' => skipAll seqs fuel' s'
      | None => s
      end
  end.

(** [s.trimStart()] *)
Definition trimStart (s : string) : string :=
  skipAll whiteSpace (String.length s) s.

(** Value of a character as a digit in some radix up to 36. *)
Definition digitValue (c : ascii) : option Z :=
  let n := code c in
  if (48 <=? n) && (n <=? 57) then Some (n - 48)
  else if (97 <=? n) && (n <=? 122) then Some (n - 87)
  else if (65 <=? n) && (n <=? 90) then Some (n - 55)
  else None.

(** The longest prefix of [s] made of radix-[R] digits. *)
Fixpoint digits (R : Z) (s : string) : list Z :=
  match s with
  | String c s' =>
      match digitValue c with
      | Some d => if d <? R then d :: digits R s' else []
      | None => []
      end
  | EmptyString => []
  end.

Definition mathInt (R : Z) (ds : list Z) : Z :=
  fold_left (λ acc d, acc * R + d) ds 0.

Definition stripSign (s : string) : Z * string :=
  match s with
  | String "-" s' => (-1, s')
  | String "+" s' => (1, s')
  | _ => (1, s)
  end.

Definition stripHexPrefix (s : string) : option string :=
  match s with
  | String "0" (String "x" s') => Some s'
  | String "0" (String "X" s') => Some s'
  | _ => None
  end.

(** [parseInt(input, radix)]; [radix = None] is a call without radix.  The
    result is the integer that the digits write; it is the result of
    JavaScript when that integer is a safe one (beyond, JavaScript rounds to
    a double). *)
Definition parseInt (input : string) (radix : option Z) : number :=
  let '(sign, str) := stripSign (trimStart input) in
  let R0 := default 0 radix in
  if negb (R0 =? 0) && ((R0 <? 2) || (36 <? R0)) then NaN
  else
    let stripPrefix := (R0 =? 0) || (R0 =? 16) in
    let R := if R0 =? 0 then 10 else R0 in
    let '(R, str) :=
      match (if stripPrefix then stripHexPrefix str else None) with
      | Some str' => (16, str')
      | None => (R, str)
      end in
    match digits R str with
    | [] => NaN
    | ds => Num (sign * mathInt R ds)
    end.

(** ASCII lower-casing, as [Headers] applies to header names. *)
Definition toLowerAscii (c : ascii) : ascii :=
  let n := code c in
  if (65 <=? n) && (n <=? 90) then ascii_of_N (Z.to_N (n + 32)) else c.

Fixpoint toLowerCase (s : string) : string :=
  match s with
  | String c s' => String (toLowerAscii c) (toLowerCase s')
  | EmptyString => EmptyString
  end.

End JS.

Export JS(number, NaN, Num).

(** ** Results of operations that may throw *)

Inductive Error : Type :=
| Unauthorized_NoValidSession      (* OrgDatabase.create *)
| Unauthorized_NoSessionFound      (* assertRole *)
| Forbidden_NotAMember
| Forbidden_RequiresRoles (requiredRoles : list string)
| ProjectNotFound
| StorageFailure (detail : string).

Definition join (sep : string) (l : list string) : string :=
  match l with
  | [] => ""
  | x :: l' => fold_left (λ acc y, acc +:+ sep +:+ y) l' x
  end.

(** [error.message] *)
Definition message (e : Error) : string :=
  match e with
  | Unauthorized_NoValidSession => "Unauthorized: No valid session"
  | Unauthorized_NoSessionFound => "Unauthorized: No session found"
  | Forbidden_NotAMember => "Forbidden: User not a member of this organization"
  | Forbidden_RequiresRoles rs =>
      "Forbidden: Requires one of these roles: " +:+ join ", " rs
  | ProjectNotFound => "Project not found or access denied"
  | StorageFailure d => d
  end.

Definition Result (A : Type) : Type := Error + A.

Definition throw {A} (e : Error) : Result A := inl e.
Definition ret {A} (a : A) : Result A := inr a.
Definition bind {A B} (m : Result A) (k : A → Result B) : Result B :=
  match m with
  | inl e => inl e
  | inr a => k a
  end.

(** [try! x := m in k]: run [m]; an error of [m] is the error of the whole,
    as an exception that is not caught. *)
Notation "'try!' x := m 'in' k" := (bind m (λ x, k))
  (at level 10, x name, m at level 100, k at level 200, only parsing).

#[global] Instance Error_eq_dec : EqDecision Error.
Proof. solve_decision. Defined.

(** ** Role policy ([lib/rbac], [lib/org-utils]) *)

(** [type Role = keyof typeof ROLES]: at run time a role is its key. *)
Inductive Role : Type := owner | admin | member.

#[global] Instance Role_eq_dec : EqDecision Role.
Proof. solve_decision. Defined.

Definition Role_key (r : Role) : string :=
  match r with
  | owner => "owner"
  | admin => "admin"
  | member => "member"
  end.

(** [ROLES[k]].  [None] stands for a lookup that yields no number
    ([undefined] for an unknown key, or an inherited property of the object
    literal): in a comparison it converts to [NaN]. *)
Definition ROLES (k : string) : option Z :=
  if String.eqb k "owner" then Some 3
  else if String.eqb k "admin" then Some 2
  else if String.eqb k "member" then Some 1
  else None.

(** [a >= b] on two lookup results; a comparison with [NaN] is false. *)
Definition ge_lookup (a b : option Z) : bool :=
  match a, b with
  | Some x, Some y => x >=? y
  | _, _ => false
  end.

Definition hasMinimumRole (userRole requiredRole : string) : bool :=
  ge_lookup (ROLES userRole) (ROLES requiredRole).

(** [roleHierarchy[k]] of [hasOrgAccess]. *)
Definition roleHierarchy (k : string) : option Z :=
  if String.eqb k "member" then Some 1
  else if String.eqb k "admin" then Some 2
  else if String.eqb k "owner" then Some 3
  else None.

(** [roleHierarchy[role] || 0] *)
Definition roleLevel (role : string) : Z := default 0 (roleHierarchy role).

(** The fixed order of the specification: member(1) < admin(2) < owner(3). *)
Definition rank (r : Role) : Z :=
  match r with
  | member => 1
  | admin => 2
  | owner => 3
  end.


(** ** Rows of the schema ([packages/db/src/schema]) *)

(** A [timestamp] is a number of milliseconds, a [decimal(15,4)] an integer
    count of ten-thousandths, a [jsonb] payload its serialized text. *)

Module Organization.
Record t : Type := mk {
  id : Z;
  name : string;
  slug : string;
  plan : string;
  billingEmail : option string;
  stripeCustomerId : option string;
  createdAt : Z;
  updatedAt : Z
}.
End Organization.

Module UserOrganization.
Record t : Type := mk {
  id : Z;
  userId : Z;
  organizationId : Z;
  role : string;
  createdAt : Z
}.
End UserOrganization.

Module Project.
Record t : Type := mk {
  id : Z;
  organizationId : Z;
  name : string;
  description : option string;
  apiKey : string;
  domain : option string;
  isActive : bool;
  createdAt : Z;
  updatedAt : Z
}.
End Project.

Module Event.
Record t : Type := mk {
  id : Z;
  organizationId : Z;
  projectId : Z;
  eventName : string;
  userId : option string;
  sessionId : option string;
  metadata : option string;
  timestamp : Z;
  ipAddress : option string;
  userAgent : option string;
  createdAt : Z
}.
End Event.

Module KpiSnapshot.
Record t : Type := mk {
  id : Z;
  organizationId : Z;
  projectId : option Z;       (* null = org-level KPI *)
  key : string;
  periodStart : Z;
  periodEnd : Z;
  value : Z;
  metadata : option string;
  createdAt : Z;
  updatedAt : Z
}.
End KpiSnapshot.

(** The database: the five tables that the code reads and writes, and the
    next value of the [serial] sequence of each table it inserts into. *)
Record Database : Type := mkDatabase {
  organizations : list Organization.t;
  userOrganizations : list UserOrganization.t;
  projects : list Project.t;
  events : list Event.t;
  kpiSnapshots : list KpiSnapshot.t;
  projects_id_seq : Z;
  events_id_seq : Z;
  kpi_snapshots_id_seq : Z
}.

(** Constraints declared by the schema, as properties of a database. *)

(** [uniq_user_org]: one membership row per (user, organization). *)
Definition uniq_user_org (db : Database) : Prop :=
  NoDup (map (λ m, (UserOrganization.userId m, UserOrganization.organizationId m))
             (userOrganizations db)).

(** [user_organizations.organization_id] references [organizations.id]. *)
Definition membership_org_fk (db : Database) : Prop :=
  Forall (λ m, Exists (λ o, Organization.id o = UserOrganization.organizationId m)
                      (organizations db))
         (userOrganizations db).

(** The data model's roles: every stored role is a key of [ROLES]. *)
Definition roles_valid (db : Database) : Prop :=
  Forall (λ m, is_Some (ROLES (UserOrganization.role m))) (userOrganizations db).

(** ** What the columns store *)

(** The range of an [integer] column and of a [serial] one. *)
Definition int4 (z : Z) : Prop := - 2147483648 ≤ z ≤ 2147483647.

#[global] Instance int4_dec z : Decision (int4 z).
Proof. unfold int4. apply _. Defined.

(** A number as the value of an [integer] column or as a parameter that is
    compared with one. *)
Definition integer (z : Z) : Result Z :=
  if decide (int4 z) then ret z
  else throw (StorageFailure "value out of range for type integer").

(** A text as a parameter: the storage refuses the character NUL. *)
Definition text (s : string) : Result string :=
  if bool_decide ("000"%char ∈ characters s) then
    throw (StorageFailure "invalid byte sequence for encoding UTF8: 0x00")
  else ret s.

(** A byte that continues a character of a UTF-8 text. *)
Definition isContinuation (c : ascii) : bool :=
  let n := JS.code c in (128 <=? n) && (n <? 192).

(** The first [n] characters of a text, and what follows them. *)
Fixpoint split_characters (n : nat) (s : string) : string * string :=
  match s with
  | EmptyString => ("", "")
  | String c s' =>
      if isContinuation c then
        let '(kept, excess) := split_characters n s' in (String c kept, excess)
      else
        match n with
        | O => ("", s)
        | S n' =>
            let '(kept, excess) := split_characters n' s' in (String c kept, excess)
        end
  end.

(** What a [varchar(n)] column stores for a text: the text when it has at
    most [n] characters; its first [n] characters when those beyond are all
    spaces; and nothing otherwise, the insert being refused. *)
Definition varchar (n : nat) (s : string) : Result string :=
  try! s := text s in
  let '(kept, excess) := split_characters n s in
  if forallb (Ascii.eqb " ") (characters excess) then ret kept
  else throw (StorageFailure "value too long for type character varying").

(** A column that may be null. *)
Definition nullable {A B} (column : A → Result B) (value : option A)
  : Result (option B) :=
  match value with
  | None => ret None
  | Some a => try! b := column a in ret (Some b)
  end.

(** The constraints that each table puts on a new row: the primary key, the
    unique constraints and the foreign keys.  [users] holds the ids of the
    table [users], which the embedding does not keep otherwise. *)
Definition organizations_accepts (db : Database) (row : Organization.t) : Prop :=
  int4 (Organization.id row)
  ∧ Forall (λ o, Organization.id o ≠ Organization.id row) (organizations db)
  ∧ Forall (λ o, Organization.slug o ≠ Organization.slug row) (organizations db).

Definition user_organizations_accepts (db : Database) (users : list Z)
    (row : UserOrganization.t) : Prop :=
  int4 (UserOrganization.id row)
  ∧ Forall (λ m, UserOrganization.id m ≠ UserOrganization.id row)
           (userOrganizations db)
  ∧ Forall (λ m, (UserOrganization.userId m, UserOrganization.organizationId m)
                 ≠ (UserOrganization.userId row,
                    UserOrganization.organizationId row))
           (userOrganizations db)
  ∧ UserOrganization.userId row ∈ users
  ∧ Exists (λ o, Organization.id o = UserOrganization.organizationId row)
           (organizations db).

Definition projects_accepts (db : Database) (row : Project.t) : Prop :=
  int4 (Project.id row)
  ∧ Forall (λ p, Project.id p ≠ Project.id row) (projects db)
  ∧ Forall (λ p, Project.apiKey p ≠ Project.apiKey row) (projects db)
  ∧ Exists (λ o, Organization.id o = Project.organizationId row)
           (organizations db).

Definition events_accepts (db : Database) (row : Event.t) : Prop :=
  int4 (Event.id row)
  ∧ Forall (λ e, Event.id e ≠ Event.id row) (events db)
  ∧ Exists (λ o, Organization.id o = Event.organizationId row)
           (organizations db)
  ∧ Exists (λ p, Project.id p = Event.projectId row) (projects db).

#[global] Instance organizations_accepts_dec db row :
  Decision (organizations_accepts db row).
Proof. unfold organizations_accepts. apply _. Defined.

#[global] Instance user_organizations_accepts_dec db users row :
  Decision (user_organizations_accepts db users row).
Proof. unfold user_organizations_accepts. apply _. Defined.

#[global] Instance projects_accepts_dec db row : Decision (projects_accepts db row).
Proof. unfold projects_accepts. apply _. Defined.

#[global] Instance events_accepts_dec db row : Decision (events_accepts db row).
Proof. unfold events_accepts. apply _. Defined.

(** The text of the storage's error for a row that a constraint refuses. *)
Definition constraint_violation : Error :=
  StorageFailure "insert or update violates a constraint of the table".

(** ** The session ([lib/auth]) *)

Module Session.
(** An entry of [session.user.organizations]. *)
Record org : Type := mkOrg {
  org_id : Z;
  org_name : string;
  org_slug : string;
  org_role : string
}.

Record user : Type := mkUser {
  id : option string;
  name : option string;
  email : option string;
  organizations : option (list org)
}.

Record t : Type := mk { user_ : option user }.
End Session.

(** [session?.user?.id], [session?.user?.email], [session?.user?.organizations] *)
Definition session_user_id (session : option Session.t) : option string :=
  s ← session; u ← Session.user_ s; Session.id u.
Definition session_user_email (session : option Session.t) : option string :=
  s ← session; u ← Session.user_ s; Session.email u.
Definition session_user_organizations (session : option Session.t)
  : option (list Session.org) :=
  s ← session; u ← Session.user_ s; Session.organizations u.

(** ** Access guard ([lib/rbac]) *)

(** A number of JavaScript as a query parameter compared with an [integer]
    column: the storage refuses [NaN], which is no integer.  (The range of
    the column is [int4], of the previous section.) *)
Definition int_param (n : number) : Result Z :=
  match n with
  | Num z => ret z
  | NaN => throw (StorageFailure "invalid input syntax for type integer")
  end.

(** [parseInt(session.user.id)]; a missing id is read as the text
    ["undefined"]. *)
Definition parse_user_id (id : option string) : number :=
  JS.parseInt (default "undefined" id) None.

(** [userOrganizations INNER JOIN organizations
     ON organizations.id = userOrganizations.organizationId] *)
Definition memberships_with_org (db : Database)
  : list (UserOrganization.t * Organization.t) :=
  flat_map
    (λ m, map (pair m)
            (filter (λ o, Organization.id o = UserOrganization.organizationId m)
                    (organizations db)))
    (userOrganizations db).

Definition is_membership (userId orgId : Z) (m : UserOrganization.t) : Prop :=
  UserOrganization.organizationId m = orgId ∧ UserOrganization.userId m = userId.

#[global] Instance is_membership_dec u o m : Decision (is_membership u o m).
Proof. unfold is_membership. apply _. Defined.

(** [select({ role }) ... where(and(eq(organizationId, orgId),
    eq(userId, uid)))], before the limit.  The two ids are compared with
    the stored ones as integers; an id outside [int4], which equals no
    stored id, is a parameter that the storage refuses, and the statements
    about the guard and the gateway take the ids in that range. *)
Definition select_roles (db : Database) (uid orgId : Z) : list string :=
  map (λ mo, UserOrganization.role (fst mo))
      (filter (λ mo, is_membership uid orgId (fst mo)) (memberships_with_org db)).

Definition assertRole (session : option Session.t) (db : Database)
    (orgId : Z) (requiredRoles : list Role) : Result (string * Z) :=
  if negb (JS.truthy_str (session_user_email session)) then
    throw Unauthorized_NoSessionFound
  else
    try! uid := int_param (parse_user_id (session_user_id session)) in
    let userOrg := take 1 (select_roles db uid orgId) in
    match userOrg with
    | [] => throw Forbidden_NotAMember
    | userRole :: _ =>
        let hasPermission :=
          existsb (λ role, hasMinimumRole userRole (Role_key role)) requiredRoles in
        if negb hasPermission then
          throw (Forbidden_RequiresRoles (map Role_key requiredRoles))
        else ret (userRole, orgId)
    end.

(** [canAccessOrg]: member is the minimum access. *)
Definition canAccessOrg (session : option Session.t) (db : Database) (orgId : Z) : bool :=
  match assertRole session db orgId [member] with
  | inr _ => true
  | inl _ => false
  end.

(** [hasOrgAccess] of [lib/org-utils], on the session's own list. *)
Definition getUserOrgMembership (session : option Session.t) (orgId : Z)
  : option Session.org :=
  match session_user_organizations session with
  | None => None
  | Some orgs => snd <$> list_find (λ org, Session.org_id org = orgId) orgs
  end.

Definition hasOrgAccess (session : option Session.t) (orgId : Z)
    (minRole : option Role) : bool :=
  match getUserOrgMembership session orgId with
  | None => false
  | Some membership =>
      let userRoleLevel := roleLevel (Session.org_role membership) in
      let minRoleLevel := roleLevel (Role_key (default member minRole)) in
      userRoleLevel >=? minRoleLevel
  end.

(** ** The org-scoped gateway ([lib/db-org]) *)

Record OrgDatabase : Type := mkOrgDatabase {
  orgId : Z;
  userId : string
}.

Definition getOrgId (g : OrgDatabase) : Z := orgId g.

Module OrgDb.

Definition create (session : option Session.t) (db : Database) (orgId : Z)
  : Result OrgDatabase :=
  match session_user_id session with
  | Some (String c s as id) =>
      try! uid := int_param (JS.parseInt id None) in
      let membership :=
        take 1 (filter (is_membership uid orgId) (userOrganizations db)) in
      match membership with
      | [] => throw Forbidden_NotAMember
      | _ :: _ => ret (mkOrgDatabase orgId id)
      end
  | _ => throw Unauthorized_NoValidSession
  end.

Definition getProjects (g : OrgDatabase) (db : Database) : list Project.t :=
  filter (λ p, Project.organizationId p = orgId g) (projects db).

(** [result[0] || null] *)
Definition getProject (g : OrgDatabase) (db : Database) (projectId : Z)
  : option Project.t :=
  head (take 1 (filter (λ p, Project.id p = projectId ∧
                             Project.organizationId p = orgId g)
                       (projects db))).

(** [and(...conditions)] *)
Definition and_ {A} (conditions : list (A → bool)) (row : A) : bool :=
  forallb (λ c, c row) conditions.

(** [if (projectId)]: a project id that is given and is not [0]. *)
Definition given_id (projectId : option Z) : option Z :=
  match projectId with
  | Some p => if p =? 0 then None else Some p
  | None => None
  end.

(** [if (key)]: a key that is given and is not empty. *)
Definition given_key (key : option string) : option string :=
  if JS.truthy_str key then key else None.

(** [.limit(n)]: the query gets a LIMIT for a count that is not negative,
    and none for a negative one, which then returns every row. *)
Definition limit_ {A} (n : Z) (rows : list A) : Result (list A) :=
  ret (if n <? 0 then rows else take (Z.to_nat n) rows).

(** The ascending order of the rows on an integer column. *)
Definition col_le {A} (col : A → Z) : relation A := λ a b, col a ≤ col b.

#[global] Instance col_le_dec {A} (col : A → Z) : RelDecision (col_le col).
Proof. intros a b. unfold col_le. apply _. Defined.

(** [.orderBy(column)]: [ORDER BY] the column, ascending.  SQL leaves the
    order among rows with equal keys open; here it is the one this sort
    produces. *)
Definition orderBy {A} (col : A → Z) (rows : list A) : list A :=
  merge_sort (col_le col) rows.

Definition getEvents (g : OrgDatabase) (db : Database)
    (projectId : option Z) (limit : option Z) : Result (list Event.t) :=
  let limit := default 1000 limit in
  let conditions :=
    [λ e, bool_decide (Event.organizationId e = orgId g)]
    ++ match given_id projectId with
       | Some p => [λ e, bool_decide (Event.projectId e = p)]
       | None => []
       end in
  limit_ limit (orderBy Event.timestamp (filter (and_ conditions) (events db))).

Definition getKpiSnapshots (g : OrgDatabase) (db : Database)
    (projectId : option Z) (key : option string) : list KpiSnapshot.t :=
  let conditions :=
    [λ k, bool_decide (KpiSnapshot.organizationId k = orgId g)]
    ++ match given_id projectId with
       | Some p => [λ k, bool_decide (KpiSnapshot.projectId k = Some p)]
       | None => []
       end
    ++ match given_key key with
       | Some key => [λ k, bool_decide (KpiSnapshot.key k = key)]
       | None => []
       end in
  orderBy KpiSnapshot.periodStart (filter (and_ conditions) (kpiSnapshots db)).

Definition chars : string :=
  "ABCDEFGHIJKLMNOPQRSTUVWXYZabcdefghijklmnopqrstuvwxyz0123456789".

Definition charAt (s : string) (i : nat) : string :=
  match String.get i s with
  | Some c => String c ""
  | None => ""
  end.

(** The loop of [generateApiKey]; [random i] is the value of
    [Math.floor(Math.random() * chars.length)] at iteration [i]. *)
Fixpoint generateApiKey_loop (n i : nat) (random : nat → nat) (result : string)
  : string :=
  match n with
  | O => result
  | S n' => generateApiKey_loop n' (S i) random (result +:+ charAt chars (random i))
  end.

Definition generateApiKey (random : nat → nat) : string :=
  generateApiKey_loop 32 0 random "".

Record ProjectData : Type := mkProjectData {
  pd_name : string;
  pd_description : option string;
  pd_domain : option string
}.

(** The row that [createProject] inserts, as the columns store it, or the
    error of a column that refuses its value.  [now] is the value of [now()]
    that fills the defaulted timestamps, and the id is the next value of the
    sequence. *)
Definition project_row (g : OrgDatabase) (db : Database)
    (random : nat → nat) (now : Z) (data : ProjectData) : Result Project.t :=
  let apiKey := generateApiKey random in
  try! organizationId := integer (orgId g) in
  try! name := varchar 255 (pd_name data) in
  try! description := nullable text (pd_description data) in
  try! apiKey := varchar 64 apiKey in
  try! domain := nullable (varchar 255) (pd_domain data) in
  ret (Project.mk (projects_id_seq db) organizationId name description
                  apiKey domain true now now).

(** [db.insert(projects).values({...}).returning()].  The answer is the
    returned rows, or the error thrown, with the database as the statement
    leaves it: a value of the sequence that was drawn stays drawn when a
    constraint refuses the row. *)
Definition createProject (g : OrgDatabase) (db : Database)
    (random : nat → nat) (now : Z) (data : ProjectData)
  : Result (list Project.t) * Database :=
  match project_row g db random now data with
  | inl error => (inl error, db)
  | inr row =>
      if bool_decide (projects_accepts db row) then
        (ret [row],
         mkDatabase (organizations db) (userOrganizations db)
                    (projects db ++ [row]) (events db) (kpiSnapshots db)
                    (projects_id_seq db + 1) (events_id_seq db)
                    (kpi_snapshots_id_seq db))
      else
        (throw constraint_violation,
         mkDatabase (organizations db) (userOrganizations db)
                    (projects db) (events db) (kpiSnapshots db)
                    (projects_id_seq db + 1) (events_id_seq db)
                    (kpi_snapshots_id_seq db))
  end.

(** The argument of [insertEvent].  Its declared type names the first six
    fields; the object is spread into the inserted values as it is, so that
    a key of another column that it carries is inserted as well: the last
    five fields are such keys, [None] when the object does not carry them. *)
Record EventData : Type := mkEventData {
  ed_eventName : string;
  ed_userId : option string;
  ed_sessionId : option string;
  ed_metadata : option string;
  ed_ipAddress : option string;
  ed_userAgent : option string;
  ed_id : option Z;
  ed_organizationId : option Z;
  ed_projectId : option Z;
  ed_timestamp : option Z;
  ed_createdAt : option Z
}.

(** The row that [insertEvent] inserts, as the columns store it, or the
    error of a column that refuses its value:
    [{ organizationId: this.orgId, projectId, ...eventData }], where the
    keys of [eventData] come last and win.  The id is the one of
    [eventData] or the next value of the sequence, the two times are those
    of [eventData] or [now()]. *)
Definition event_row (g : OrgDatabase) (db : Database) (now : Z)
    (projectId : Z) (eventData : EventData) : Result Event.t :=
  try! organizationId :=
    integer (default (orgId g) (ed_organizationId eventData)) in
  try! projectId := integer (default projectId (ed_projectId eventData)) in
  try! eventName := varchar 255 (ed_eventName eventData) in
  try! userId := nullable (varchar 255) (ed_userId eventData) in
  try! sessionId := nullable (varchar 255) (ed_sessionId eventData) in
  try! ipAddress := nullable (varchar 45) (ed_ipAddress eventData) in
  try! userAgent := nullable text (ed_userAgent eventData) in
  try! id := nullable integer (ed_id eventData) in
  ret (Event.mk (default (events_id_seq db) id) organizationId projectId
                eventName userId sessionId (ed_metadata eventData)
                (default now (ed_timestamp eventData)) ipAddress userAgent
                (default now (ed_createdAt eventData))).

(** The sequence of event ids after an insert of [eventData]: a value is
    drawn when the data carry no id. *)
Definition events_id_seq_after (db : Database) (eventData : EventData) : Z :=
  match ed_id eventData with
  | Some _ => events_id_seq db
  | None => events_id_seq db + 1
  end.

(** [insertEvent]: the project is looked up through [getProject], whose
    query takes the project id and the bound organization id as parameters;
    then the row is inserted. *)
Definition insertEvent (g : OrgDatabase) (db : Database) (now : Z)
    (projectId : Z) (eventData : EventData)
  : Result (list Event.t) * Database :=
  match (try! _ := integer projectId in integer (orgId g)) with
  | inl error => (inl error, db)
  | inr _ =>
      match getProject g db projectId with
      | None => (throw ProjectNotFound, db)
      | Some project =>
          match event_row g db now projectId eventData with
          | inl error => (inl error, db)
          | inr row =>
              if bool_decide (events_accepts db row) then
                (ret [row],
                 mkDatabase (organizations db) (userOrganizations db)
                            (projects db) (events db ++ [row]) (kpiSnapshots db)
                            (projects_id_seq db)
                            (events_id_seq_after db eventData)
                            (kpi_snapshots_id_seq db))
              else
                (throw constraint_violation,
                 mkDatabase (organizations db) (userOrganizations db)
                            (projects db) (events db) (kpiSnapshots db)
                            (projects_id_seq db)
                            (events_id_seq_after db eventData)
                            (kpi_snapshots_id_seq db))
          end
      end
  end.

Definition getOrganization (g : OrgDatabase) (db : Database)
  : list Organization.t :=
  take 1 (filter (λ o, Organization.id o = orgId g) (organizations db)).

End OrgDb.

(** [getOrgDb] *)
Definition getOrgDb (session : option Session.t) (db : Database) (orgId : Z)
  : Result OrgDatabase :=
  OrgDb.create session db orgId.

(** ** Context extraction ([middleware/org-middleware], [lib/org-utils]) *)

Module NextRequest.
(** What the code reads of a request: the query parameters and the headers
    in the order they were written, and the path of the URL. *)
Record t : Type := mk {
  searchParams : list (string * string);
  headers : list (string * string);
  pathname : string
}.
End NextRequest.

(** [URLSearchParams.get(name)]: the first value under [name], else [null]. *)
Fixpoint searchParams_get (params : list (string * string)) (name : string)
  : option string :=
  match params with
  | [] => None
  | (k, v) :: rest =>
      if String.eqb k name then Some v else searchParams_get rest name
  end.

(** [Headers.get(name)]: names compare without case; the values of a header
    that occurs several times are joined by a comma and a space. *)
Definition headers_get (headers : list (string * string)) (name : string)
  : option string :=
  let values :=
    map snd (filter (λ kv, JS.toLowerCase (fst kv) = JS.toLowerCase name) headers) in
  match values with
  | [] => None
  | _ => Some (join ", " values)
  end.

Definition isDecimalDigit (c : ascii) : bool :=
  let n := JS.code c in (48 <=? n) && (n <=? 57).

(** The longest run of decimal digits at the start of [s]: what [\d+]
    consumes. *)
Fixpoint decimal_run (s : string) : string :=
  match s with
  | String c s' => if isDecimalDigit c then String c (decimal_run s') else ""
  | EmptyString => ""
  end.

(** The regular expression [\/api\/org\/(\d+)] tried at the start of [s];
    the result is the text of group 1. *)
Definition match_api_org_here (s : string) : option string :=
  match strip_prefix "/api/org/" s with
  | Some rest =>
      match decimal_run rest with
      | EmptyString => None
      | ds => Some ds
      end
  | None => None
  end.

(** [pathname.match(/\/api\/org\/(\d+)/)]: the leftmost match. *)
Fixpoint match_api_org (s : string) : option string :=
  match match_api_org_here s with
  | Some ds => Some ds
  | None =>
      match s with
      | String _ s' => match_api_org s'
      | EmptyString => None
      end
  end.

(** [if (s) ...]: the string when it is there and not empty. *)
Definition nonempty (s : option string) : option string :=
  if JS.truthy_str s then s else None.

Definition getOrgIdFromRequest (req : NextRequest.t) : option number :=
  let urlOrgId := searchParams_get (NextRequest.searchParams req) "orgId" in
  match nonempty urlOrgId with
  | Some urlOrgId => Some (JS.parseInt urlOrgId (Some 10))
  | None =>
      let headerOrgId := headers_get (NextRequest.headers req) "x-org-id" in
      match nonempty headerOrgId with
      | Some headerOrgId => Some (JS.parseInt headerOrgId (Some 10))
      | None =>
          let pathMatch := match_api_org (NextRequest.pathname req) in
          match pathMatch with
          | Some group1 => Some (JS.parseInt group1 (Some 10))
          | None => None
          end
      end
  end.

(** [verifyOrgAccess]: [token.organizations || []], searched with [===]. *)
Record ExtendedJWT : Type := mkExtendedJWT {
  jwt_organizations : option (list Z)
}.

Definition verifyOrgAccess (token : ExtendedJWT) (orgId : number) : bool :=
  existsb (λ id, bool_decide (Num id = orgId)) (default [] (jwt_organizations token)).

(** What [orgMiddleware] answers: the request goes on as it is, is refused
    with status 403, or goes on with the header [x-org-id] set. *)
Inductive MiddlewareResponse : Type :=
| Next
| Forbidden403
| NextWithOrgHeader (orgId : number).

Definition orgMiddleware (token : option ExtendedJWT) (req : NextRequest.t)
  : MiddlewareResponse :=
  match token with
  | None => Next
  | Some token =>
      match getOrgIdFromRequest req with
      | None => Next
      | Some orgId =>
          if negb (JS.truthy orgId) then Next
          else if negb (verifyOrgAccess token orgId) then Forbidden403
          else NextWithOrgHeader orgId
      end
  end.

(** [isValidOrgId] and [parseOrgId] of [lib/org-utils]. *)
Definition isValidOrgId (orgId : number) : bool :=
  match orgId with
  | Num z => 0 <? z
  | NaN => false
  end.

Definition parseOrgId (value : option string) : option number :=
  match nonempty value with
  | None => None
  | Some value =>
      let parsed := JS.parseInt value (Some 10) in
      if isValidOrgId parsed then Some parsed else None
  end.

(** ** Dashboard aggregation ([app/actions/org-actions]) *)

Record Metrics : Type := mkMetrics {
  totalProjects : Z;
  activeProjects : Z;
  totalEvents : Z
}.

Record Dashboard : Type := mkDashboard {
  d_organization : list Organization.t;
  d_metrics : Metrics;
  d_projects : list Project.t;
  d_recentEvents : list Event.t;
  d_kpiSnapshots : list KpiSnapshot.t
}.

(** [{ success: true, data }] or [{ success: false, error }] *)
Inductive Response (A : Type) : Type :=
| Success (data : A)
| Failure (error : string).
Arguments Success {A} data.
Arguments Failure {A} error.

Definition getOrgDashboard (session : option Session.t) (db : Database) (orgId : Z)
  : Response Dashboard :=
  let body :=
    try! checked := assertRole session db orgId [member] in
    try! orgDb := getOrgDb session db orgId in
    let projects := OrgDb.getProjects orgDb db in
    try! recentEvents := OrgDb.getEvents orgDb db None (Some 10) in
    let kpiSnapshots := OrgDb.getKpiSnapshots orgDb db None None in
    let totalProjects := Z.of_nat (length projects) in
    let activeProjects :=
      Z.of_nat (length (filter (λ p, Project.isActive p) projects)) in
    let totalEvents := Z.of_nat (length recentEvents) in
    ret (mkDashboard (OrgDb.getOrganization orgDb db)
                     (mkMetrics totalProjects activeProjects totalEvents)
                     projects recentEvents kpiSnapshots) in
  match body with
  | inr data => Success data
  | inl error => Failure (message error)
  end.

(** ** KPI snapshots: the unique key and its writer *)

(** The tuple of the constraint [uniq_org_project_key_period]. *)
Definition kpi_key (k : KpiSnapshot.t) : Z * option Z * string * Z :=
  (KpiSnapshot.organizationId k, KpiSnapshot.projectId k,
   KpiSnapshot.key k, KpiSnapshot.periodStart k).

(** The data model's invariant: a snapshot is uniquely keyed by
    (organization, project, metric key, period start).  The constraint of the
    schema enforces it for the rows that carry a project id. *)
Definition uniquely_keyed (rows : list KpiSnapshot.t) : Prop :=
  NoDup (map kpi_key rows).

(** Modelled from the spec: the replacement of a stored KPI snapshot by a
    write under the same tuple (the "replace" of insert-or-replace, which no
    code of the repository implements): the row keeps its id and creation
    time and takes the written period end, value and payload. *)
Definition replace_snapshot (now organizationId : Z) (projectId : option Z)
    (key : string) (periodStart periodEnd value : Z) (metadata : option string)
    (k : KpiSnapshot.t) : KpiSnapshot.t :=
  if decide (kpi_key k = (organizationId, projectId, key, periodStart)) then
    KpiSnapshot.mk (KpiSnapshot.id k) organizationId projectId key
                   periodStart periodEnd value metadata
                   (KpiSnapshot.createdAt k) now
  else k.

(** Modelled from the spec: the write of a KPI snapshot.  The repository
    declares the table and its unique constraint, and no code that writes the
    table (the worker is a stub).  The specification asks that a writer
    "upsert (insert-or-replace) rather than blind-insert" on the tuple
    (organization, project, metric key, period start): a row that carries the
    tuple is replaced in place, and a row is inserted when there is none. *)
Definition upsertKpiSnapshot (db : Database) (now : Z)
    (organizationId : Z) (projectId : option Z) (key : string)
    (periodStart periodEnd value : Z) (metadata : option string) : Database :=
  let tuple := (organizationId, projectId, key, periodStart) in
  let rows := kpiSnapshots db in
  if bool_decide (Exists (λ k, kpi_key k = tuple) rows) then
    mkDatabase (organizations db) (userOrganizations db) (projects db)
               (events db)
               (map (replace_snapshot now organizationId projectId key
                                      periodStart periodEnd value metadata) rows)
               (projects_id_seq db) (events_id_seq db) (kpi_snapshots_id_seq db)
  else
    let row :=
      KpiSnapshot.mk (kpi_snapshots_id_seq db) organizationId projectId key
                     periodStart periodEnd value metadata now now in
    mkDatabase (organizations db) (userOrganizations db) (projects db)
               (events db) (rows ++ [row])
               (projects_id_seq db) (events_id_seq db)
               (kpi_snapshots_id_seq db + 1).

(** ** Vocabulary of the statements *)

(** The caller of the session is established and is the user [U]. *)
Definition caller_is (session : option Session.t) (U : Z) : Prop :=
  JS.truthy_str (session_user_email session) = true
  ∧ parse_user_id (session_user_id session) = Num U.

(** A Membership row exists for (U, O). *)
Definition has_membership (db : Database) (U O : Z) : Prop :=
  ∃ m, m ∈ userOrganizations db ∧ is_membership U O m.

(** The role [k] satisfies none of the required roles. *)
Definition satisfies_none (k : string) (requiredRoles : list Role) : Prop :=
  ∀ r, r ∈ requiredRoles → hasMinimumRole k (Role_key r) = false.

(** The role [k] satisfies at least one of the required roles. *)
Definition satisfies_some (k : string) (requiredRoles : list Role) : Prop :=
  ∃ r, r ∈ requiredRoles ∧ hasMinimumRole k (Role_key r) = true.

(** The rows of the tenant [B]: its projects, events and KPI snapshots. *)
Definition tenant_rows (B : Z) (db : Database)
  : list Project.t * list Event.t * list KpiSnapshot.t :=
  (filter (λ p, Project.organizationId p = B) (projects db),
   filter (λ e, Event.organizationId e = B) (events db),
   filter (λ k, KpiSnapshot.organizationId k = B) (kpiSnapshots db)).

(** ** A concrete tenant set-up

    Organization 1 has the membership (user 7, member), a project 5 and
    eleven events at the times 1 to 11; organization 2 has a project 6, an
    event and a KPI snapshot of its own, and no membership for user 7. *)

Definition org1 : Organization.t :=
  Organization.mk 1 "Acme" "acme" "free" None None 0 0.
Definition org2 : Organization.t :=
  Organization.mk 2 "Globex" "globex" "free" None None 0 0.

Definition membership_7_1 : UserOrganization.t :=
  UserOrganization.mk 1 7 1 "member" 0.

Definition project5 : Project.t :=
  Project.mk 5 1 "site" None "KEY5" None true 0 0.
Definition project6 : Project.t :=
  Project.mk 6 2 "shop" None "KEY6" None false 0 0.

Definition event_at (id org project time : Z) : Event.t :=
  Event.mk id org project "page_view" None None None time None None time.

Definition events_1_to_11 : list Event.t :=
  map (λ t, event_at t 1 5 t) [1; 2; 3; 4; 5; 6; 7; 8; 9; 10; 11].

Definition kpi_a : KpiSnapshot.t :=
  KpiSnapshot.mk 1 1 (Some 5) "daily_page_views" 100 200 12 None 0 0.
Definition kpi_b : KpiSnapshot.t :=
  KpiSnapshot.mk 2 2 (Some 6) "daily_page_views" 100 200 34 None 0 0.

Definition db0 : Database :=
  mkDatabase [org1; org2] [membership_7_1] [project5; project6]
             (events_1_to_11 ++ [event_at 12 2 6 5]) [kpi_a; kpi_b]
             7 13 3.

Definition user7 : Session.user :=
  Session.mkUser (Some "7") None (Some "u7@example.com") None.
Definition session7 : option Session.t := Some (Session.mk (Some user7)).

Definition gateway1 : OrgDatabase := mkOrgDatabase 1 "7".

Definition no_event_data : OrgDb.EventData :=
  OrgDb.mkEventData "page_view" None None None None None
                    None None None None None.

(** The same event data with the key [organizationId: 2] beside the declared
    fields. *)
Definition event_data_org2 : OrgDb.EventData :=
  OrgDb.mkEventData "page_view" None None None None None
                    None (Some 2) None None None.

(** A request with the header [x-org-id: 42] and the query [?orgId=99]. *)
Definition req_header42_query99 : NextRequest.t :=
  NextRequest.mk [("orgId", "99")] [("x-org-id", "42")] "/api/projects".

(** Requests whose query parameter is not a positive integer. *)
Definition req_query (value : string) : NextRequest.t :=
  NextRequest.mk [("orgId", value)] [] "/api/projects".

(** ** Further vocabulary: what a query selects *)

(** The events that [getEvents] selects: those of the bound organization,
    and of the project when a project id is given. *)
Definition event_selected (g : OrgDatabase) (projectId : option Z) (e : Event.t)
  : Prop :=
  Event.organizationId e = orgId g
  ∧ match OrgDb.given_id projectId with
    | Some p => Event.projectId e = p
    | None => True
    end.

#[global] Instance event_selected_dec g projectId e :
  Decision (event_selected g projectId e).
Proof. unfold event_selected. destruct (OrgDb.given_id projectId); apply _. Defined.

(** The snapshots that [getKpiSnapshots] selects. *)
Definition kpi_selected (g : OrgDatabase) (projectId : option Z)
    (key : option string) (k : KpiSnapshot.t) : Prop :=
  KpiSnapshot.organizationId k = orgId g
  ∧ match OrgDb.given_id projectId with
    | Some p => KpiSnapshot.projectId k = Some p
    | None => True
    end
  ∧ match OrgDb.given_key key with
    | Some s => KpiSnapshot.key k = s
    | None => True
    end.

#[global] Instance kpi_selected_dec g projectId key k :
  Decision (kpi_selected g projectId key k).
Proof.
  unfold kpi_selected.
  destruct (OrgDb.given_id projectId), (OrgDb.given_key key); apply _.
Defined.

(** The number of characters of a UTF-8 text. *)
Definition code_points (s : string) : nat :=
  length (filter (λ c, isContinuation c = false) (characters s)).

(** A text that a [varchar(n)] column stores as it is: at most [n]
    characters, none of them NUL. *)
Definition fits (n : nat) (s : string) : Prop :=
  ("000"%char ∉ characters s) ∧ (code_points s ≤ n)%nat.

(** The event data carry the fields of their declared type and no other
    key. *)
Definition declared_fields (eventData : OrgDb.EventData) : Prop :=
  OrgDb.ed_id eventData = None
  ∧ OrgDb.ed_organizationId eventData = None
  ∧ OrgDb.ed_projectId eventData = None
  ∧ OrgDb.ed_timestamp eventData = None
  ∧ OrgDb.ed_createdAt eventData = None.

(** The tables of two databases hold the same rows. *)
Definition same_rows (db db' : Database) : Prop :=
  organizations db' = organizations db
  ∧ userOrganizations db' = userOrganizations db
  ∧ projects db' = projects db
  ∧ events db' = events db
  ∧ kpiSnapshots db' = kpiSnapshots db.




(** ** The caller's organizations ([lib/rbac]) *)

(** A row of [getUserOrganizations]: the organization and the caller's role
    in it. *)
Record UserOrgRow : Type := mkUserOrgRow {
  uo_id : Z;
  uo_name : string;
  uo_slug : string;
  uo_plan : string;
  uo_role : string
}.

Definition getUserOrganizations (session : option Session.t) (db : Database)
  : Result (list UserOrgRow) :=
  if negb (JS.truthy_str (session_user_email session)) then ret []
  else
    try! uid := int_param (parse_user_id (session_user_id session)) in
    ret (map (λ mo, mkUserOrgRow (Organization.id (snd mo))
                                 (Organization.name (snd mo))
                                 (Organization.slug (snd mo))
                                 (Organization.plan (snd mo))
                                 (UserOrganization.role (fst mo)))
             (filter (λ mo, UserOrganization.userId (fst mo) = uid)
                     (memberships_with_org db))).

(** ** Numbers as text, and the header the middleware sets *)

(** The decimal digits of a [Decimal.uint] as characters. *)
Fixpoint uint_to_string (d : Decimal.uint) : string :=
  match d with
  | Decimal.Nil => ""
  | Decimal.D0 d => String "0" (uint_to_string d)
  | Decimal.D1 d => String "1" (uint_to_string d)
  | Decimal.D2 d => String "2" (uint_to_string d)
  | Decimal.D3 d => String "3" (uint_to_string d)
  | Decimal.D4 d => String "4" (uint_to_string d)
  | Decimal.D5 d => String "5" (uint_to_string d)
  | Decimal.D6 d => String "6" (uint_to_string d)
  | Decimal.D7 d => String "7" (uint_to_string d)
  | Decimal.D8 d => String "8" (uint_to_string d)
  | Decimal.D9 d => String "9" (uint_to_string d)
  end.

(** [n.toString()] and the conversion of a template literal: the decimal
    digits of the integer, after a minus sign when it is negative.  This is
    the text of JavaScript for the safe integers (from 10^21 on, JavaScript
    writes an exponent). *)
Definition toString (n : number) : string :=
  match n with
  | NaN => "NaN"
  | Num z =>
      match Z.to_int z with
      | Decimal.Pos d => uint_to_string d
      | Decimal.Neg d => String "-" (uint_to_string d)
      end
  end.

(** The values of the digits of a [Decimal.uint]. *)
Fixpoint uint_digits (d : Decimal.uint) : list Z :=
  match d with
  | Decimal.Nil => []
  | Decimal.D0 d => 0 :: uint_digits d
  | Decimal.D1 d => 1 :: uint_digits d
  | Decimal.D2 d => 2 :: uint_digits d
  | Decimal.D3 d => 3 :: uint_digits d
  | Decimal.D4 d => 4 :: uint_digits d
  | Decimal.D5 d => 5 :: uint_digits d
  | Decimal.D6 d => 6 :: uint_digits d
  | Decimal.D7 d => 7 :: uint_digits d
  | Decimal.D8 d => 8 :: uint_digits d
  | Decimal.D9 d => 9 :: uint_digits d
  end.

(** [Headers.set(name, value)]: the header holds this one value afterwards. *)
Definition headers_set (headers : list (string * string)) (name value : string)
  : list (string * string) :=
  filter (λ kv, JS.toLowerCase (fst kv) ≠ JS.toLowerCase name) headers
  ++ [(JS.toLowerCase name, value)].

(** [getOrgIdFromHeaders] of the middleware: [orgId ? parseInt(orgId, 10) :
    null] on the header [x-org-id]. *)
Definition getOrgIdFromHeaders (headers : list (string * string)) : option number :=
  match nonempty (headers_get headers "x-org-id") with
  | Some orgId => Some (JS.parseInt orgId (Some 10))
  | None => None
  end.

(** The request that [orgMiddleware] hands on: the request as it came for
    [NextResponse.next()], none for the refusal, and the request with the
    header [x-org-id] set to [orgId.toString()] otherwise. *)
Definition orgMiddleware_request (token : option ExtendedJWT) (req : NextRequest.t)
  : option NextRequest.t :=
  match orgMiddleware token req with
  | Next => Some req
  | Forbidden403 => None
  | NextWithOrgHeader orgId =>
      Some (NextRequest.mk (NextRequest.searchParams req)
              (headers_set (NextRequest.headers req) "x-org-id" (toString orgId))
              (NextRequest.pathname req))
  end.

(** A text that does not start with a decimal digit. *)
Definition no_leading_digit (s : string) : Prop := JS.digits 10 s = [].

(** A request with the query [?orgId=0] and a header [x-org-id: 5]. *)
Definition req_query0_header5 : NextRequest.t :=
  NextRequest.mk [("orgId", "0")] [("X-Org-Id", "5")] "/api/projects".

(** A token that lists organization 1. *)
Definition token_org1 : ExtendedJWT := mkExtendedJWT (Some [1]).

(** ** More of JavaScript's strings *)

(** [s.trimEnd()]: the white space is skipped from the end, on the text
    read backwards; and [s.trim()]. *)
Definition trimEnd (s : string) : string :=
  String.rev (JS.skipAll (map String.rev JS.whiteSpace) (String.length s)
                         (String.rev s)).

Definition trim (s : string) : string := trimEnd (JS.trimStart s).

(** [hay.includes(needle)] *)
Fixpoint includes (hay needle : string) : bool :=
  match strip_prefix needle hay with
  | Some _ => true
  | None =>
      match hay with
      | EmptyString => false
      | String _ hay' => includes hay' needle
      end
  end.

(** The double quote, as a text. *)
Definition dquote : string := String (ascii_of_nat 34) EmptyString.

(** What a [catch (error)] block reads of a thrown error: its message. *)
Definition thrown {A} (r : Result A) : string + A :=
  match r with
  | inl e => inl (message e)
  | inr a => inr a
  end.

(** [{ success: true, ... }] for a body that returned, [{ success: false,
    error }] for one that threw. *)
Definition respond {A} (body : string + A) : Response A :=
  match body with
  | inr data => Success data
  | inl error => Failure error
  end.

(** ** The other server actions ([app/actions/org-actions]) *)

Module Actions.

Definition getOrgProjects (session : option Session.t) (db : Database) (orgId : Z)
  : Response (list Project.t) :=
  respond
    (if negb (JS.truthy_str (session_user_id session)) then
       inl "Authentication required"
     else
       match thrown (getOrgDb session db orgId) with
       | inl error => inl error
       | inr orgDb => inr (OrgDb.getProjects orgDb db)
       end).

(** The action answers with the new project and a message; the database is
    the one after the insert, or the one before when the action failed. *)
Definition createProject (session : option Session.t) (db : Database)
    (random : nat → nat) (now : Z) (orgId : Z) (projectData : OrgDb.ProjectData)
  : Response (Project.t * string) * Database :=
  match thrown (assertRole session db orgId [admin; owner]) with
  | inl error => (Failure error, db)
  | inr _ =>
      if negb (JS.truthy_str (Some (OrgDb.pd_name projectData)))
         || (String.length (trim (OrgDb.pd_name projectData)) =? 0)%nat then
        (Failure "Project name is required", db)
      else
        match thrown (getOrgDb session db orgId) with
        | inl error => (Failure error, db)
        | inr orgDb =>
            let '(rows, db') :=
              OrgDb.createProject orgDb db random now
                (OrgDb.mkProjectData (trim (OrgDb.pd_name projectData))
                   (trim <$> OrgDb.pd_description projectData)
                   (trim <$> OrgDb.pd_domain projectData)) in
            match thrown rows with
            | inl error => (Failure error, db')
            | inr (newProject :: _) =>
                (Success (newProject,
                          "Project " +:+ dquote +:+ Project.name newProject
                          +:+ dquote +:+ " created successfully"),
                 db')
            | inr [] =>
                (* never taken: the insert returns its row; reading [.name]
                   of [undefined] would throw a TypeError *)
                (Failure "Cannot read properties of undefined (reading 'name')",
                 db')
            end
        end
  end.

Definition getUserOrganizations (session : option Session.t) (db : Database)
  : Response (list UserOrgRow) :=
  respond
    (if negb (JS.truthy_str (session_user_id session)) then
       inl "Authentication required"
     else thrown (getUserOrganizations session db)).

Record SwitchedOrg : Type := mkSwitchedOrg {
  sw_id : Z;
  sw_name : string;
  sw_slug : string
}.

Definition switchActiveOrg (session : option Session.t) (db : Database) (orgId : Z)
  : Response (SwitchedOrg * string) :=
  respond
    (match thrown (getOrgDb session db orgId) with
     | inl error => inl error
     | inr orgDb =>
         match OrgDb.getOrganization orgDb db with
         | [] => inl "Organization not found"
         | organization :: _ =>
             inr (mkSwitchedOrg (Organization.id organization)
                                (Organization.name organization)
                                (Organization.slug organization),
                  "Switched to " +:+ Organization.name organization)
         end
     end).

End Actions.

(** ** The API routes *)

(** [NextResponse.json(body, { status })]: an error body with its status, or
    the body of a success (status 200). *)
Inductive JsonResponse (A : Type) : Type :=
| ErrorJson (status : Z) (error : string)
| OkJson (data : A).
Arguments ErrorJson {A} status error.
Arguments OkJson {A} data.

Module Routes.

(** [getOrgDb(parseInt(orgId, 10))]: the session is checked first, and the
    storage refuses, as a parameter of the membership query, an organization
    id that is not an integer of the column's range. *)
Definition getOrgDb_parsed (session : option Session.t) (db : Database)
    (orgId : number) : Result OrgDatabase :=
  if negb (JS.truthy_str (session_user_id session)) then
    throw Unauthorized_NoValidSession
  else
    try! orgId := int_param orgId in
    try! orgId := integer orgId in
    getOrgDb session db orgId.

Record ProjectsBody : Type := mkProjectsBody {
  pb_orgId : Z;
  pb_projects : list Project.t;
  pb_count : Z
}.

(** The [catch] of [GET /api/projects]. *)
Definition GET_projects_catch {A} (error : string) : JsonResponse A :=
  if includes error "Forbidden" || includes error "not a member" then
    ErrorJson 403 "Access denied to organization"
  else if includes error "Unauthorized" then
    ErrorJson 401 "Authentication required"
  else ErrorJson 500 "Internal server error".

(** [GET /api/projects?orgId=...] *)
Definition GET_projects (session : option Session.t) (db : Database)
    (req : NextRequest.t) : JsonResponse ProjectsBody :=
  if negb (JS.truthy_str (session_user_id session)) then
    ErrorJson 401 "Unauthorized"
  else
    match nonempty (searchParams_get (NextRequest.searchParams req) "orgId") with
    | None => ErrorJson 400 "Organization ID required"
    | Some orgId =>
        match thrown (getOrgDb_parsed session db (JS.parseInt orgId (Some 10))) with
        | inl error => GET_projects_catch error
        | inr orgDb =>
            let projects := OrgDb.getProjects orgDb db in
            OkJson (mkProjectsBody (getOrgId orgDb) projects
                                   (Z.of_nat (length projects)))
        end
    end.

(** The fields that [POST /api/projects] reads of the JSON body; [None] for
    the name is a name that is absent or is not a string. *)
Record ProjectJson : Type := mkProjectJson {
  pj_name : option string;
  pj_description : option string;
  pj_domain : option string
}.

(** The [catch] of [POST /api/projects]. *)
Definition POST_projects_catch {A} (error : string) : JsonResponse A :=
  if includes error "Forbidden" || includes error "not a member" then
    ErrorJson 403 "Access denied to organization"
  else ErrorJson 500 "Internal server error".

(** [POST /api/projects?orgId=...]; [body = None] is a body that is not
    JSON, for which [req.json()] throws.  The project of the answer is the
    first of the returned rows, [const [newProject] = ...]. *)
Definition POST_projects (session : option Session.t) (db : Database)
    (random : nat → nat) (now : Z) (req : NextRequest.t)
    (body : option ProjectJson) : JsonResponse (option Project.t) * Database :=
  if negb (JS.truthy_str (session_user_id session)) then
    (ErrorJson 401 "Unauthorized", db)
  else
    match nonempty (searchParams_get (NextRequest.searchParams req) "orgId") with
    | None => (ErrorJson 400 "Organization ID required", db)
    | Some orgId =>
        match body with
        | None => (ErrorJson 500 "Internal server error", db)
        | Some body =>
            match nonempty (pj_name body) with
            | None => (ErrorJson 400 "Project name is required", db)
            | Some name =>
                match thrown (getOrgDb_parsed session db
                                (JS.parseInt orgId (Some 10))) with
                | inl error => (POST_projects_catch error, db)
                | inr orgDb =>
                    let '(rows, db') :=
                      OrgDb.createProject orgDb db random now
                        (OrgDb.mkProjectData name (pj_description body)
                                             (pj_domain body)) in
                    match thrown rows with
                    | inl error => (POST_projects_catch error, db')
                    | inr rows => (OkJson (head rows), db')
                    end
                end
            end
        end
    end.

Record ActiveOrg : Type := mkActiveOrg {
  ao_id : Z;
  ao_name : string;
  ao_slug : string;
  ao_role : string
}.

(** What [POST /api/org] reads of [body.orgId]: a value that is absent or
    is not of type number; a number that is no integer (one with a fraction,
    or an infinity, neither of which is 0); or an integer. *)
Inductive JsonOrgId : Type :=
| NotANumber
| NotAnInteger
| Integer (z : Z).

(** [POST /api/org], the switch of the active organization.  [body = None]
    is a body that is not a JSON object.  The storage refuses, as a
    parameter of the query, a number that is not an integer of the column's
    range. *)
Definition POST_org (session : option Session.t) (db : Database)
    (body : option JsonOrgId) : JsonResponse (ActiveOrg * string) :=
  if negb (JS.truthy_str (session_user_id session)) then
    ErrorJson 401 "Unauthorized"
  else
    match body with
    | None => ErrorJson 500 "Internal server error"
    | Some NotANumber | Some (Integer 0) =>
        ErrorJson 400 "Invalid organization ID"
    | Some orgId =>
        let parameters :=
          try! uid := int_param (parse_user_id (session_user_id session)) in
          try! uid := integer uid in
          try! orgId :=
            match orgId with
            | Integer z => integer z
            | _ => throw (StorageFailure "invalid input syntax for type integer")
            end in
          ret (uid, orgId) in
        match parameters with
        | inl _ => ErrorJson 500 "Internal server error"
        | inr (uid, orgId) =>
            let membership :=
              take 1 (filter (λ mo, is_membership uid orgId (fst mo))
                             (memberships_with_org db)) in
            match membership with
            | [] => ErrorJson 403 "Access denied to organization"
            | (m, o) :: _ =>
                OkJson (mkActiveOrg (Organization.id o) (Organization.name o)
                                    (Organization.slug o)
                                    (UserOrganization.role m),
                        "Switched to " +:+ Organization.name o)
            end
        end
    end.

End Routes.

(** User 8 owns organization 2, beside the membership of user 7. *)
Definition membership_8_2 : UserOrganization.t :=
  UserOrganization.mk 2 8 2 "owner" 0.

Definition db1 : Database :=
  mkDatabase [org1; org2] [membership_7_1; membership_8_2] [project5; project6]
             (events_1_to_11 ++ [event_at 12 2 6 5]) [kpi_a; kpi_b]
             7 13 3.

Definition user8 : Session.user :=
  Session.mkUser (Some "8") None (Some "u8@example.com") None.
Definition session8 : option Session.t := Some (Session.mk (Some user8)).

(** The request [/api/projects?orgId=1]. *)
Definition req_org1 : NextRequest.t := req_query "1".

(** ** The session's own list of organizations ([lib/org-utils]) *)

Record OrgContext : Type := mkOrgContext {
  oc_orgId : Z;
  oc_userId : string;
  oc_role : string
}.

Definition createOrgContext (session : option Session.t) (orgId : Z)
  : option OrgContext :=
  match nonempty (session_user_id session) with
  | None => None
  | Some id =>
      match getUserOrgMembership session orgId with
      | None => None
      | Some membership => Some (mkOrgContext orgId id (Session.org_role membership))
      end
  end.

(** ** URLs and display names ([lib/org-utils]) *)

(** [path.startsWith('/')] *)
Definition startsWithSlash (path : string) : bool :=
  match path with
  | String "/" _ => true
  | _ => false
  end.

(** [getOrgUrl(orgId, path = '')] *)
Definition getOrgUrl (orgId : number) (path : option string) : string :=
  let path := default "" path in
  let basePath := "/org/" +:+ toString orgId in
  match path with
  | EmptyString => basePath
  | _ => basePath +:+ (if startsWithSlash path then "" else "/") +:+ path
  end.

(** [\w] of a regular expression. *)
Definition isWordChar (c : ascii) : bool :=
  let n := JS.code c in
  ((48 <=? n) && (n <=? 57)) || ((65 <=? n) && (n <=? 90))
  || ((97 <=? n) && (n <=? 122)) || (n =? 95).

Definition toUpperAscii (c : ascii) : ascii :=
  let n := JS.code c in
  if (97 <=? n) && (n <=? 122) then ascii_of_N (Z.to_N (n - 32)) else c.

(** [s.replace(/-/g, ' ')] *)
Fixpoint replace_dashes (s : string) : string :=
  match s with
  | EmptyString => EmptyString
  | String c s' => String (if Ascii.eqb c "-" then " "%char else c) (replace_dashes s')
  end.

(** [s.replace(/\b\w/g, l => l.toUpperCase())]: a word character that
    follows no word character is put in upper case; [prev] tells whether the
    character before is a word character. *)
Fixpoint capitalize_words (prev : bool) (s : string) : string :=
  match s with
  | EmptyString => EmptyString
  | String c s' =>
      String (if isWordChar c && negb prev then toUpperAscii c else c)
             (capitalize_words (isWordChar c) s')
  end.

Record OrgName : Type := mkOrgName {
  on_name : option string;
  on_slug : option string;
  on_id : number
}.

Definition formatOrgName (org : OrgName) : string :=
  match nonempty (on_name org) with
  | Some name => name
  | None =>
      match nonempty (on_slug org) with
      | Some slug => capitalize_words false (replace_dashes slug)
      | None => "Organization " +:+ toString (on_id org)
      end
  end.

(** ** The personal organization of a new user ([lib/auth]) *)

(** The user handed to the [createUser] event. *)
Record AdapterUser : Type := mkAdapterUser {
  au_id : option string;
  au_name : option string;
  au_email : option string
}.

(** [email.split('@')[0]]: the text before the first [@]. *)
Fixpoint before_at (s : string) : string :=
  match s with
  | EmptyString => EmptyString
  | String c s' => if Ascii.eqb c "@" then EmptyString else String c (before_at s')
  end.

(** The organization that [createUser] inserts, as the table stores it, or
    the error of a column that refuses a value.  [now] is the clock, read by
    [Date.now()] and by the defaults of the columns; [newOrgId] is the value
    that the sequence of the table yields. *)
Definition personal_organization (now newOrgId : Z) (name : option string)
    (email : string) : Result Organization.t :=
  try! name :=
    varchar 255 (default (before_at email) (nonempty name)
                 +:+ "'s Organization") in
  try! slug :=
    varchar 100 (JS.toLowerCase (before_at email +:+ "-" +:+ toString (Num now))) in
  try! billingEmail := varchar 255 email in
  ret (Organization.mk newOrgId name slug "free" (Some billingEmail) None now now).

(** The membership that [createUser] inserts for the new organization. *)
Definition owner_membership (now newMembershipId : Z) (id : string)
    (newOrg : Organization.t) : Result UserOrganization.t :=
  try! userId := int_param (JS.parseInt id None) in
  try! userId := integer userId in
  ret (UserOrganization.mk newMembershipId userId (Organization.id newOrg)
                           "owner" now).

(** The database with one more organization. *)
Definition add_organization (db : Database) (newOrg : Organization.t) : Database :=
  mkDatabase (organizations db ++ [newOrg]) (userOrganizations db)
             (projects db) (events db) (kpiSnapshots db)
             (projects_id_seq db) (events_id_seq db) (kpi_snapshots_id_seq db).

(** The [createUser] event.  An insert that the storage refuses throws, the
    [catch] logs the error, and the database stays as the statements before
    have left it: without the organization when its insert is refused, and
    with the organization alone when the insert of the membership is.
    [users] holds the ids of the table [users]. *)
Definition createUser (db : Database) (users : list Z)
    (now newOrgId newMembershipId : Z) (user : AdapterUser) : Database :=
  match nonempty (au_email user), nonempty (au_id user) with
  | Some email, Some id =>
      match personal_organization now newOrgId (au_name user) email with
      | inl _ => db
      | inr newOrg =>
          if bool_decide (organizations_accepts db newOrg) then
            let db1 := add_organization db newOrg in
            match owner_membership now newMembershipId id newOrg with
            | inl _ => db1
            | inr membership =>
                if bool_decide (user_organizations_accepts db1 users membership)
                then
                  mkDatabase (organizations db1)
                             (userOrganizations db1 ++ [membership])
                             (projects db1) (events db1) (kpiSnapshots db1)
                             (projects_id_seq db1) (events_id_seq db1)
                             (kpi_snapshots_id_seq db1)
                else db1
            end
          else db
      end
  | _, _ => db
  end.

(** A text of ASCII characters, on which [JS.toLowerCase] is the lower-casing
    of JavaScript. *)
Definition ascii_text (s : string) : Prop :=
  Forall (λ c, JS.code c < 128) (characters s).

(** A session of the user [U] with the address [alice@example.com], and the
    user as the [createUser] event receives it. *)
Definition alice : AdapterUser :=
  mkAdapterUser (Some "9") None (Some "alice@example.com").
Definition session_alice : option Session.t :=
  Some (Session.mk (Some (Session.mkUser (Some "9") None
                                         (Some "alice@example.com") None))).

(** A session that lists organization 1 with the role admin. *)
Definition session_listed : option Session.t :=
  Some (Session.mk (Some (Session.mkUser (Some "7") None (Some "u7@example.com")
                            (Some [Session.mkOrg 1 "Acme" "acme" "admin"])))).

(** * Theorems *)

(** ** Role policy *)

Lemma ROLES_key (r : Role) : ROLES (Role_key r) = Some (rank r).
Proof. by destruct r. Qed.

Lemma roleHierarchy_key (r : Role) : roleHierarchy (Role_key r) = Some (rank r).
Proof. by destruct r. Qed.

Lemma hasMinimumRole_key (actual required : Role) :
  hasMinimumRole (Role_key actual) (Role_key required)
  = (rank actual >=? rank required).
Proof. unfold hasMinimumRole. by rewrite !ROLES_key. Qed.

Lemma rank_inj (r1 r2 : Role) : rank r1 = rank r2 → r1 = r2.
Proof. destruct r1, r2; simpl; intros; congruence || lia. Qed.

Lemma rank_range (r : Role) : 1 ≤ rank r ≤ 3.
Proof. destruct r; simpl; lia. Qed.

(** A role outside the table satisfies nothing and is satisfied by nothing. *)
Lemma hasMinimumRole_unknown (k k' : string) :
  ROLES k = None → hasMinimumRole k k' = false ∧ hasMinimumRole k' k = false.
Proof.
  unfold hasMinimumRole. intros ->. split; [done|]. by destruct (ROLES k').
Qed.

(** [hasOrgAccess] on a session that lists the organization decides by the
    same ranks. *)
Lemma hasOrgAccess_rank session O m (actual required : Role) :
  getUserOrgMembership session O = Some m →
  Session.org_role m = Role_key actual →
  hasOrgAccess session O (Some required) = (rank actual >=? rank required).
Proof.
  intros Hm Hr. unfold hasOrgAccess, roleLevel. rewrite Hm, Hr. simpl.
  by rewrite !roleHierarchy_key.
Qed.

(** C4: on the three roles [hasMinimumRole] is true exactly when the rank of
    the actual role is at least the rank of the required one, the ranks being
    member 1, admin 2, owner 3 in the table the code looks up; hence a higher
    or equal role satisfies a lower one, and a lower or equal role satisfies a
    higher one only when the two are the same role.  The level test of
    [hasOrgAccess] decides the same order. *)
Theorem hasMinimumRole_iff_rank (actual required : Role) :
  (ROLES (Role_key member) = Some 1 ∧ ROLES (Role_key admin) = Some 2
   ∧ ROLES (Role_key owner) = Some 3)
  ∧ (hasMinimumRole (Role_key actual) (Role_key required) = true
     ↔ (rank actual >= rank required)%Z)
  ∧ (rank required ≤ rank actual
     → hasMinimumRole (Role_key actual) (Role_key required) = true)
  ∧ (rank actual ≤ rank required
     → hasMinimumRole (Role_key actual) (Role_key required) = true
     → actual = required)
  ∧ (roleLevel (Role_key actual) >=? roleLevel (Role_key required))
    = hasMinimumRole (Role_key actual) (Role_key required).
Proof.
  split; [done|].
  rewrite hasMinimumRole_key. unfold roleLevel. rewrite !roleHierarchy_key. simpl.
  rewrite Z.geb_le.
  repeat split; try lia.
  intros H1 H2. apply rank_inj. lia.
Qed.

(** ** Access guard *)

Lemma NoDup_map_inj {A B} (f : A → B) (l : list A) (x y : A) :
  NoDup (map f l) → x ∈ l → y ∈ l → f x = f y → x = y.
Proof.
  induction l as [|a l IH]; simpl; intros Hnd Hx Hy Hf.
  - by apply elem_of_nil in Hx.
  - apply NoDup_cons in Hnd as [Hnotin Hnd].
    apply elem_of_cons in Hx as [->|Hx]; apply elem_of_cons in Hy as [->|Hy];
      try done.
    + exfalso. apply Hnotin. rewrite Hf. apply list_elem_of_In, in_map.
      by apply list_elem_of_In.
    + exfalso. apply Hnotin. rewrite <- Hf. apply list_elem_of_In, in_map.
      by apply list_elem_of_In.
    + by apply IH.
Qed.

(** The roles selected by the guard are the roles of the membership rows of
    (U, O) whose organization row exists. *)
Lemma select_roles_elem (db : Database) (U O : Z) (k : string) :
  k ∈ select_roles db U O
  ↔ ∃ m, m ∈ userOrganizations db ∧ is_membership U O m
         ∧ UserOrganization.role m = k
         ∧ Exists (λ o, Organization.id o = UserOrganization.organizationId m)
                  (organizations db).
Proof.
  unfold select_roles, memberships_with_org.
  rewrite list_elem_of_In, in_map_iff. split.
  - intros ([m o] & <- & Hin). apply list_elem_of_In in Hin.
    apply list_elem_of_filter in Hin as [Hm Hin]. simpl in *.
    apply list_elem_of_In, in_flat_map in Hin as (m' & Hm' & Hin).
    apply in_map_iff in Hin as (o' & [= -> ->] & Ho).
    apply list_elem_of_In, list_elem_of_filter in Ho as [Hid Ho].
    exists m. split; [by apply list_elem_of_In|]. do 2 (split; [done|]).
    apply Exists_exists. eauto.
  - intros (m & Hin & Hm & <- & Hex). apply Exists_exists in Hex as (o & Ho & Hid).
    exists (m, o). split; [done|].
    apply list_elem_of_In, list_elem_of_filter. split; [done|].
    apply list_elem_of_In, in_flat_map. exists m. split; [by apply list_elem_of_In|].
    apply in_map, list_elem_of_In, list_elem_of_filter. done.
Qed.

Lemma select_roles_fk (db : Database) (U O : Z) (k : string) :
  membership_org_fk db →
  k ∈ select_roles db U O
  ↔ ∃ m, m ∈ userOrganizations db ∧ is_membership U O m
         ∧ UserOrganization.role m = k.
Proof.
  intros Hfk. rewrite select_roles_elem. split.
  - intros (m & ? & ? & ? & _). eauto.
  - intros (m & Hin & ? & ?). exists m. do 3 (split; [done|]).
    unfold membership_org_fk in Hfk. rewrite Forall_forall in Hfk. by apply Hfk.
Qed.

Lemma membership_unique (db : Database) (U O : Z) (m1 m2 : UserOrganization.t) :
  uniq_user_org db →
  m1 ∈ userOrganizations db → is_membership U O m1 →
  m2 ∈ userOrganizations db → is_membership U O m2 →
  m1 = m2.
Proof.
  intros Hu H1 [Ho1 Hu1] H2 [Ho2 Hu2].
  eapply NoDup_map_inj; [exact Hu|done|done|]. simpl. congruence.
Qed.

(** For an established caller, the guard is a case analysis on the selected
    roles. *)
Lemma assertRole_caller session db U O requiredRoles :
  caller_is session U →
  assertRole session db O requiredRoles
  = match select_roles db U O with
    | [] => throw Forbidden_NotAMember
    | userRole :: _ =>
        if existsb (λ role, hasMinimumRole userRole (Role_key role)) requiredRoles
        then ret (userRole, O)
        else throw (Forbidden_RequiresRoles (map Role_key requiredRoles))
    end.
Proof.
  intros [He Hp]. unfold assertRole. rewrite He, Hp. simpl.
  destruct (select_roles db U O) as [|k ks]; simpl; [done|].
  by destruct (existsb _ _).
Qed.

Lemma existsb_satisfies_some k requiredRoles :
  existsb (λ role, hasMinimumRole k (Role_key role)) requiredRoles = true
  ↔ satisfies_some k requiredRoles.
Proof.
  rewrite existsb_exists. unfold satisfies_some.
  split; intros (r & Hin & Hr); exists r; split; try done; by apply list_elem_of_In.
Qed.

Lemma existsb_satisfies_none k requiredRoles :
  existsb (λ role, hasMinimumRole k (Role_key role)) requiredRoles = false
  ↔ satisfies_none k requiredRoles.
Proof.
  rewrite <- not_true_iff_false, existsb_satisfies_some.
  unfold satisfies_some, satisfies_none. split.
  - intros Hn r Hin. destruct (hasMinimumRole k (Role_key r)) eqn:E; [|done].
    exfalso. eauto.
  - intros Hall (r & Hin & Hr). rewrite Hall in Hr; done.
Qed.

Lemma select_roles_nil (db : Database) (U O : Z) :
  membership_org_fk db →
  select_roles db U O = [] → ¬ has_membership db U O.
Proof.
  intros Hfk E (m & Hin & Hm).
  assert (UserOrganization.role m ∈ select_roles db U O) as Hk
    by (apply select_roles_fk; eauto).
  rewrite E in Hk. by apply elem_of_nil in Hk.
Qed.

Lemma select_roles_head (db : Database) (U O : Z) (k : string) (ks : list string) :
  uniq_user_org db → membership_org_fk db →
  select_roles db U O = k :: ks →
  ∃ m, m ∈ userOrganizations db ∧ is_membership U O m
       ∧ UserOrganization.role m = k
       ∧ ∀ m', m' ∈ userOrganizations db → is_membership U O m' → m' = m.
Proof.
  intros Hu Hfk E.
  assert (k ∈ select_roles db U O) as Hk by (rewrite E; apply elem_of_cons; auto).
  apply select_roles_fk in Hk as (m & Hin & Hm & Hr); [|done].
  exists m. do 3 (split; [done|]).
  intros m' Hin' Hm'. by eapply membership_unique.
Qed.

(** C2: without a session e-mail the guard fails with the unauthorized
    error.  For an established caller U and an organization O, both ids of
    the range of the integer columns, on a database that satisfies the
    declared unique and foreign-key constraints of the membership table, the
    guard fails with "not a member" exactly when no Membership row exists for
    (U, O), fails with "requires one of these roles" exactly when the
    Membership row exists and its role satisfies none of the required roles,
    and returns the role of the row with the organization id exactly when the
    role satisfies at least one of them; these are the only outcomes. *)
Theorem assertRole_outcomes (session : option Session.t) (db : Database)
    (U O : Z) (requiredRoles : list Role) :
  uniq_user_org db → membership_org_fk db → int4 U → int4 O →
  (JS.truthy_str (session_user_email session) = false →
   assertRole session db O requiredRoles = throw Unauthorized_NoSessionFound)
  ∧ (caller_is session U →
     (assertRole session db O requiredRoles = throw Forbidden_NotAMember
      ↔ ¬ has_membership db U O)
     ∧ (assertRole session db O requiredRoles
        = throw (Forbidden_RequiresRoles (map Role_key requiredRoles))
        ↔ ∃ m, m ∈ userOrganizations db ∧ is_membership U O m
               ∧ satisfies_none (UserOrganization.role m) requiredRoles)
     ∧ (∀ role, assertRole session db O requiredRoles = ret (role, O)
        ↔ ∃ m, m ∈ userOrganizations db ∧ is_membership U O m
               ∧ UserOrganization.role m = role
               ∧ satisfies_some role requiredRoles)
     ∧ (assertRole session db O requiredRoles = throw Forbidden_NotAMember
        ∨ assertRole session db O requiredRoles
          = throw (Forbidden_RequiresRoles (map Role_key requiredRoles))
        ∨ ∃ role, assertRole session db O requiredRoles = ret (role, O))).
Proof.
  intros Hu Hfk _ _. split.
  { intros He. unfold assertRole. by rewrite He. }
  intros Hc. rewrite (assertRole_caller _ _ U _ _ Hc).
  destruct (select_roles db U O) as [|k ks] eqn:E.
  - pose proof (select_roles_nil _ _ _ Hfk E) as Hno.
    repeat split; try done; auto.
    + intros (m & ? & ? & _). exfalso. apply Hno. by exists m.
    + intros (m & ? & ? & _). exfalso. apply Hno. by exists m.
  - destruct (select_roles_head _ _ _ _ _ Hu Hfk E) as (m & Hin & Hm & Hr & Huniq).
    assert (has_membership db U O) as Hhas by (by exists m).
    destruct (existsb _ requiredRoles) eqn:Eb.
    + apply existsb_satisfies_some in Eb as Hsome.
      split; [split; [done | by intros []]|].
      split.
      { split; [done|]. intros (m' & Hin' & Hm' & Hnone).
        rewrite (Huniq m' Hin' Hm'), Hr in Hnone.
        apply existsb_satisfies_none in Hnone. congruence. }
      split; [|right; right; by exists k].
      intros role. split.
      * intros [= <-]. exists m. by rewrite Hr.
      * intros (m' & Hin' & Hm' & <- & _). by rewrite (Huniq m' Hin' Hm'), Hr.
    + apply existsb_satisfies_none in Eb as Hnone.
      split; [split; [done | by intros []]|].
      split.
      { split; [|done]. intros _. exists m. by rewrite Hr. }
      split; [|right; by left].
      intros role. split; [done|].
      intros (m' & Hin' & Hm' & <- & Hsome).
      rewrite (Huniq m' Hin' Hm'), Hr in Hsome.
      apply existsb_satisfies_some in Hsome. congruence.
Qed.

Lemma db0_constraints : uniq_user_org db0 ∧ membership_org_fk db0 ∧ roles_valid db0.
Proof.
  split; [|split].
  - unfold uniq_user_org. simpl. apply NoDup_singleton.
  - unfold membership_org_fk. simpl. repeat constructor.
  - unfold roles_valid. simpl. repeat constructor. by exists 1.
Defined.

Lemma caller_is_session7 : caller_is session7 7.
Proof. split; reflexivity. Defined.

Lemma db0_membership_7_1 : has_membership db0 7 1.
Proof. exists membership_7_1. split; [apply list_elem_of_here | by split]. Defined.

Lemma db0_no_membership_7_2 : ¬ has_membership db0 7 2.
Proof.
  intros (m & Hin & Ho & _). simpl in Hin.
  apply list_elem_of_singleton in Hin. subst m. simpl in Ho. lia.
Defined.

(** The scenario of the specification: org 1 has Membership(user 7, member),
    org 2 has none for user 7. *)
Lemma assertRole_scenario :
  assertRole session7 db0 2 [member] = throw Forbidden_NotAMember
  ∧ assertRole session7 db0 1 [admin; owner]
    = throw (Forbidden_RequiresRoles ["admin"; "owner"])
  ∧ assertRole session7 db0 1 [member] = ret ("member", 1).
Proof.
  destruct db0_constraints as (Hu & Hfk & _).
  assert (int4 7 ∧ int4 1 ∧ int4 2) as (H7 & H1 & H2) by (unfold int4; lia).
  split; [|split].
  - apply (assertRole_outcomes session7 db0 7 2 [member] Hu Hfk H7 H2);
      [exact caller_is_session7 | exact db0_no_membership_7_2].
  - apply (assertRole_outcomes session7 db0 7 1 [admin; owner] Hu Hfk H7 H1);
      [exact caller_is_session7|].
    exists membership_7_1. split; [apply list_elem_of_here|]. split; [by split|].
    intros r Hr. simpl.
    apply elem_of_cons in Hr as [->|Hr]; [reflexivity|].
    apply list_elem_of_singleton in Hr as ->. reflexivity.
  - apply (assertRole_outcomes session7 db0 7 1 [member] Hu Hfk H7 H1);
      [exact caller_is_session7|].
    exists membership_7_1. split; [apply list_elem_of_here|]. split; [by split|].
    split; [reflexivity|]. exists member. split; [apply list_elem_of_here | reflexivity].
Defined.

(** ** Gateway construction *)

Lemma create_caller session db U O id :
  session_user_id session = Some id → id ≠ "" → JS.parseInt id None = Num U →
  OrgDb.create session db O
  = match filter (is_membership U O) (userOrganizations db) with
    | [] => throw Forbidden_NotAMember
    | _ :: _ => ret (mkOrgDatabase O id)
    end.
Proof.
  intros Hid Hne Hp. unfold OrgDb.create. rewrite Hid.
  destruct id as [|c s]; [done|]. rewrite Hp. simpl.
  by destruct (filter _ _).
Qed.

Lemma create_unauthenticated session db O :
  JS.truthy_str (session_user_id session) = false →
  OrgDb.create session db O = throw Unauthorized_NoValidSession.
Proof.
  unfold OrgDb.create. by destruct (session_user_id session) as [[|c s]|].
Qed.

Lemma filter_membership_nil db U O :
  filter (is_membership U O) (userOrganizations db) = [] ↔ ¬ has_membership db U O.
Proof.
  unfold has_membership. split.
  - intros E (m & Hin & Hm).
    assert (m ∈ filter (is_membership U O) (userOrganizations db)) as H
      by (by apply list_elem_of_filter).
    rewrite E in H. by apply elem_of_nil in H.
  - intros Hno. destruct (filter _ _) as [|m l] eqn:E; [done|].
    exfalso. apply Hno. exists m.
    assert (m ∈ filter (is_membership U O) (userOrganizations db)) as H
      by (rewrite E; apply list_elem_of_here).
    apply list_elem_of_filter in H as [? ?]. done.
Qed.

Lemma create_member session db U O id :
  session_user_id session = Some id → id ≠ "" → JS.parseInt id None = Num U →
  has_membership db U O →
  OrgDb.create session db O = ret (mkOrgDatabase O id).
Proof.
  intros Hid Hne Hp Hm. rewrite (create_caller _ _ U _ id Hid Hne Hp).
  destruct (filter _ _) eqn:E; [|done]. by apply filter_membership_nil in E.
Qed.

(** When member is among the required roles, the guard of an established
    caller succeeds exactly when a Membership row exists. *)
Lemma assertRole_any_role session db U O requiredRoles :
  member ∈ requiredRoles →
  membership_org_fk db → roles_valid db → caller_is session U →
  (∃ role, assertRole session db O requiredRoles = ret (role, O))
  ↔ has_membership db U O.
Proof.
  intros Hmem Hfk Hrv Hc. rewrite (assertRole_caller _ _ U _ _ Hc).
  destruct (select_roles db U O) as [|k ks] eqn:E.
  - split; [by intros [? ?]|]. intros H. by apply select_roles_nil in E.
  - assert (k ∈ select_roles db U O) as Hk by (rewrite E; apply list_elem_of_here).
    apply select_roles_fk in Hk as (m & Hin & Hm & Hr); [|done].
    split; [intros _; by exists m|]. intros _. exists k.
    unfold roles_valid in Hrv. rewrite Forall_forall in Hrv.
    destruct (Hrv m Hin) as [n Hn]. rewrite Hr in Hn.
    assert (existsb (λ role, hasMinimumRole k (Role_key role)) requiredRoles
            = true) as ->; [|done].
    apply existsb_satisfies_some. exists member. split; [done|].
    unfold hasMinimumRole. rewrite Hn. simpl.
    unfold ROLES in Hn. repeat case_match; by simplify_eq.
Qed.




(** ** Isolation of the gateway *)

Section Queries.
Context {A : Type}.

Lemma elem_of_orderBy (col : A → Z) (rows : list A) (x : A) :
  x ∈ OrgDb.orderBy col rows ↔ x ∈ rows.
Proof. unfold OrgDb.orderBy. by rewrite merge_sort_Permutation. Qed.

Lemma length_orderBy (col : A → Z) (rows : list A) :
  length (OrgDb.orderBy col rows) = length rows.
Proof. unfold OrgDb.orderBy. by rewrite merge_sort_Permutation. Qed.

Lemma elem_of_limit_ (n : Z) (rows page : list A) (x : A) :
  OrgDb.limit_ n rows = ret page → x ∈ page → x ∈ rows.
Proof.
  unfold OrgDb.limit_. intros [= <-] Hx. destruct (n <? 0); [done|].
  apply elem_of_take in Hx as (i & Hi & _). by eapply list_elem_of_lookup_2.
Qed.


Lemma and__cons (c : A → bool) (cs : list (A → bool)) (row : A) :
  OrgDb.and_ (c :: cs) row ↔ c row ∧ OrgDb.and_ cs row.
Proof. unfold OrgDb.and_. simpl. by rewrite andb_True. Qed.

Lemma filter_app_other (P : A → Prop) `{∀ x, Decision (P x)}
    (rows new : list A) :
  Forall (λ x, ¬ P x) new → filter P (rows ++ new) = filter P rows.
Proof.
  intros Hnew. rewrite filter_app.
  assert (filter P new = []) as ->; [|by rewrite app_nil_r].
  induction Hnew as [|x l Hx _ IH]; [done|].
  by rewrite filter_cons_False.
Qed.
End Queries.

Lemma getProject_Some g db projectId p :
  OrgDb.getProject g db projectId = Some p →
  p ∈ projects db ∧ Project.id p = projectId ∧ Project.organizationId p = orgId g.
Proof.
  unfold OrgDb.getProject. intros H.
  destruct (filter _ (projects db)) as [|q l] eqn:E; [done|].
  simpl in H. injection H as ->.
  assert (p ∈ filter (λ p, Project.id p = projectId
                           ∧ Project.organizationId p = orgId g) (projects db)) as Hin
    by (rewrite E; apply list_elem_of_here).
  apply list_elem_of_filter in Hin as [[? ?] ?]. done.
Qed.

Lemma getProject_None g db projectId :
  OrgDb.getProject g db projectId = None
  ↔ ¬ ∃ p, p ∈ projects db ∧ Project.id p = projectId
           ∧ Project.organizationId p = orgId g.
Proof.
  unfold OrgDb.getProject. split.
  - intros H (p & Hin & Hid & Ho).
    assert (p ∈ filter (λ p, Project.id p = projectId
                             ∧ Project.organizationId p = orgId g) (projects db)) as Hp
      by (by apply list_elem_of_filter).
    destruct (filter _ (projects db)); [by apply elem_of_nil in Hp | done].
  - intros Hno. destruct (filter _ (projects db)) as [|q l] eqn:E; [done|].
    exfalso. apply Hno. exists q.
    assert (q ∈ filter (λ p, Project.id p = projectId
                             ∧ Project.organizationId p = orgId g) (projects db)) as Hq
      by (rewrite E; apply list_elem_of_here).
    apply list_elem_of_filter in Hq as [[? ?] ?]. done.
Qed.

Lemma getEvents_elem g db projectId limit page e :
  OrgDb.getEvents g db projectId limit = ret page → e ∈ page →
  e ∈ events db ∧ Event.organizationId e = orgId g.
Proof.
  unfold OrgDb.getEvents. intros Hpage He.
  apply (elem_of_limit_ _ _ _ _ Hpage), elem_of_orderBy in He.
  apply list_elem_of_filter in He as [Hc He]. split; [done|].
  simpl in Hc. apply andb_True in Hc as [Hc _]. by apply bool_decide_unpack in Hc.
Qed.

Lemma getKpiSnapshots_elem g db projectId key k :
  k ∈ OrgDb.getKpiSnapshots g db projectId key →
  k ∈ kpiSnapshots db ∧ KpiSnapshot.organizationId k = orgId g.
Proof.
  unfold OrgDb.getKpiSnapshots. intros Hk.
  apply elem_of_orderBy, list_elem_of_filter in Hk as [Hc Hk]. split; [done|].
  simpl in Hc. apply andb_True in Hc as [Hc _]. by apply bool_decide_unpack in Hc.
Qed.

(** What an insert that returns has done, and what one that throws has
    left. *)
Lemma bind_ret_inv {A B} (m : Result A) (k : A → Result B) (b : B) :
  bind m k = ret b → ∃ a, m = ret a ∧ k a = ret b.
Proof. destruct m as [e|a]; [done|]. intros H. by exists a. Qed.

Lemma integer_ret (z z' : Z) : integer z = ret z' → int4 z ∧ z' = z.
Proof. unfold integer. destruct (decide (int4 z)); [|done]. by intros [= <-]. Qed.

Lemma integer_int4 (z : Z) : int4 z → integer z = ret z.
Proof. intros H. unfold integer. by rewrite decide_True. Qed.

Lemma project_row_ret g db random now data row :
  OrgDb.project_row g db random now data = ret row →
  Project.id row = projects_id_seq db
  ∧ Project.organizationId row = orgId g
  ∧ varchar 255 (OrgDb.pd_name data) = ret (Project.name row)
  ∧ varchar 64 (OrgDb.generateApiKey random) = ret (Project.apiKey row)
  ∧ Project.isActive row = true.
Proof.
  unfold OrgDb.project_row. cbv zeta. intros H.
  apply bind_ret_inv in H as (o & Ho & H). apply integer_ret in Ho as [_ ->].
  apply bind_ret_inv in H as (name & Hname & H).
  apply bind_ret_inv in H as (description & _ & H).
  apply bind_ret_inv in H as (apiKey & Hkey & H).
  apply bind_ret_inv in H as (domain & _ & H).
  injection H as <-. done.
Qed.

Lemma createProject_ret g db random now data rows db' :
  OrgDb.createProject g db random now data = (ret rows, db') →
  ∃ row, OrgDb.project_row g db random now data = ret row
         ∧ projects_accepts db row
         ∧ rows = [row]
         ∧ organizations db' = organizations db
         ∧ userOrganizations db' = userOrganizations db
         ∧ projects db' = projects db ++ [row]
         ∧ events db' = events db
         ∧ kpiSnapshots db' = kpiSnapshots db.
Proof.
  unfold OrgDb.createProject.
  destruct (OrgDb.project_row g db random now data) as [e|row]; [done|].
  destruct (bool_decide (projects_accepts db row)) eqn:E; [|done].
  apply bool_decide_eq_true in E. intros [= <- <-]. by exists row.
Qed.

Lemma createProject_throw g db random now data error db' :
  OrgDb.createProject g db random now data = (throw error, db') →
  same_rows db db'.
Proof.
  unfold OrgDb.createProject.
  destruct (OrgDb.project_row g db random now data) as [e|row].
  - by intros [= _ <-].
  - destruct (bool_decide (projects_accepts db row)); [done|]. by intros [= _ <-].
Qed.

Lemma createProject_accepted g db random now data row :
  OrgDb.project_row g db random now data = ret row →
  projects_accepts db row →
  OrgDb.createProject g db random now data
  = (ret [row],
     mkDatabase (organizations db) (userOrganizations db)
                (projects db ++ [row]) (events db) (kpiSnapshots db)
                (projects_id_seq db + 1) (events_id_seq db)
                (kpi_snapshots_id_seq db)).
Proof.
  intros Hrow Hacc. unfold OrgDb.createProject. rewrite Hrow. unfold ret.
  by rewrite (bool_decide_eq_true_2 _ Hacc).
Qed.

Lemma createProject_refused g db random now data row :
  OrgDb.project_row g db random now data = ret row →
  ¬ projects_accepts db row →
  OrgDb.createProject g db random now data
  = (throw constraint_violation,
     mkDatabase (organizations db) (userOrganizations db)
                (projects db) (events db) (kpiSnapshots db)
                (projects_id_seq db + 1) (events_id_seq db)
                (kpi_snapshots_id_seq db)).
Proof.
  intros Hrow Hacc. unfold OrgDb.createProject. rewrite Hrow. unfold ret.
  by rewrite (bool_decide_eq_false_2 _ Hacc).
Qed.

Lemma event_row_ret g db now projectId eventData row :
  OrgDb.event_row g db now projectId eventData = ret row →
  Event.id row = default (events_id_seq db) (OrgDb.ed_id eventData)
  ∧ Event.organizationId row
    = default (orgId g) (OrgDb.ed_organizationId eventData)
  ∧ Event.projectId row = default projectId (OrgDb.ed_projectId eventData)
  ∧ varchar 255 (OrgDb.ed_eventName eventData) = ret (Event.eventName row)
  ∧ Event.timestamp row = default now (OrgDb.ed_timestamp eventData)
  ∧ Event.createdAt row = default now (OrgDb.ed_createdAt eventData).
Proof.
  unfold OrgDb.event_row. intros H.
  apply bind_ret_inv in H as (o & Ho & H). apply integer_ret in Ho as [_ ->].
  apply bind_ret_inv in H as (p & Hp & H). apply integer_ret in Hp as [_ ->].
  apply bind_ret_inv in H as (name & Hname & H).
  apply bind_ret_inv in H as (userId & _ & H).
  apply bind_ret_inv in H as (sessionId & _ & H).
  apply bind_ret_inv in H as (ipAddress & _ & H).
  apply bind_ret_inv in H as (userAgent & _ & H).
  apply bind_ret_inv in H as (id & Hid & H).
  assert (id = OrgDb.ed_id eventData) as ->.
  { destruct (OrgDb.ed_id eventData) as [i|]; cbn in Hid.
    - apply bind_ret_inv in Hid as (i' & Hi & [= <-]).
      apply integer_ret in Hi as [_ ->]. done.
    - by injection Hid as <-. }
  by injection H as <-.
Qed.

Lemma insertEvent_ret g db now projectId eventData rows db' :
  OrgDb.insertEvent g db now projectId eventData = (ret rows, db') →
  int4 projectId ∧ int4 (orgId g)
  ∧ ∃ project row,
      OrgDb.getProject g db projectId = Some project
      ∧ OrgDb.event_row g db now projectId eventData = ret row
      ∧ events_accepts db row
      ∧ rows = [row]
      ∧ organizations db' = organizations db
      ∧ userOrganizations db' = userOrganizations db
      ∧ projects db' = projects db
      ∧ events db' = events db ++ [row]
      ∧ kpiSnapshots db' = kpiSnapshots db.
Proof.
  unfold OrgDb.insertEvent, integer. intros H.
  destruct (decide (int4 projectId)) as [Hp|]; [|done]. cbn [bind ret] in H.
  destruct (decide (int4 (orgId g))) as [Ho|]; [|done]. unfold ret at 1 in H.
  do 2 (split; [done|]).
  destruct (OrgDb.getProject g db projectId) as [project|]; [|done].
  destruct (OrgDb.event_row g db now projectId eventData) as [e|row]; [done|].
  destruct (bool_decide (events_accepts db row)) eqn:E; [|done].
  apply bool_decide_eq_true in E. injection H as <- <-. by exists project, row.
Qed.

Lemma insertEvent_throw g db now projectId eventData error db' :
  OrgDb.insertEvent g db now projectId eventData = (throw error, db') →
  same_rows db db'.
Proof.
  unfold OrgDb.insertEvent.
  destruct (bind _ _) as [e|?]; [by intros [= _ <-]|].
  destruct (OrgDb.getProject g db projectId) as [project|]; [|by intros [= _ <-]].
  destruct (OrgDb.event_row g db now projectId eventData) as [e|row];
    [by intros [= _ <-]|].
  destruct (bool_decide (events_accepts db row)); [done|]. by intros [= _ <-].
Qed.

Lemma insertEvent_accepted g db now projectId eventData project row :
  int4 projectId → int4 (orgId g) →
  OrgDb.getProject g db projectId = Some project →
  OrgDb.event_row g db now projectId eventData = ret row →
  events_accepts db row →
  OrgDb.insertEvent g db now projectId eventData
  = (ret [row],
     mkDatabase (organizations db) (userOrganizations db)
                (projects db) (events db ++ [row]) (kpiSnapshots db)
                (projects_id_seq db) (OrgDb.events_id_seq_after db eventData)
                (kpi_snapshots_id_seq db)).
Proof.
  intros Hp Ho Hproject Hrow Hacc. unfold OrgDb.insertEvent.
  rewrite (integer_int4 _ Hp), (integer_int4 _ Ho). cbn [bind ret].
  rewrite Hproject, Hrow. unfold ret.
  by rewrite (bool_decide_eq_true_2 _ Hacc).
Qed.

(** An insert of rows of the tenant A leaves the rows of every other tenant
    as they were. *)
Lemma tenant_rows_after_project_insert (A B : Z) db db' (new : list Project.t) :
  B ≠ A →
  Forall (λ p, Project.organizationId p = A) new →
  projects db' = projects db ++ new →
  events db' = events db → kpiSnapshots db' = kpiSnapshots db →
  tenant_rows B db' = tenant_rows B db.
Proof.
  intros Hne Hnew Hp He Hk. unfold tenant_rows. rewrite Hp, He, Hk.
  rewrite filter_app_other; [done|].
  eapply Forall_impl; [exact Hnew|]. simpl. intros p Hp' HB. congruence.
Qed.

Lemma tenant_rows_after_event_insert (A B : Z) db db' (new : list Event.t) :
  B ≠ A →
  Forall (λ e, Event.organizationId e = A) new →
  events db' = events db ++ new →
  projects db' = projects db → kpiSnapshots db' = kpiSnapshots db →
  tenant_rows B db' = tenant_rows B db.
Proof.
  intros Hne Hnew He Hp Hk. unfold tenant_rows. rewrite Hp, He, Hk.
  rewrite filter_app_other; [done|].
  eapply Forall_impl; [exact Hnew|]. simpl. intros e He' HB. congruence.
Qed.

Lemma tenant_rows_same_rows (B : Z) db db' :
  same_rows db db' → tenant_rows B db' = tenant_rows B db.
Proof. intros (_ & _ & Hp & He & Hk). unfold tenant_rows. by rewrite Hp, He, Hk. Qed.

(** C1: for a gateway bound to the organization A = [orgId g], [getProjects]
    lists exactly the projects of A; [getProject], [getEvents] and
    [getKpiSnapshots] return only stored rows whose organization id is A,
    for every project id, limit and key; [createProject] appends a row whose
    organization id is A or writes no row, so that the rows of every B
    other than A stay as they are.  [insertEvent] does not keep to A: the
    row carries the organization id that the event data carry, and A only
    when they carry none; the rows of every other B stay as they are for
    event data of the declared fields, and on the concrete database the
    gateway of organization 1, given event data with the key
    [organizationId: 2], writes an event of organization 2. *)
Theorem gateway_isolation (g : OrgDatabase) (db : Database) :
  (∀ p, p ∈ OrgDb.getProjects g db
        ↔ p ∈ projects db ∧ Project.organizationId p = orgId g)
  ∧ (∀ projectId p, OrgDb.getProject g db projectId = Some p →
       p ∈ projects db ∧ Project.organizationId p = orgId g)
  ∧ (∀ projectId limit page e,
       OrgDb.getEvents g db projectId limit = ret page → e ∈ page →
       e ∈ events db ∧ Event.organizationId e = orgId g)
  ∧ (∀ projectId key k, k ∈ OrgDb.getKpiSnapshots g db projectId key →
       k ∈ kpiSnapshots db ∧ KpiSnapshot.organizationId k = orgId g)
  ∧ (∀ random now data rows db',
       OrgDb.createProject g db random now data = (ret rows, db') →
       Forall (λ p, Project.organizationId p = orgId g) rows
       ∧ projects db' = projects db ++ rows
       ∧ events db' = events db ∧ kpiSnapshots db' = kpiSnapshots db
       ∧ ∀ B, B ≠ orgId g → tenant_rows B db' = tenant_rows B db)
  ∧ (∀ random now data error db',
       OrgDb.createProject g db random now data = (throw error, db') →
       ∀ B, tenant_rows B db' = tenant_rows B db)
  ∧ (∀ now projectId eventData rows db',
       OrgDb.insertEvent g db now projectId eventData = (ret rows, db') →
       Forall (λ e, Event.organizationId e
                    = default (orgId g) (OrgDb.ed_organizationId eventData))
              rows
       ∧ events db' = events db ++ rows
       ∧ projects db' = projects db ∧ kpiSnapshots db' = kpiSnapshots db
       ∧ (OrgDb.ed_organizationId eventData = None →
          ∀ B, B ≠ orgId g → tenant_rows B db' = tenant_rows B db))
  ∧ (∀ now projectId eventData error db',
       OrgDb.insertEvent g db now projectId eventData = (throw error, db') →
       ∀ B, tenant_rows B db' = tenant_rows B db)
  ∧ ∃ e db',
      OrgDb.insertEvent gateway1 db0 99 5 event_data_org2 = (ret [e], db')
      ∧ orgId gateway1 = 1
      ∧ Event.organizationId e = 2
      ∧ tenant_rows 2 db'
        = (let '(projects, events, kpiSnapshots) := tenant_rows 2 db0 in
           (projects, events ++ [e], kpiSnapshots)).
Proof.
  split; [|split; [|split; [|split; [|split; [|split; [|split; [|split]]]]]]].
  - intros p. unfold OrgDb.getProjects. rewrite list_elem_of_filter. tauto.
  - intros projectId p H. apply getProject_Some in H. tauto.
  - intros projectId limit page e. apply getEvents_elem.
  - intros projectId key k. apply getKpiSnapshots_elem.
  - intros random now data rows db' H.
    apply createProject_ret in H as (row & Hrow & _ & -> & _ & _ & Hp & He & Hk).
    apply project_row_ret in Hrow as (_ & Ho & _).
    assert (Forall (λ p, Project.organizationId p = orgId g) [row]) as Hnew
      by (by repeat constructor).
    do 4 (split; [done|]).
    intros B HB. by eapply tenant_rows_after_project_insert.
  - intros random now data error db' H B.
    by eapply tenant_rows_same_rows, createProject_throw.
  - intros now projectId eventData rows db' H.
    apply insertEvent_ret
      in H as (_ & _ & project & row & _ & Hrow & _ & -> & _ & _ & Hp & He & Hk).
    apply event_row_ret in Hrow as (_ & Ho & _).
    assert (Forall (λ e, Event.organizationId e
                         = default (orgId g) (OrgDb.ed_organizationId eventData))
                   [row]) as Hnew by (by repeat constructor).
    do 4 (split; [done|]).
    intros Hnone B HB. rewrite Hnone in Hnew.
    by eapply tenant_rows_after_event_insert.
  - intros now projectId eventData error db' H B.
    by eapply tenant_rows_same_rows, insertEvent_throw.
  - eexists _, _. split; [by vm_compute|]. by vm_compute.
Qed.

(** The gateway of organization 1 on the concrete database: the rows of
    organization 2 are there and are never returned. *)
Example gateway1_reads :
  OrgDb.getProjects gateway1 db0 = [project5]
  ∧ OrgDb.getProject gateway1 db0 5 = Some project5
  ∧ OrgDb.getProject gateway1 db0 6 = None
  ∧ OrgDb.getKpiSnapshots gateway1 db0 None None = [kpi_a]
  ∧ OrgDb.getEvents gateway1 db0 None None = ret events_1_to_11
  ∧ OrgDb.getEvents gateway1 db0 (Some 6) None = ret [].
Proof. by vm_compute. Qed.

(** ** Inserting an event *)

(** C5: [insertEvent] fails with "project not found" exactly when the
    parameters of the lookup are ids of the integer range and the org-scoped
    [getProject] yields none, that is when no project with that id belongs
    to the bound organization, whether or not the id exists under another
    organization.  When it inserts, it inserts exactly one event row and
    touches no other table; the row does not always carry the bound
    organization: its organization id and project id are those that the
    event data carry, and the bound organization and the given project only
    when they carry none.  On the concrete database the gateway of
    organization 1, given the project 5 and event data with the key
    [organizationId: 2], inserts an event of organization 2. *)
Theorem insertEvent_outcomes (g : OrgDatabase) (db : Database) (now projectId : Z)
    (eventData : OrgDb.EventData) :
  (fst (OrgDb.insertEvent g db now projectId eventData) = throw ProjectNotFound
   ↔ int4 projectId ∧ int4 (orgId g) ∧ OrgDb.getProject g db projectId = None)
  ∧ (OrgDb.getProject g db projectId = None
     ↔ ¬ ∃ p, p ∈ projects db ∧ Project.id p = projectId
              ∧ Project.organizationId p = orgId g)
  ∧ (∀ rows db',
       OrgDb.insertEvent g db now projectId eventData = (ret rows, db') →
       ∃ e, rows = [e]
            ∧ events db' = events db ++ [e]
            ∧ Event.organizationId e
              = default (orgId g) (OrgDb.ed_organizationId eventData)
            ∧ Event.projectId e
              = default projectId (OrgDb.ed_projectId eventData)
            ∧ (declared_fields eventData →
               Event.organizationId e = orgId g ∧ Event.projectId e = projectId)
            ∧ projects db' = projects db
            ∧ kpiSnapshots db' = kpiSnapshots db
            ∧ organizations db' = organizations db
            ∧ userOrganizations db' = userOrganizations db)
  ∧ (∀ error db',
       OrgDb.insertEvent g db now projectId eventData = (throw error, db') →
       same_rows db db')
  ∧ OrgDb.insertEvent gateway1 db0 99 5 event_data_org2
    = (ret [Event.mk 13 2 5 "page_view" None None None 99 None None 99],
       mkDatabase (organizations db0) (userOrganizations db0) (projects db0)
         (events db0
          ++ [Event.mk 13 2 5 "page_view" None None None 99 None None 99])
         (kpiSnapshots db0) 7 14 3).
Proof.
  split; [|split; [|split; [|split]]].
  - unfold OrgDb.insertEvent, integer.
    destruct (decide (int4 projectId)) as [Hp|Hp]; cbn [bind ret throw fst];
      [|split; [done | tauto]].
    destruct (decide (int4 (orgId g))) as [Ho|Ho]; cbn [fst];
      [|split; [done | tauto]].
    destruct (OrgDb.getProject g db projectId) as [project|]; [|by split].
    split; [|by intros (_ & _ & ?)].
    destruct (OrgDb.event_row g db now projectId eventData) as [e|row] eqn:Erow.
    + cbn [fst]. intros [= ->]. exfalso. clear -Erow.
      unfold OrgDb.event_row, integer, varchar, text, nullable in Erow.
      repeat (case_match; simplify_eq; cbn [bind ret throw] in * ).
    + by destruct (bool_decide (events_accepts db row)).
  - apply getProject_None.
  - intros rows db' H.
    apply insertEvent_ret
      in H as (_ & _ & project & row & _ & Hrow & _ & -> & Hos & Hms & Hp & He & Hk).
    apply event_row_ret in Hrow as (_ & Ho & Hpid & _).
    exists row. do 4 (split; [done|]). split; [|done].
    intros (_ & Hno & Hnp & _). by rewrite Ho, Hpid, Hno, Hnp.
  - intros error db'. apply insertEvent_throw.
  - by vm_compute.
Qed.

(** Project 6 exists, under organization 2: the gateway of organization 1
    refuses it, and accepts its own project 5. *)
Example insertEvent_cross_tenant :
  project6 ∈ projects db0
  ∧ fst (OrgDb.insertEvent gateway1 db0 99 6 no_event_data)
    = throw ProjectNotFound
  ∧ match OrgDb.insertEvent gateway1 db0 99 5 no_event_data with
    | (inr rows, db') =>
        rows = [Event.mk 13 1 5 "page_view" None None None 99 None None 99]
        ∧ events db' = events db0 ++ rows
    | (inl _, _) => False
    end.
Proof. split; [|by vm_compute]. apply list_elem_of_In. simpl. auto. Qed.

(** ** A project id of zero *)

Lemma filter_and__org_events (A : Z) (rows : list Event.t) :
  filter (OrgDb.and_ [λ e, bool_decide (Event.organizationId e = A)]) rows
  = filter (λ e, Event.organizationId e = A) rows.
Proof.
  apply list_filter_iff. intros e. unfold OrgDb.and_. simpl.
  rewrite andb_True, bool_decide_spec. split; [by intros [? _] | by intros ?].
Qed.

Lemma filter_and__org_kpi (A : Z) (rows : list KpiSnapshot.t) :
  filter (OrgDb.and_ [λ k, bool_decide (KpiSnapshot.organizationId k = A)]) rows
  = filter (λ k, KpiSnapshot.organizationId k = A) rows.
Proof.
  apply list_filter_iff. intros e. unfold OrgDb.and_. simpl.
  rewrite andb_True, bool_decide_spec. split; [by intros [? _] | by intros ?].
Qed.

(** C10: with a project id of 0, [getEvents] and [getKpiSnapshots] do what
    they do without a project id: no condition on the project is added, and
    the rows of the bound organization are returned whatever their project
    (for events, in time order up to the limit). *)
Theorem projectId_zero_is_no_filter (g : OrgDatabase) (db : Database)
    (limit : option Z) (key : option string) :
  OrgDb.getEvents g db (Some 0) limit = OrgDb.getEvents g db None limit
  ∧ OrgDb.getKpiSnapshots g db (Some 0) key = OrgDb.getKpiSnapshots g db None key
  ∧ OrgDb.getEvents g db (Some 0) limit
    = OrgDb.limit_ (default 1000 limit)
        (OrgDb.orderBy Event.timestamp
           (filter (λ e, Event.organizationId e = orgId g) (events db)))
  ∧ (∀ k, k ∈ OrgDb.getKpiSnapshots g db (Some 0) None
          ↔ k ∈ kpiSnapshots db ∧ KpiSnapshot.organizationId k = orgId g).
Proof.
  split; [reflexivity|]. split; [reflexivity|]. split.
  - unfold OrgDb.getEvents. cbv zeta.
    rewrite <- filter_and__org_events. reflexivity.
  - intros k. unfold OrgDb.getKpiSnapshots. cbv zeta.
    rewrite elem_of_orderBy.
    change (k ∈ filter (OrgDb.and_
                [λ k, bool_decide (KpiSnapshot.organizationId k = orgId g)])
              (kpiSnapshots db)
            ↔ k ∈ kpiSnapshots db ∧ KpiSnapshot.organizationId k = orgId g).
    rewrite filter_and__org_kpi, list_elem_of_filter. tauto.
Qed.

(** A snapshot of project 5 is returned for the project id 0, and no row is
    looked up under a project 0. *)
Example projectId_zero_example :
  OrgDb.getKpiSnapshots gateway1 db0 (Some 0) None = [kpi_a]
  ∧ OrgDb.getKpiSnapshots gateway1 db0 (Some 5) None = [kpi_a]
  ∧ OrgDb.getKpiSnapshots gateway1 db0 (Some 4) None = []
  ∧ OrgDb.getEvents gateway1 db0 (Some 0) (Some 2)
    = ret [event_at 1 1 5 1; event_at 2 1 5 2].
Proof. by vm_compute. Qed.

(** ** Context extraction *)

Lemma strip_prefix_Some (p s r : string) :
  strip_prefix p s = Some r → s = p +:+ r.
Proof.
  revert s. induction p as [|a p IH]; intros s; simpl.
  - by intros [= ->].
  - destruct s as [|b s]; [done|].
    destruct (Ascii.eqb a b) eqn:E; [|done].
    apply Ascii.eqb_eq in E as ->. intros H. by rewrite (IH _ H).
Qed.

Lemma append_String (c : ascii) (s t : string) :
  String c s +:+ t = String c (s +:+ t).
Proof. reflexivity. Qed.

Lemma decimal_run_split (s : string) : ∃ post, s = decimal_run s +:+ post.
Proof.
  induction s as [|c s [post IH]]; simpl.
  - by exists "".
  - destruct (isDecimalDigit c).
    + exists post. rewrite append_String. by f_equal.
    + by exists (String c s).
Qed.

Lemma decimal_run_idem (s : string) : decimal_run (decimal_run s) = decimal_run s.
Proof.
  induction s as [|c s IH]; simpl; [done|].
  destruct (isDecimalDigit c) eqn:E; simpl; [|done]. by rewrite E, IH.
Qed.

Lemma match_api_org_here_Some (s d : string) :
  match_api_org_here s = Some d →
  d ≠ "" ∧ decimal_run d = d ∧ ∃ post, s = "/api/org/" +:+ d +:+ post.
Proof.
  unfold match_api_org_here.
  destruct (strip_prefix "/api/org/" s) as [rest|] eqn:E; [|done].
  apply strip_prefix_Some in E.
  destruct (decimal_run rest) as [|c ds] eqn:Er; [done|]. intros [= <-].
  split; [done|]. split; [rewrite <- Er; apply decimal_run_idem|].
  destruct (decimal_run_split rest) as [post Hpost]. exists post.
  by rewrite <- Er, <- Hpost.
Qed.

(** The text taken from the path is a non-empty run of decimal digits that
    follows ["/api/org/"] somewhere in the path. *)
Lemma match_api_org_Some (s d : string) :
  match_api_org s = Some d →
  d ≠ "" ∧ decimal_run d = d ∧ ∃ pre post, s = pre +:+ "/api/org/" +:+ d +:+ post.
Proof.
  induction s as [|c s IH].
  - cbn. done.
  - cbn [match_api_org]. destruct (match_api_org_here (String c s)) as [d'|] eqn:E.
    + intros [= <-]. apply match_api_org_here_Some in E as (? & ? & post & ->).
      do 2 (split; [done|]). by exists "", post.
    + intros H. apply IH in H as (? & ? & pre & post & ->).
      do 2 (split; [done|]). by exists (String c pre), post.
Qed.

Lemma decimal_digit_char (c : ascii) :
  isDecimalDigit c = true →
  (∀ s, JS.trimStart (String c s) = String c s)
  ∧ (∀ s, JS.stripSign (String c s) = (1, String c s))
  ∧ ∃ v, JS.digitValue c = Some v ∧ 0 ≤ v < 10.
Proof.
  destruct c as [[] [] [] [] [] [] [] []]; intros H; vm_compute in H;
    try discriminate H;
    (split; [reflexivity|]; split; [reflexivity|];
     eexists; split; [reflexivity|]; split; by vm_compute).
Qed.

Lemma mathInt_nonneg (ds : list Z) (acc : Z) :
  0 ≤ acc → Forall (λ v, 0 ≤ v) ds →
  0 ≤ fold_left (λ acc d, acc * 10 + d) ds acc.
Proof.
  revert acc. induction ds as [|v ds IH]; intros acc Hacc Hds; simpl; [done|].
  apply Forall_cons in Hds as [Hv Hds]. apply IH; [lia|done].
Qed.

Lemma digits_nonneg (R : Z) (s : string) : Forall (λ v, 0 ≤ v) (JS.digits R s).
Proof.
  induction s as [|c s IH]; simpl; [constructor|].
  destruct (JS.digitValue c) as [v|] eqn:E; [|constructor].
  destruct (v <? R); [|constructor]. constructor; [|done].
  unfold JS.digitValue in E. repeat case_match; simplify_eq; lia.
Qed.

(** [parseInt] of a non-empty run of decimal digits is a non-negative
    integer. *)
Lemma parseInt_decimal_run (d : string) :
  d ≠ "" → decimal_run d = d → ∃ z, JS.parseInt d (Some 10) = Num z ∧ 0 ≤ z.
Proof.
  destruct d as [|c d]; [done|]. intros _ Hrun. simpl in Hrun.
  destruct (isDecimalDigit c) eqn:Ec; [|done].
  destruct (decimal_digit_char c Ec) as (Hws & Hsign & v & Hv & Hrange).
  unfold JS.parseInt. rewrite Hws, Hsign. simpl.
  rewrite Hv. assert ((v <? 10) = true) as -> by lia.
  eexists. split; [reflexivity|].
  unfold JS.mathInt. simpl.
  pose proof (mathInt_nonneg (JS.digits 10 d) (0 * 10 + v)) as H.
  destruct (fold_left _ _ _) eqn:E; try lia.
  - exfalso. assert (0 ≤ Z.neg p); [|lia]. apply H; [lia | apply digits_nonneg].
Qed.

(** The request of the specification's scenario: the query parameter wins
    over the header, so the result is 99, not the 42 of the header.  And a
    path [/org/<digits>/...] that lacks the [/api] before it gives nothing. *)
Lemma getOrgIdFromRequest_header42_query99 :
  getOrgIdFromRequest req_header42_query99 = Some (Num 99)
  ∧ getOrgIdFromRequest req_header42_query99 ≠ Some (Num 42)
  ∧ getOrgIdFromRequest (NextRequest.mk [] [] "/org/56/projects") = None.
Proof. split; [reflexivity|]. split; [discriminate | reflexivity]. Qed.

(** C6, as the code has it: the sources are tried in the fixed order query
    parameter [orgId], then header [x-org-id], then the path pattern
    [/api/org/<digits>], and the result is [parseInt] of the first source
    that yields a non-empty text; the text taken from the path is a non-empty
    run of decimal digits that follows ["/api/org/"], and reads as a
    non-negative integer; without any source the result is none.  For the
    request with the header [x-org-id: 42] and the query [orgId=99] the
    result is 99. *)
Theorem getOrgIdFromRequest_priority (req : NextRequest.t) :
  let query := nonempty (searchParams_get (NextRequest.searchParams req) "orgId") in
  let header := nonempty (headers_get (NextRequest.headers req) "x-org-id") in
  let path := match_api_org (NextRequest.pathname req) in
  (∀ q, query = Some q →
        getOrgIdFromRequest req = Some (JS.parseInt q (Some 10)))
  ∧ (∀ h, query = None → header = Some h →
          getOrgIdFromRequest req = Some (JS.parseInt h (Some 10)))
  ∧ (∀ d, query = None → header = None → path = Some d →
          getOrgIdFromRequest req = Some (JS.parseInt d (Some 10))
          ∧ (∃ z, JS.parseInt d (Some 10) = Num z ∧ 0 ≤ z)
          ∧ ∃ pre post,
              NextRequest.pathname req = pre +:+ "/api/org/" +:+ d +:+ post)
  ∧ (query = None → header = None → path = None →
     getOrgIdFromRequest req = None)
  ∧ getOrgIdFromRequest req_header42_query99 = Some (Num 99).
Proof.
  intros query header path. unfold getOrgIdFromRequest.
  fold query. fold header. fold path.
  split; [|split; [|split; [|split]]].
  - by intros q ->.
  - by intros h -> ->.
  - intros d -> -> Hd. rewrite Hd. split; [done|].
    apply match_api_org_Some in Hd as (Hne & Hrun & pre & post & Hpath).
    split; [by apply parseInt_decimal_run | by exists pre, post].
  - by intros -> -> ->.
  - reflexivity.
Qed.

(** Each source in turn on concrete requests. *)
Example getOrgIdFromRequest_sources :
  getOrgIdFromRequest (NextRequest.mk [("orgId", "12")] [("X-Org-Id", "34")]
                                      "/api/org/56/projects") = Some (Num 12)
  ∧ getOrgIdFromRequest (NextRequest.mk [("page", "1")] [("X-Org-Id", "34")]
                                        "/api/org/56/projects") = Some (Num 34)
  ∧ getOrgIdFromRequest (NextRequest.mk [("orgId", "")] []
                                        "/api/org/56/projects") = Some (Num 56)
  ∧ getOrgIdFromRequest (NextRequest.mk [] [] "/v1/api/org/56") = Some (Num 56)
  ∧ getOrgIdFromRequest (NextRequest.mk [] [] "/api/projects") = None.
Proof. by vm_compute. Qed.

(** C7: [getOrgIdFromRequest] hands on whatever [parseInt] reads, without the
    validation that [parseOrgId] applies: for the query values "abc", "0" and
    "-5" it returns [NaN], 0 and -5, where [parseOrgId] returns none. *)
Theorem getOrgIdFromRequest_not_validated :
  getOrgIdFromRequest (req_query "abc") = Some NaN
  ∧ getOrgIdFromRequest (req_query "0") = Some (Num 0)
  ∧ getOrgIdFromRequest (req_query "-5") = Some (Num (-5))
  ∧ parseOrgId (Some "abc") = None
  ∧ parseOrgId (Some "0") = None
  ∧ parseOrgId (Some "-5") = None
  ∧ parseOrgId (Some "42") = Some (Num 42).
Proof. by vm_compute. Qed.

(** What the middleware does with such values: [NaN] and 0 pass as a request
    without organization, a negative id goes to the membership check. *)
Example orgMiddleware_unvalidated :
  let token := Some (mkExtendedJWT (Some [1])) in
  orgMiddleware token (req_query "abc") = Next
  ∧ orgMiddleware token (req_query "0") = Next
  ∧ orgMiddleware token (req_query "-5") = Forbidden403
  ∧ orgMiddleware token (req_query "1") = NextWithOrgHeader (Num 1)
  ∧ orgMiddleware token (req_query "2") = Forbidden403.
Proof. by vm_compute. Qed.

(** The sibling [parseOrgId] returns a positive integer or none. *)
Lemma parseOrgId_valid (value : option string) (n : number) :
  parseOrgId value = Some n → ∃ z, n = Num z ∧ 0 < z.
Proof.
  unfold parseOrgId. destruct (nonempty value) as [v|]; [|done].
  destruct (JS.parseInt v (Some 10)) as [|z] eqn:E; simpl; [done|].
  destruct (0 <? z) eqn:Ez; [|done]. intros [= <-]. exists z. split; [done|lia].
Qed.

(** ** Dashboard aggregation *)

#[local] Instance col_le_total {A} (col : A → Z) : Total (OrgDb.col_le col).
Proof. intros a b. unfold OrgDb.col_le. lia. Qed.

(** The order of [orderBy] is ascending. *)
Lemma orderBy_sorted {A} (col : A → Z) (rows : list A) :
  Sorted (OrgDb.col_le col) (OrgDb.orderBy col rows).
Proof. unfold OrgDb.orderBy. apply Sorted_merge_sort, _. Qed.



(** C8: on the concrete database, where organization 1 has eleven events at
    the times 1 to 11, the dashboard of a member succeeds; its page of events
    holds the ten events of the times 1 to 10, the oldest ones, and not the
    most recent event (time 11); [totalEvents] is 10, the length of the page,
    while the organization has eleven events; [totalProjects] and
    [activeProjects] are both 1. *)
Theorem getOrgDashboard_page_is_oldest :
  ∃ data, getOrgDashboard session7 db0 1 = Success data
    ∧ d_recentEvents data = take 10 events_1_to_11
    ∧ map Event.timestamp (d_recentEvents data) = [1; 2; 3; 4; 5; 6; 7; 8; 9; 10]
    ∧ last (filter (λ e, Event.organizationId e = 1) (events db0))
      = Some (event_at 11 1 5 11)
    ∧ length (filter (λ e, Event.organizationId e = 1) (events db0)) = 11%nat
    ∧ d_metrics data = mkMetrics 1 1 10
    ∧ d_projects data = [project5]
    ∧ d_kpiSnapshots data = [kpi_a].
Proof. eexists. split; [by vm_compute|]. by vm_compute. Qed.

(** ** KPI snapshots *)

Section Upsert.
Variables (now organizationId : Z) (projectId : option Z) (key : string).
Variables (periodStart periodEnd value : Z) (metadata : option string).

Local Abbreviation tuple := (organizationId, projectId, key, periodStart).
Local Abbreviation replace :=
  (replace_snapshot now organizationId projectId key periodStart periodEnd
                    value metadata).

Lemma replace_key (k : KpiSnapshot.t) : kpi_key (replace k) = kpi_key k.
Proof. unfold replace_snapshot. by destruct (decide _). Qed.

Lemma replace_value (k : KpiSnapshot.t) :
  kpi_key k = tuple → KpiSnapshot.value (replace k) = value.
Proof. intros H. unfold replace_snapshot. by rewrite decide_True. Qed.

Lemma replace_other (k : KpiSnapshot.t) : kpi_key k ≠ tuple → replace k = k.
Proof. intros H. unfold replace_snapshot. by rewrite decide_False. Qed.

Lemma map_replace_keys (rows : list KpiSnapshot.t) :
  map kpi_key (map replace rows) = map kpi_key rows.
Proof.
  induction rows as [|k rows IH]; simpl; [done|]. by rewrite replace_key, IH.
Qed.

Lemma filter_map_replace (t : Z * option Z * string * Z)
    (rows : list KpiSnapshot.t) :
  filter (λ k, kpi_key k = t) (map replace rows)
  = map replace (filter (λ k, kpi_key k = t) rows).
Proof.
  induction rows as [|k rows IH]; simpl; [done|].
  destruct (decide (kpi_key k = t)) as [Hk|Hk].
  - rewrite !filter_cons_True; [|done|by rewrite replace_key].
    simpl. by rewrite IH.
  - rewrite !filter_cons_False; [done|done|by rewrite replace_key].
Qed.

Lemma map_replace_filter_other (t : Z * option Z * string * Z)
    (rows : list KpiSnapshot.t) :
  t ≠ tuple →
  map replace (filter (λ k, kpi_key k = t) rows)
  = filter (λ k, kpi_key k = t) rows.
Proof.
  intros Ht. induction rows as [|k rows IH]; [done|].
  destruct (decide (kpi_key k = t)) as [Hk|Hk].
  - rewrite filter_cons_True by done. simpl.
    rewrite IH, replace_other; [done|congruence].
  - by rewrite filter_cons_False.
Qed.

(** Under the unique key, the rows that carry a given tuple are at most
    one. *)
Lemma uniquely_keyed_filter (t : Z * option Z * string * Z)
    (rows : list KpiSnapshot.t) :
  uniquely_keyed rows →
  filter (λ k, kpi_key k = t) rows = []
  ∨ ∃ k, filter (λ k, kpi_key k = t) rows = [k].
Proof.
  unfold uniquely_keyed. induction rows as [|k rows IH]; simpl; intros Hnd.
  - by left.
  - apply NoDup_cons in Hnd as [Hnotin Hnd].
    destruct (decide (kpi_key k = t)) as [Hk|Hk].
    + right. exists k. rewrite filter_cons_True; [|done]. f_equal.
      destruct (filter (λ k, kpi_key k = t) rows) as [|k' l] eqn:E; [done|].
      exfalso. apply Hnotin.
      assert (k' ∈ filter (λ k, kpi_key k = t) rows) as Hk'
        by (rewrite E; apply list_elem_of_here).
      apply list_elem_of_filter in Hk' as [Hkey Hin].
      rewrite Hk, <- Hkey. apply list_elem_of_In, in_map.
      by apply list_elem_of_In.
    + rewrite filter_cons_False; [|done]. by apply IH.
Qed.

Lemma filter_nil_not_Exists (t : Z * option Z * string * Z)
    (rows : list KpiSnapshot.t) :
  filter (λ k, kpi_key k = t) rows = [] ↔ ¬ Exists (λ k, kpi_key k = t) rows.
Proof.
  rewrite Exists_exists. split.
  - intros E (k & Hin & Hk).
    assert (k ∈ filter (λ k, kpi_key k = t) rows) as H
      by (by apply list_elem_of_filter).
    rewrite E in H. by apply elem_of_nil in H.
  - intros Hno. destruct (filter _ rows) as [|k l] eqn:E; [done|].
    exfalso. apply Hno. exists k.
    assert (k ∈ filter (λ k, kpi_key k = t) rows) as H
      by (rewrite E; apply list_elem_of_here).
    apply list_elem_of_filter in H as [? ?]. done.
Qed.

(** One write: afterwards exactly one row carries the tuple, it holds the
    written value, the key stays unique, and the rows under other tuples
    are the rows there were. *)
Lemma upsertKpiSnapshot_once (db : Database) :
  uniquely_keyed (kpiSnapshots db) →
  let db' := upsertKpiSnapshot db now organizationId projectId key
                               periodStart periodEnd value metadata in
  (∃ k, filter (λ k, kpi_key k = tuple) (kpiSnapshots db') = [k]
        ∧ KpiSnapshot.value k = value)
  ∧ uniquely_keyed (kpiSnapshots db')
  ∧ (∀ t, t ≠ tuple →
          filter (λ k, kpi_key k = t) (kpiSnapshots db')
          = filter (λ k, kpi_key k = t) (kpiSnapshots db)).
Proof.
  intros Hu db'. subst db'. unfold upsertKpiSnapshot. cbv zeta.
  destruct (bool_decide (Exists (λ k, kpi_key k = tuple) (kpiSnapshots db)))
    eqn:Eex.
  - apply bool_decide_eq_true in Eex. cbn [kpiSnapshots].
    split; [|split].
    + rewrite filter_map_replace.
      destruct (uniquely_keyed_filter tuple _ Hu) as [E|[k E]].
      * by apply filter_nil_not_Exists in E.
      * rewrite E. exists (replace k). split; [done|].
        apply replace_value.
        assert (k ∈ filter (λ k, kpi_key k = tuple) (kpiSnapshots db)) as H
          by (rewrite E; apply list_elem_of_here).
        by apply list_elem_of_filter in H as [? ?].
    + unfold uniquely_keyed. by rewrite map_replace_keys.
    + intros t Ht. by rewrite filter_map_replace, map_replace_filter_other.
  - apply bool_decide_eq_false in Eex. cbn [kpiSnapshots].
    apply filter_nil_not_Exists in Eex as Enil.
    split; [|split].
    + rewrite filter_app, Enil. rewrite filter_cons_True; [|done].
      eexists. split; [reflexivity|done].
    + unfold uniquely_keyed. rewrite map_app. simpl.
      apply NoDup_app. split; [done|]. split; [|apply NoDup_singleton].
      intros t Ht Ht'. apply list_elem_of_singleton in Ht'. subst t.
      apply Eex, Exists_exists.
      apply list_elem_of_In, in_map_iff in Ht as (k & Hk & Hin).
      exists k. split; [by apply list_elem_of_In | done].
    + intros t Ht. rewrite filter_app, filter_cons_False, filter_nil, app_nil_r;
        [done|]. intros Hk. apply Ht. by rewrite <- Hk.
Qed.
End Upsert.

(** C9: two writes of a KPI snapshot under the same (organization, project,
    key, period start), with whatever values, leave exactly one row under
    that tuple, and the row holds the second value; the key stays unique and
    the rows under other tuples are untouched. *)
Theorem upsertKpiSnapshot_twice (db : Database) (organizationId : Z)
    (projectId : option Z) (key : string) (periodStart : Z)
    (now1 end1 value1 : Z) (metadata1 : option string)
    (now2 end2 value2 : Z) (metadata2 : option string) :
  uniquely_keyed (kpiSnapshots db) →
  let db1 := upsertKpiSnapshot db now1 organizationId projectId key
                               periodStart end1 value1 metadata1 in
  let db2 := upsertKpiSnapshot db1 now2 organizationId projectId key
                               periodStart end2 value2 metadata2 in
  (∃ k, filter (λ k, kpi_key k = (organizationId, projectId, key, periodStart))
               (kpiSnapshots db2) = [k]
        ∧ KpiSnapshot.value k = value2)
  ∧ uniquely_keyed (kpiSnapshots db2)
  ∧ (∀ t, t ≠ (organizationId, projectId, key, periodStart) →
          filter (λ k, kpi_key k = t) (kpiSnapshots db2)
          = filter (λ k, kpi_key k = t) (kpiSnapshots db)).
Proof.
  intros Hu db1 db2.
  destruct (upsertKpiSnapshot_once now1 organizationId projectId key periodStart
              end1 value1 metadata1 db Hu) as (_ & Hu1 & Hother1).
  destruct (upsertKpiSnapshot_once now2 organizationId projectId key periodStart
              end2 value2 metadata2 db1 Hu1) as (Hone & Hu2 & Hother2).
  split; [done|]. split; [done|].
  intros t Ht. subst db2. rewrite Hother2, Hother1; done.
Qed.

(** The scenario of the specification (org 1, project 5, daily_page_views,
    one period), on a table that is empty and on a table that already holds
    a row for the tuple. *)
Lemma upsertKpiSnapshot_scenario :
  (∃ k, filter (λ k, kpi_key k = (1, Some 5, "daily_page_views", 100))
          (kpiSnapshots
             (upsertKpiSnapshot
                (upsertKpiSnapshot db0 10 1 (Some 5) "daily_page_views" 100 200 50 None)
                20 1 (Some 5) "daily_page_views" 100 200 60 None)) = [k]
        ∧ KpiSnapshot.value k = 60).
Proof.
  apply (upsertKpiSnapshot_twice db0 1 (Some 5) "daily_page_views" 100
           10 200 50 None 20 200 60 None).
  unfold uniquely_keyed. apply (bool_decide_unpack _). by vm_compute.
Defined.

(** * Further properties of the code *)

(** ** Reads of the gateway: selection, order and cap *)

#[local] Instance col_le_trans {A} (col : A → Z) : Transitive (OrgDb.col_le col).
Proof. intros a b c. unfold OrgDb.col_le. lia. Qed.

Lemma orderBy_strongly_sorted {A} (col : A → Z) (rows : list A) :
  StronglySorted (OrgDb.col_le col) (OrgDb.orderBy col rows).
Proof. unfold OrgDb.orderBy. apply StronglySorted_merge_sort; apply _. Qed.

Lemma orderBy_Permutation {A} (col : A → Z) (rows : list A) :
  OrgDb.orderBy col rows ≡ₚ rows.
Proof. unfold OrgDb.orderBy. apply merge_sort_Permutation. Qed.

Lemma StronglySorted_app_cross {A} (R : relation A) (l1 l2 : list A) :
  StronglySorted R (l1 ++ l2) →
  StronglySorted R l1 ∧ ∀ x y, x ∈ l1 → y ∈ l2 → R x y.
Proof.
  induction l1 as [|a l1 IH]; simpl; intros Hs.
  - split; [constructor|]. intros x y Hx. by apply elem_of_nil in Hx.
  - apply StronglySorted_inv in Hs as [Hs Ha]. destruct (IH Hs) as [Hs1 Hcross].
    split.
    + constructor; [done|]. by apply Forall_app in Ha as [Ha1 _].
    + intros x y Hx Hy. apply elem_of_cons in Hx as [->|Hx]; [|by apply Hcross].
      rewrite Forall_forall in Ha. apply Ha. apply elem_of_app. by right.
Qed.

Lemma getEvents_filter g db projectId :
  filter (OrgDb.and_
            ([λ e, bool_decide (Event.organizationId e = orgId g)]
             ++ match OrgDb.given_id projectId with
                | Some p => [λ e, bool_decide (Event.projectId e = p)]
                | None => []
                end)) (events db)
  = filter (event_selected g projectId) (events db).
Proof.
  apply list_filter_iff. intros e. unfold event_selected, OrgDb.and_.
  destruct (OrgDb.given_id projectId); simpl;
    rewrite ?andb_True, ?bool_decide_spec; cbn [Is_true]; tauto.
Qed.

Lemma getKpiSnapshots_filter g db projectId key :
  filter (OrgDb.and_
            ([λ k, bool_decide (KpiSnapshot.organizationId k = orgId g)]
             ++ match OrgDb.given_id projectId with
                | Some p => [λ k, bool_decide (KpiSnapshot.projectId k = Some p)]
                | None => []
                end
             ++ match OrgDb.given_key key with
                | Some key => [λ k, bool_decide (KpiSnapshot.key k = key)]
                | None => []
                end)) (kpiSnapshots db)
  = filter (kpi_selected g projectId key) (kpiSnapshots db).
Proof.
  apply list_filter_iff. intros k. unfold kpi_selected, OrgDb.and_.
  destruct (OrgDb.given_id projectId), (OrgDb.given_key key); simpl;
    rewrite ?andb_True, ?bool_decide_spec; cbn [Is_true]; tauto.
Qed.

Lemma getKpiSnapshots_Permutation g db projectId key :
  OrgDb.getKpiSnapshots g db projectId key
  ≡ₚ filter (kpi_selected g projectId key) (kpiSnapshots db).
Proof.
  unfold OrgDb.getKpiSnapshots. cbv zeta.
  rewrite orderBy_Permutation. by rewrite getKpiSnapshots_filter.
Qed.

(** X1: [getKpiSnapshots] returns the selected snapshots, each once and
    none else, in ascending order of the period start: the snapshots of the
    bound organization, of the project when a project id other than 0 is
    given (never an org-level snapshot then), and under the key when a
    non-empty key is given. *)
Theorem getKpiSnapshots_sorted_selection (g : OrgDatabase) (db : Database)
    (projectId : option Z) (key : option string) :
  OrgDb.getKpiSnapshots g db projectId key
    ≡ₚ filter (kpi_selected g projectId key) (kpiSnapshots db)
  ∧ StronglySorted (OrgDb.col_le KpiSnapshot.periodStart)
                   (OrgDb.getKpiSnapshots g db projectId key)
  ∧ (∀ p k, projectId = Some p → p ≠ 0 →
            k ∈ OrgDb.getKpiSnapshots g db projectId key →
            KpiSnapshot.projectId k = Some p)
  ∧ (∀ c s k, key = Some (String c s) →
              k ∈ OrgDb.getKpiSnapshots g db projectId key →
              KpiSnapshot.key k = String c s).
Proof.
  pose proof (getKpiSnapshots_Permutation g db projectId key) as Hperm.
  split; [done|]. split; [apply orderBy_strongly_sorted|]. split.
  - intros p k -> Hp Hk. rewrite Hperm in Hk.
    apply list_elem_of_filter in Hk as [(_ & Hsel & _) _].
    unfold OrgDb.given_id in Hsel. by rewrite (proj2 (Z.eqb_neq p 0) Hp) in Hsel.
  - intros c s k -> Hk. rewrite Hperm in Hk.
    by apply list_elem_of_filter in Hk as [(_ & _ & Hsel) _].
Qed.

(** X2: an empty key is no key: [getKpiSnapshots] with the key [""] returns
    what it returns without a key, the snapshots under every key. *)
Theorem getKpiSnapshots_empty_key (g : OrgDatabase) (db : Database)
    (projectId : option Z) :
  OrgDb.getKpiSnapshots g db projectId (Some "")
  = OrgDb.getKpiSnapshots g db projectId None
  ∧ (∀ k, k ∈ OrgDb.getKpiSnapshots g db None (Some "")
          ↔ k ∈ kpiSnapshots db ∧ KpiSnapshot.organizationId k = orgId g).
Proof.
  split; [reflexivity|]. intros k.
  rewrite (getKpiSnapshots_Permutation g db None (Some "")), list_elem_of_filter. unfold kpi_selected. simpl. tauto.
Qed.

(** X3: with a limit that is not negative (1000 when none is given),
    [getEvents] returns the oldest selected events: the page and the events
    left out make up the selected events, each once; the page is in
    ascending order of the timestamp and no event left out is older than
    one in the page; the page has as many events as the limit allows; and
    with a project id other than 0 every event of the page belongs to that
    project. *)
Theorem getEvents_oldest_page (g : OrgDatabase) (db : Database)
    (projectId : option Z) (limit : option Z) :
  0 ≤ default 1000 limit →
  ∃ page rest,
    OrgDb.getEvents g db projectId limit = ret page
    ∧ page ++ rest ≡ₚ filter (event_selected g projectId) (events db)
    ∧ length page
      = Nat.min (Z.to_nat (default 1000 limit))
                (length (filter (event_selected g projectId) (events db)))
    ∧ StronglySorted (OrgDb.col_le Event.timestamp) page
    ∧ (∀ e e', e ∈ page → e' ∈ rest → Event.timestamp e ≤ Event.timestamp e')
    ∧ (∀ p e, projectId = Some p → p ≠ 0 → e ∈ page → Event.projectId e = p).
Proof.
  intros Hl.
  set (selected := filter (event_selected g projectId) (events db)).
  set (sorted := OrgDb.orderBy Event.timestamp selected).
  set (n := Z.to_nat (default 1000 limit)).
  exists (take n sorted), (drop n sorted).
  assert (StronglySorted (OrgDb.col_le Event.timestamp)
            (take n sorted ++ drop n sorted)) as Hs
    by (rewrite take_drop; apply orderBy_strongly_sorted).
  apply StronglySorted_app_cross in Hs as [Hpage Hcross].
  split.
  { unfold OrgDb.getEvents, OrgDb.limit_. cbv zeta.
    assert ((default 1000 limit <? 0) = false) as -> by lia.
    by rewrite getEvents_filter. }
  split; [rewrite take_drop; apply orderBy_Permutation|].
  split; [rewrite length_take; unfold sorted; by rewrite length_orderBy|].
  split; [done|]. split; [exact Hcross|].
  intros p e -> Hp He.
  assert (e ∈ selected) as Hsel.
  { rewrite <- (orderBy_Permutation Event.timestamp selected).
    fold sorted. rewrite <- (take_drop n sorted). apply elem_of_app. by left. }
  apply list_elem_of_filter in Hsel as [[_ Hsel] _].
  unfold OrgDb.given_id in Hsel. by rewrite (proj2 (Z.eqb_neq p 0) Hp) in Hsel.
Qed.

(** The page of two events of organization 1 on the concrete database. *)
Lemma getEvents_oldest_page_example :
  ∃ page rest,
    OrgDb.getEvents gateway1 db0 (Some 5) (Some 2) = ret page
    ∧ page ++ rest ≡ₚ filter (event_selected gateway1 (Some 5)) (events db0)
    ∧ length page
      = Nat.min (Z.to_nat 2)
                (length (filter (event_selected gateway1 (Some 5)) (events db0)))
    ∧ StronglySorted (OrgDb.col_le Event.timestamp) page
    ∧ (∀ e e', e ∈ page → e' ∈ rest → Event.timestamp e ≤ Event.timestamp e')
    ∧ (∀ p e, Some 5 = Some p → p ≠ 0 → e ∈ page → Event.projectId e = p).
Proof. apply (getEvents_oldest_page gateway1 db0 (Some 5) (Some 2)). simpl. lia. Defined.

(** ** Writes of the gateway and what is read back *)

Lemma filter_Forall_not {A} (P : A → Prop) `{∀ x, Decision (P x)} (l : list A) :
  Forall (λ x, ¬ P x) l → filter P l = [].
Proof.
  induction 1 as [|x l Hx _ IH]; [done|]. by rewrite filter_cons_False.
Qed.

Lemma getProject_app_new g db' (rows : list Project.t) (p : Project.t) pid :
  projects db' = rows ++ [p] →
  Forall (λ q, Project.id q ≠ Project.id p) rows →
  Project.organizationId p = orgId g →
  OrgDb.getProject g db' pid
  = if decide (pid = Project.id p) then Some p
    else head (take 1 (filter (λ q, Project.id q = pid
                                    ∧ Project.organizationId q = orgId g) rows)).
Proof.
  intros Hp Hrows Ho. unfold OrgDb.getProject. rewrite Hp, filter_app.
  destruct (decide (pid = Project.id p)) as [->|Hne].
  - assert (filter (λ q, Project.id q = Project.id p
                         ∧ Project.organizationId q = orgId g) rows = []) as ->.
    { apply filter_Forall_not. eapply Forall_impl; [exact Hrows|].
      simpl. by intros q Hq [? _]. }
    by rewrite filter_cons_True.
  - rewrite (filter_cons_False _ p) by (intros [? _]; congruence).
    by rewrite filter_nil, app_nil_r.
Qed.

(** A text that fits a [varchar(n)] column is stored as it is. *)
Lemma split_characters_fits (n : nat) (s : string) :
  (code_points s ≤ n)%nat → split_characters n s = (s, "").
Proof.
  revert n. induction s as [|c s IH]; intros n; [done|].
  unfold code_points. cbn [characters split_characters]. rewrite filter_cons.
  destruct (isContinuation c) eqn:Ec.
  - rewrite decide_False by done. intros Hn. by rewrite (IH n Hn).
  - rewrite decide_True by done. cbn [length]. intros Hn.
    destruct n as [|n]; [lia|]. rewrite (IH n); [done|]. unfold code_points. lia.
Qed.

Lemma varchar_fits (n : nat) (s : string) : fits n s → varchar n s = ret s.
Proof.
  intros [Hnul Hlen]. unfold varchar, text.
  rewrite (bool_decide_eq_false_2 _ Hnul). cbn [bind ret].
  by rewrite (split_characters_fits n s Hlen).
Qed.

(** X4: [createProject] inserts the project row when every column takes its
    value and the constraints of the table (primary key, unique API key,
    existing organization) accept the row: it then returns that one row,
    which carries the next id of the sequence and the bound organization, is
    active, and holds what the columns store of the given name and of the
    generated key (the name itself when it fits the column); the row is then
    what [getProject] returns for its id and the last of [getProjects], the
    other ids read as before, and a further project with the same generated
    key is refused.  When a constraint refuses the row, or a column its
    value, [createProject] throws and the tables hold the rows they held. *)
Theorem createProject_then_getProject (g : OrgDatabase) (db : Database)
    (random : nat → nat) (now : Z) (data : OrgDb.ProjectData) :
  (∀ row, OrgDb.project_row g db random now data = ret row →
     projects_accepts db row →
     ∃ db',
       OrgDb.createProject g db random now data = (ret [row], db')
       ∧ Project.id row = projects_id_seq db
       ∧ Project.organizationId row = orgId g
       ∧ varchar 255 (OrgDb.pd_name data) = ret (Project.name row)
       ∧ (fits 255 (OrgDb.pd_name data) → Project.name row = OrgDb.pd_name data)
       ∧ varchar 64 (OrgDb.generateApiKey random) = ret (Project.apiKey row)
       ∧ Project.isActive row = true
       ∧ OrgDb.getProject g db' (Project.id row) = Some row
       ∧ OrgDb.getProjects g db' = OrgDb.getProjects g db ++ [row]
       ∧ (∀ pid, pid ≠ Project.id row →
                 OrgDb.getProject g db' pid = OrgDb.getProject g db pid)
       ∧ (∀ g' now' data' row',
            OrgDb.project_row g' db' random now' data' = ret row' →
            ¬ projects_accepts db' row'))
  ∧ (∀ row, OrgDb.project_row g db random now data = ret row →
       ¬ projects_accepts db row →
       ∃ db', OrgDb.createProject g db random now data
              = (throw constraint_violation, db')
              ∧ same_rows db db')
  ∧ (∀ error, OrgDb.project_row g db random now data = throw error →
       OrgDb.createProject g db random now data = (throw error, db)).
Proof.
  split; [|split].
  - intros row Hrow Hacc. rewrite (createProject_accepted _ _ _ _ _ _ Hrow Hacc).
    eexists. split; [reflexivity|].
    destruct (project_row_ret _ _ _ _ _ _ Hrow) as (Hid & Ho & Hname & Hkey & Hact).
    do 3 (split; [done|]).
    split; [intros Hfits; rewrite (varchar_fits _ _ Hfits) in Hname;
            by injection Hname|].
    do 2 (split; [done|]).
    set (db' := mkDatabase _ _ _ _ _ _ _ _).
    destruct Hacc as (_ & Hfresh & _).
    pose proof (getProject_app_new g db' (projects db) row) as Hget.
    split; [|split; [|split]].
    + rewrite Hget by done. by rewrite decide_True.
    + unfold OrgDb.getProjects. simpl. rewrite filter_app.
      by rewrite (filter_cons_True _ row).
    + intros pid Hpid. rewrite Hget by done. by rewrite decide_False.
    + intros g' now' data' row' Hrow' (_ & _ & Huniq & _).
      apply project_row_ret in Hrow' as (_ & _ & _ & Hkey' & _).
      rewrite Hkey in Hkey'. injection Hkey' as Hkey'.
      rewrite Forall_forall in Huniq. apply (Huniq row); [|done].
      simpl. apply elem_of_app. right. apply list_elem_of_here.
  - intros row Hrow Hacc. rewrite (createProject_refused _ _ _ _ _ _ Hrow Hacc).
    eexists. split; [reflexivity|]. by repeat split.
  - intros error Hrow. unfold OrgDb.createProject. by rewrite Hrow.
Qed.

(** The gateway of organization 1 creates the project "blog" on the concrete
    database. *)
Lemma createProject_then_getProject_example :
  ∃ row db',
    OrgDb.project_row gateway1 db0 (λ i, i) 50
      (OrgDb.mkProjectData "blog" None None) = ret row
    ∧ OrgDb.createProject gateway1 db0 (λ i, i) 50
        (OrgDb.mkProjectData "blog" None None) = (ret [row], db')
    ∧ Project.id row = 7
    ∧ Project.name row = "blog"
    ∧ OrgDb.getProject gateway1 db' 7 = Some row
    ∧ OrgDb.getProjects gateway1 db' = [project5; row].
Proof.
  assert (∃ row, OrgDb.project_row gateway1 db0 (λ i, i) 50
                   (OrgDb.mkProjectData "blog" None None) = ret row
                 ∧ projects_accepts db0 row ∧ Project.name row = "blog")
    as (row & Hrow & Hacc & Hname).
  { eexists. split; [by vm_compute|]. split; [|reflexivity].
    apply (bool_decide_unpack _). by vm_compute. }
  destruct (createProject_then_getProject gateway1 db0 (λ i, i) 50
              (OrgDb.mkProjectData "blog" None None)) as [H _].
  destruct (H row Hrow Hacc)
    as (db' & Hcreate & Hid & _ & _ & _ & _ & _ & Hget & Hlist & _).
  exists row, db'. split; [exact Hrow|]. split; [exact Hcreate|].
  change (projects_id_seq db0) with 7 in Hid. rewrite Hid in Hget.
  split; [exact Hid|]. split; [exact Hname|].
  split; [exact Hget | exact Hlist].
Defined.

Lemma getEvents_unfold g db projectId (n : Z) :
  0 ≤ n →
  OrgDb.getEvents g db projectId (Some n)
  = ret (take (Z.to_nat n)
           (OrgDb.orderBy Event.timestamp
              (filter (event_selected g projectId) (events db)))).
Proof.
  intros Hn. unfold OrgDb.getEvents, OrgDb.limit_. cbv zeta.
  change (default 1000 (Some n)) with n.
  assert ((n <? 0) = false) as -> by lia. by rewrite getEvents_filter.
Qed.

Lemma length_filter_le {A} (P : A → Prop) `{∀ x, Decision (P x)} (l : list A) :
  (length (filter P l) ≤ length l)%nat.
Proof.
  induction l as [|x l IH]; [done|]. rewrite filter_cons.
  destruct (decide (P x)); simpl; lia.
Qed.

(** With a limit that covers the table, [getEvents] returns every selected
    event. *)
Lemma getEvents_covering g db projectId (limit : Z) (e : Event.t) :
  Z.of_nat (length (events db)) ≤ limit →
  ∃ page, OrgDb.getEvents g db projectId (Some limit) = ret page
          ∧ (e ∈ page ↔ e ∈ events db ∧ event_selected g projectId e).
Proof.
  intros Hlimit. rewrite getEvents_unfold by lia. eexists. split; [done|].
  rewrite take_ge.
  - rewrite elem_of_orderBy, list_elem_of_filter. tauto.
  - rewrite length_orderBy.
    pose proof (length_filter_le (event_selected g projectId) (events db)). lia.
Qed.

(** X5: an event that [insertEvent] has written carries the id, the
    timestamp, the organization id and the project id of the event data
    where they carry such keys, and otherwise the next id of the sequence,
    the time of the insert, the bound organization and the given project.
    With a limit that covers the table, the gateways that read it back with
    [getEvents] are those of the organization that it carries, under its
    project id as without project id: the gateway that wrote it when the
    event data are of the declared fields, and not that gateway when they
    carry the id of another organization. *)
Theorem insertEvent_then_getEvents (g : OrgDatabase) (db : Database)
    (now projectId : Z) (eventData : OrgDb.EventData)
    (rows : list Event.t) (db' : Database) :
  OrgDb.insertEvent g db now projectId eventData = (ret rows, db') →
  ∃ e, rows = [e]
    ∧ Event.id e = default (events_id_seq db) (OrgDb.ed_id eventData)
    ∧ Event.timestamp e = default now (OrgDb.ed_timestamp eventData)
    ∧ Event.organizationId e
      = default (orgId g) (OrgDb.ed_organizationId eventData)
    ∧ Event.projectId e = default projectId (OrgDb.ed_projectId eventData)
    ∧ (∀ g' limit, Z.of_nat (length (events db')) ≤ limit →
         (∃ page, OrgDb.getEvents g' db' None (Some limit) = ret page
                  ∧ (e ∈ page ↔ orgId g' = Event.organizationId e))
         ∧ (∃ page, OrgDb.getEvents g' db' (Some (Event.projectId e))
                      (Some limit) = ret page
                    ∧ (e ∈ page ↔ orgId g' = Event.organizationId e)))
    ∧ (declared_fields eventData →
       Event.id e = events_id_seq db ∧ Event.timestamp e = now
       ∧ Event.organizationId e = orgId g ∧ Event.projectId e = projectId).
Proof.
  intros H.
  apply insertEvent_ret
    in H as (_ & _ & project & e & _ & Hrow & _ & -> & _ & _ & _ & He & _).
  apply event_row_ret in Hrow as (Hid & Ho & Hpid & _ & Ht & _).
  exists e. do 5 (split; [done|]). split.
  - intros g' limit Hlimit.
    assert (e ∈ events db') as Hin
      by (rewrite He; apply elem_of_app; right; apply list_elem_of_here).
    split.
    + destruct (getEvents_covering g' db' None limit e Hlimit) as (page & Hp & Hiff).
      exists page. split; [done|]. rewrite Hiff. unfold event_selected. simpl.
      split; [by intros (_ & ? & _) | done].
    + destruct (getEvents_covering g' db' (Some (Event.projectId e)) limit e Hlimit)
        as (page & Hp & Hiff).
      exists page. split; [done|]. rewrite Hiff. unfold event_selected.
      split; [by intros (_ & ? & _)|]. intros Horg. do 2 (split; [done|]).
      unfold OrgDb.given_id. by destruct (Event.projectId e =? 0).
  - intros (Hnid & Hno & Hnp & Hnt & _). by rewrite Hid, Ht, Ho, Hpid, Hnid, Hno, Hnp, Hnt.
Qed.

(** On the concrete database: the gateway of organization 1 reads back the
    event that it writes with event data of the declared fields. *)
Lemma insertEvent_then_getEvents_example :
  ∃ rows db' e,
    OrgDb.insertEvent gateway1 db0 99 5 no_event_data = (ret rows, db')
    ∧ rows = [e]
    ∧ Event.id e = 13
    ∧ Event.organizationId e = 1
    ∧ ∃ page, OrgDb.getEvents gateway1 db' None (Some 100) = ret page ∧ e ∈ page.
Proof.
  eexists _, _.
  assert (OrgDb.insertEvent gateway1 db0 99 5 no_event_data
          = (ret [Event.mk 13 1 5 "page_view" None None None 99 None None 99],
             mkDatabase (organizations db0) (userOrganizations db0)
               (projects db0)
               (events db0
                ++ [Event.mk 13 1 5 "page_view" None None None 99 None None 99])
               (kpiSnapshots db0) 7 14 3)) as Hins by (by vm_compute).
  destruct (insertEvent_then_getEvents _ _ _ _ _ _ _ Hins)
    as (e & He & Hid & _ & Ho & _ & Hread & _).
  exists e. split; [exact Hins|]. split; [exact He|].
  split; [exact Hid|]. split; [exact Ho|].
  destruct (Hread gateway1 100) as [(page & Hpage & Hiff) _];
    [by vm_compute|].
  exists page. split; [exact Hpage|]. apply Hiff. by rewrite Ho.
Defined.

(** ** The organization of a gateway *)

Lemma create_ret_inv session db O g :
  OrgDb.create session db O = ret g →
  orgId g = O ∧ ∃ U, has_membership db U O.
Proof.
  unfold OrgDb.create.
  destruct (session_user_id session) as [[|c s]|]; try done.
  destruct (int_param _) as [e|U]; [done|]. cbn [bind].
  destruct (take 1 _) as [|m l] eqn:E; [done|]. intros [= <-]. split; [done|].
  exists U, m.
  assert (m ∈ take 1 (filter (is_membership U O) (userOrganizations db))) as Hm
    by (rewrite E; apply list_elem_of_here).
  apply elem_of_take in Hm as (i & Hi & _).
  apply list_elem_of_lookup_2, list_elem_of_filter in Hi as [? ?]. done.
Qed.

Lemma getOrganization_member g db U :
  membership_org_fk db → has_membership db U (orgId g) →
  ∃ o, OrgDb.getOrganization g db = [o] ∧ Organization.id o = orgId g
       ∧ o ∈ organizations db.
Proof.
  intros Hfk (m & Hin & Ho & _).
  unfold membership_org_fk in Hfk. rewrite Forall_forall in Hfk.
  apply Hfk, Exists_exists in Hin as (o & Hoin & Hid). rewrite Ho in Hid.
  unfold OrgDb.getOrganization.
  assert (o ∈ filter (λ o, Organization.id o = orgId g) (organizations db)) as Hf
    by (by apply list_elem_of_filter).
  destruct (filter _ (organizations db)) as [|o' l] eqn:E;
    [by apply elem_of_nil in Hf|].
  exists o'. split; [done|].
  assert (o' ∈ filter (λ o, Organization.id o = orgId g) (organizations db)) as Hf'
    by (rewrite E; apply list_elem_of_here).
  by apply list_elem_of_filter in Hf'.
Qed.

(** X6: [getOrganization] returns at most one row, and only a stored
    organization whose id is the bound one; for a gateway that
    [OrgDatabase.create] has returned, on a database whose memberships
    reference existing organizations, it returns exactly one row. *)
Theorem getOrganization_of_created (session : option Session.t) (db : Database)
    (O : Z) (g : OrgDatabase) :
  membership_org_fk db →
  OrgDb.create session db O = ret g →
  (∃ o, OrgDb.getOrganization g db = [o] ∧ Organization.id o = O
        ∧ o ∈ organizations db)
  ∧ (∀ g' o, o ∈ OrgDb.getOrganization g' db →
             o ∈ organizations db ∧ Organization.id o = orgId g')
  ∧ (∀ g', (length (OrgDb.getOrganization g' db) ≤ 1)%nat).
Proof.
  intros Hfk Hc. apply create_ret_inv in Hc as [<- [U Hm]].
  split; [by eapply getOrganization_member|]. split.
  - intros g' o Ho. unfold OrgDb.getOrganization in Ho.
    apply elem_of_take in Ho as (i & Hi & _).
    apply list_elem_of_lookup_2, list_elem_of_filter in Hi as [? ?]. done.
  - intros g'. unfold OrgDb.getOrganization. rewrite length_take. lia.
Qed.

Lemma getOrganization_of_created_example :
  (∃ o, OrgDb.getOrganization gateway1 db0 = [o] ∧ Organization.id o = 1
        ∧ o ∈ organizations db0)
  ∧ (∀ g' o, o ∈ OrgDb.getOrganization g' db0 →
             o ∈ organizations db0 ∧ Organization.id o = orgId g')
  ∧ (∀ g', (length (OrgDb.getOrganization g' db0) ≤ 1)%nat).
Proof.
  apply (getOrganization_of_created session7 db0 1 gateway1).
  - exact (proj1 (proj2 db0_constraints)).
  - reflexivity.
Defined.

(** ** The generated key *)

Lemma characters_app (s t : string) :
  characters (s +:+ t) = characters s ++ characters t.
Proof. induction s as [|c s IH]; [done|]. rewrite append_String. simpl. by rewrite IH. Qed.

Lemma charAt_characters (s : string) (i : nat) :
  characters (OrgDb.charAt s i)
  = match characters s !! i with Some c => [c] | None => [] end.
Proof.
  unfold OrgDb.charAt. revert i.
  induction s as [|c s IH]; intros [|i]; simpl; auto.
Qed.

Lemma generateApiKey_loop_characters (n i : nat) (random : nat → nat) (result : string) :
  (∀ j, (i ≤ j < i + n)%nat → (random j < 62)%nat) →
  ∃ suffix,
    characters (OrgDb.generateApiKey_loop n i random result)
    = characters result ++ suffix
    ∧ length suffix = n
    ∧ Forall (λ c, c ∈ characters OrgDb.chars) suffix.
Proof.
  revert i result. induction n as [|n IH]; intros i result Hr; simpl.
  - exists []. by rewrite app_nil_r.
  - destruct (IH (S i) (result +:+ OrgDb.charAt OrgDb.chars (random i)))
      as (suffix & Hs & Hlen & Hall); [intros j Hj; apply Hr; lia|].
    rewrite characters_app, charAt_characters in Hs.
    assert (random i < length (characters OrgDb.chars))%nat as Hi
      by (change (length (characters OrgDb.chars)) with 62%nat; apply Hr; lia).
    apply lookup_lt_is_Some in Hi as [c Hc]. rewrite Hc in Hs.
    exists (c :: suffix). rewrite Hs, <- app_assoc. split; [done|].
    split; [simpl; by rewrite Hlen|]. constructor; [|done].
    by eapply list_elem_of_lookup_2.
Qed.

(** X7: when every draw is an index of the alphabet, as
    [Math.floor(Math.random() * chars.length)] is, the generated key has
    exactly 32 characters and each of them is a letter or digit of
    [chars]. *)
Theorem generateApiKey_32_alphanumeric (random : nat → nat) :
  (∀ i, (i < 32)%nat → (random i < 62)%nat) →
  length (characters (OrgDb.generateApiKey random)) = 32%nat
  ∧ Forall (λ c, c ∈ characters OrgDb.chars)
           (characters (OrgDb.generateApiKey random)).
Proof.
  intros Hr. unfold OrgDb.generateApiKey.
  destruct (generateApiKey_loop_characters 32 0 random "")
    as (suffix & Hs & Hlen & Hall); [intros j Hj; apply Hr; lia|].
  rewrite Hs. simpl. done.
Qed.

Lemma generateApiKey_32_alphanumeric_example :
  length (characters (OrgDb.generateApiKey (λ i, (i + 20)%nat))) = 32%nat
  ∧ Forall (λ c, c ∈ characters OrgDb.chars)
           (characters (OrgDb.generateApiKey (λ i, (i + 20)%nat))).
Proof.
  apply (generateApiKey_32_alphanumeric (λ i, (i + 20)%nat)).
  intros i Hi. cbv beta. lia.
Defined.

(** ** The guard as a boolean, and the list of the caller's organizations *)

Lemma memberships_with_org_elem db m o :
  (m, o) ∈ memberships_with_org db
  ↔ m ∈ userOrganizations db ∧ o ∈ organizations db
    ∧ Organization.id o = UserOrganization.organizationId m.
Proof.
  unfold memberships_with_org. rewrite list_elem_of_In, in_flat_map. split.
  - intros (m' & Hm' & Hin). apply in_map_iff in Hin as (o' & [= -> ->] & Ho).
    apply list_elem_of_In, list_elem_of_filter in Ho as [Hid Ho].
    split; [by apply list_elem_of_In | done].
  - intros (Hm & Ho & Hid). exists m. split; [by apply list_elem_of_In|].
    apply in_map, list_elem_of_In, list_elem_of_filter. done.
Qed.

Lemma caller_is_id session U :
  caller_is session U →
  ∃ id, session_user_id session = Some id ∧ id ≠ ""
        ∧ JS.parseInt id None = Num U.
Proof.
  intros [_ Hp]. unfold parse_user_id in Hp.
  destruct (session_user_id session) as [id|]; [|done].
  exists id. split; [done|]. split; [|done]. by intros ->.
Qed.

Lemma canAccessOrg_member session db U O :
  membership_org_fk db → roles_valid db → caller_is session U →
  canAccessOrg session db O = true ↔ has_membership db U O.
Proof.
  intros Hfk Hrv Hc.
  rewrite <- (assertRole_any_role session db U O [member]
                (list_elem_of_here _ _) Hfk Hrv Hc).
  unfold canAccessOrg. rewrite (assertRole_caller _ _ U _ _ Hc).
  destruct (select_roles db U O) as [|k ks]; [by split; [|intros [? ?]]|].
  destruct (existsb _ _); split; try done; eauto. by intros [? ?].
Qed.

(** X8: on a database whose memberships reference existing organizations
    and carry roles of the table, [canAccessOrg] answers false without a
    session e-mail, and for an established caller answers true exactly when
    a Membership row exists, which is exactly when [OrgDatabase.create]
    returns a gateway. *)
Theorem canAccessOrg_iff_membership (session : option Session.t) (db : Database)
    (U O : Z) :
  membership_org_fk db → roles_valid db →
  (JS.truthy_str (session_user_email session) = false →
   canAccessOrg session db O = false)
  ∧ (caller_is session U →
     (canAccessOrg session db O = true ↔ has_membership db U O)
     ∧ (canAccessOrg session db O = true
        ↔ ∃ g, OrgDb.create session db O = ret g)).
Proof.
  intros Hfk Hrv. split.
  - intros He. unfold canAccessOrg, assertRole. by rewrite He.
  - intros Hc. pose proof (canAccessOrg_member session db U O Hfk Hrv Hc) as Hiff.
    split; [done|]. rewrite Hiff.
    destruct (caller_is_id _ _ Hc) as (id & Hid & Hne & Hp).
    split.
    + intros Hm. exists (mkOrgDatabase O id). by eapply create_member.
    + intros [g Hg]. rewrite (create_caller _ _ U _ id Hid Hne Hp) in Hg.
      destruct (filter (is_membership U O) (userOrganizations db)) as [|m l] eqn:E;
        [done|].
      exists m.
      assert (m ∈ filter (is_membership U O) (userOrganizations db)) as Hm
        by (rewrite E; apply list_elem_of_here).
      by apply list_elem_of_filter in Hm as [? ?].
Qed.

Lemma canAccessOrg_iff_membership_example :
  canAccessOrg session7 db0 1 = true
  ∧ ∃ g, OrgDb.create session7 db0 1 = ret g.
Proof.
  destruct (canAccessOrg_iff_membership session7 db0 7 1
              (proj1 (proj2 db0_constraints)) (proj2 (proj2 db0_constraints)))
    as [_ H].
  destruct (H caller_is_session7) as [H1 H2].
  pose proof (proj2 H1 db0_membership_7_1) as Htrue.
  split; [exact Htrue | exact (proj1 H2 Htrue)].
Defined.

(** X9: for an established caller, on a database whose memberships
    reference existing organizations, [getUserOrganizations] lists an
    organization with a role exactly when the caller has a Membership row
    for it with that role; without a session e-mail the list is empty. *)
Theorem getUserOrganizations_memberships (session : option Session.t)
    (db : Database) (U : Z) :
  membership_org_fk db →
  (JS.truthy_str (session_user_email session) = false →
   getUserOrganizations session db = ret [])
  ∧ (caller_is session U →
     ∃ rows, getUserOrganizations session db = ret rows
       ∧ ∀ O role,
           (∃ r, r ∈ rows ∧ uo_id r = O ∧ uo_role r = role)
           ↔ (∃ m, m ∈ userOrganizations db ∧ is_membership U O m
                   ∧ UserOrganization.role m = role)).
Proof.
  intros Hfk. split.
  - intros He. unfold getUserOrganizations. by rewrite He.
  - intros [He Hp]. unfold getUserOrganizations. rewrite He, Hp. simpl.
    eexists. split; [reflexivity|]. intros O role. split.
    + intros (r & Hr & <- & <-).
      apply list_elem_of_In, in_map_iff in Hr as ([m o] & <- & Hin).
      apply list_elem_of_In, list_elem_of_filter in Hin as [Hu Hin].
      apply memberships_with_org_elem in Hin as (Hm & Ho & Hid).
      simpl in *. exists m. split; [done|]. split; [|done]. by split.
    + intros (m & Hm & [Ho Hu] & <-).
      unfold membership_org_fk in Hfk. rewrite Forall_forall in Hfk.
      destruct (proj1 (Exists_exists _ _) (Hfk m Hm)) as (o & Hoin & Hid).
      exists (mkUserOrgRow (Organization.id o) (Organization.name o)
                (Organization.slug o) (Organization.plan o)
                (UserOrganization.role m)).
      split; [|split; [simpl; congruence | done]].
      apply list_elem_of_In, in_map_iff. exists (m, o). split; [done|].
      apply list_elem_of_In, list_elem_of_filter. split; [done|].
      by apply memberships_with_org_elem.
Qed.

Lemma getUserOrganizations_memberships_example :
  ∃ rows, getUserOrganizations session7 db0 = ret rows
    ∧ ∃ r, r ∈ rows ∧ uo_id r = 1 ∧ uo_role r = "member".
Proof.
  destruct (getUserOrganizations_memberships session7 db0 7
              (proj1 (proj2 db0_constraints))) as [_ H].
  destruct (H caller_is_session7) as (rows & Hrows & Hiff).
  exists rows. split; [exact Hrows|].
  apply Hiff. exists membership_7_1.
  split; [apply list_elem_of_here|]. split; [by split | reflexivity].
Defined.

(** ** Numbers as text *)

Lemma uint_digits_acc (d : Decimal.uint) (acc : positive) :
  fold_left (λ acc d, acc * 10 + d) (uint_digits d) (Z.pos acc)
  = Z.pos (Pos.of_uint_acc d acc).
Proof.
  revert acc. induction d; intros acc; simpl; try done;
    match goal with
    | |- fold_left _ _ ?a = _ =>
        match goal with
        | |- _ = Z.pos (Pos.of_uint_acc _ ?b) =>
            replace a with (Z.pos b) by lia
        end
    end; apply IHd.
Qed.

Lemma mathInt_uint_digits (d : Decimal.uint) :
  JS.mathInt 10 (uint_digits d) = Z.of_uint d.
Proof.
  unfold JS.mathInt, Z.of_uint.
  induction d; simpl; try done; apply uint_digits_acc.
Qed.

Lemma digits_uint_to_string (d : Decimal.uint) (s : string) :
  JS.digits 10 (uint_to_string d +:+ s) = uint_digits d ++ JS.digits 10 s.
Proof.
  induction d; [done|..]; cbn [uint_to_string uint_digits];
    rewrite append_String; cbn; by rewrite IHd.
Qed.

Lemma uint_to_string_head (d : Decimal.uint) :
  d ≠ Decimal.Nil →
  ∃ c rest, uint_to_string d = String c rest ∧ isDecimalDigit c = true.
Proof. destruct d; try done; intros _; simpl; eauto. Qed.

Lemma uint_digits_nonnil (d : Decimal.uint) : d ≠ Decimal.Nil → uint_digits d ≠ [].
Proof. by destruct d. Qed.

Lemma parseInt_digit_start (c : ascii) (rest : string) :
  isDecimalDigit c = true →
  JS.parseInt (String c rest) (Some 10)
  = match JS.digits 10 (String c rest) with
    | [] => NaN
    | ds => Num (1 * JS.mathInt 10 ds)
    end.
Proof.
  intros Hc. destruct (decimal_digit_char c Hc) as (Hws & Hsign & _).
  unfold JS.parseInt. rewrite Hws, Hsign. reflexivity.
Qed.

(** [parseInt] of the digits of [d], followed by a text without leading
    digit, reads the number of [d]. *)
Lemma parseInt_uint_to_string (d : Decimal.uint) (s : string) :
  d ≠ Decimal.Nil → no_leading_digit s →
  JS.parseInt (uint_to_string d +:+ s) (Some 10) = Num (Z.of_uint d)
  ∧ JS.parseInt (String "-" (uint_to_string d +:+ s)) (Some 10)
    = Num (- Z.of_uint d).
Proof.
  intros Hd Hs.
  assert (∀ sign, match JS.digits 10 (uint_to_string d +:+ s) with
                  | [] => NaN
                  | ds => Num (sign * JS.mathInt 10 ds)
                  end = Num (sign * Z.of_uint d)) as Hdigits.
  { intros sign. rewrite digits_uint_to_string, Hs, app_nil_r.
    rewrite <- mathInt_uint_digits.
    pose proof (uint_digits_nonnil d Hd). by destruct (uint_digits d). }
  split.
  - destruct (uint_to_string_head d Hd) as (c & rest & Hc & Hdigit).
    pose proof (parseInt_digit_start c (rest +:+ s) Hdigit) as Hp.
    rewrite <- append_String, <- Hc in Hp. rewrite Hp, Hdigits. f_equal; lia.
  - change (JS.parseInt (String "-" (uint_to_string d +:+ s)) (Some 10))
      with (match JS.digits 10 (uint_to_string d +:+ s) with
            | [] => NaN
            | ds => Num (-1 * JS.mathInt 10 ds)
            end).
    rewrite Hdigits. f_equal; lia.
Qed.

Lemma toString_nonempty (z : Z) : toString (Num z) ≠ "".
Proof.
  unfold toString. destruct z as [|p|p]; simpl; try done.
  destruct (uint_to_string_head _ (DecimalPos.Unsigned.to_uint_nonnil p))
    as (c & rest & -> & _). done.
Qed.

Lemma to_int_nonnil (z : Z) :
  match Z.to_int z with
  | Decimal.Pos d => d ≠ Decimal.Nil
  | Decimal.Neg d => d ≠ Decimal.Nil
  end.
Proof.
  destruct z; simpl; try done; apply DecimalPos.Unsigned.to_uint_nonnil.
Qed.

(** [parseInt], radix 10, reads back an integer from its text, whatever
    follows the digits. *)
Lemma parseInt_toString_app (z : Z) (s : string) :
  no_leading_digit s → JS.parseInt (toString (Num z) +:+ s) (Some 10) = Num z.
Proof.
  intros Hs. pose proof (DecimalZ.of_to z) as Hz. pose proof (to_int_nonnil z) as Hd.
  unfold toString. destruct (Z.to_int z) as [d|d]; simpl in Hz.
  - rewrite (proj1 (parseInt_uint_to_string d s Hd Hs)). by rewrite Hz.
  - rewrite append_String, (proj2 (parseInt_uint_to_string d s Hd Hs)).
    by rewrite Hz.
Qed.

Lemma no_leading_digit_empty : no_leading_digit "".
Proof. reflexivity. Qed.

Lemma append_empty_r (s : string) : s +:+ "" = s.
Proof. induction s as [|c s IH]; [done|]. by rewrite append_String, IH. Qed.

Lemma nonempty_Some (s : string) : s ≠ "" → nonempty (Some s) = Some s.
Proof. by destruct s. Qed.

Lemma append_nonempty (s t : string) : s ≠ "" → s +:+ t ≠ "".
Proof. destruct s; [done|]. by rewrite append_String. Qed.

(** X11: [parseOrgId] accepts the text of a positive safe integer, also
    when other text follows the digits, and returns that integer; for the
    text of zero or of a negative safe integer, for no text and for the
    empty text it returns none. *)
Theorem parseOrgId_of_text (z : Z) (s : string) :
  JS.isSafeInteger z → no_leading_digit s →
  parseOrgId (Some (toString (Num z) +:+ s))
  = (if 0 <? z then Some (Num z) else None)
  ∧ parseOrgId None = None
  ∧ parseOrgId (Some "") = None.
Proof.
  intros _ Hs. split; [|done]. unfold parseOrgId.
  rewrite nonempty_Some by apply append_nonempty, toString_nonempty.
  by rewrite parseInt_toString_app.
Qed.

Lemma parseOrgId_of_text_example :
  parseOrgId (Some (toString (Num 12) +:+ "abc")) = Some (Num 12)
  ∧ parseOrgId None = None
  ∧ parseOrgId (Some "") = None.
Proof.
  apply (parseOrgId_of_text 12 "abc"); [unfold JS.isSafeInteger; lia | reflexivity].
Defined.

(** ** The middleware *)

Lemma toLowerAscii_idem (c : ascii) :
  JS.toLowerAscii (JS.toLowerAscii c) = JS.toLowerAscii c.
Proof. by destruct c as [[] [] [] [] [] [] [] []]. Qed.

Lemma toLowerCase_idem (s : string) :
  JS.toLowerCase (JS.toLowerCase s) = JS.toLowerCase s.
Proof.
  induction s as [|c s IH]; simpl; [done|]. by rewrite toLowerAscii_idem, IH.
Qed.

(** A header that was set is read back with the value that was set. *)
Lemma headers_get_set (headers : list (string * string)) (name value : string) :
  headers_get (headers_set headers name value) name = Some value.
Proof.
  unfold headers_get, headers_set. rewrite filter_app.
  rewrite (filter_Forall_not _ (filter _ headers)).
  - rewrite filter_cons_True by (simpl; apply toLowerCase_idem). done.
  - apply Forall_forall. intros kv Hkv. by apply list_elem_of_filter in Hkv as [? _].
Qed.

Lemma verifyOrgAccess_true token orgId :
  verifyOrgAccess token orgId = true →
  ∃ z, orgId = Num z ∧ z ∈ default [] (jwt_organizations token).
Proof.
  unfold verifyOrgAccess. intros H. apply existsb_exists in H as (z & Hin & Hz).
  apply bool_decide_eq_true in Hz. exists z. split; [done|]. by apply list_elem_of_In.
Qed.

(** X12: when [orgMiddleware] hands a request on with the header set, the
    organization id is a non-zero integer that the token lists and that
    [getOrgIdFromRequest] extracted; the request handed on differs only in
    its headers, and [getOrgIdFromHeaders] reads that same id from them,
    whatever [x-org-id] header the client had sent. *)
Theorem orgMiddleware_forwards_verified (token : option ExtendedJWT)
    (req : NextRequest.t) (orgId : number) :
  orgMiddleware token req = NextWithOrgHeader orgId →
  ∃ t z req',
    token = Some t ∧ orgId = Num z ∧ z ≠ 0
    ∧ z ∈ default [] (jwt_organizations t)
    ∧ getOrgIdFromRequest req = Some (Num z)
    ∧ orgMiddleware_request token req = Some req'
    ∧ NextRequest.searchParams req' = NextRequest.searchParams req
    ∧ NextRequest.pathname req' = NextRequest.pathname req
    ∧ getOrgIdFromHeaders (NextRequest.headers req') = Some (Num z).
Proof.
  intros H. unfold orgMiddleware_request. rewrite H.
  unfold orgMiddleware in H. destruct token as [t|]; [|done].
  destruct (getOrgIdFromRequest req) as [n|]; [|done].
  destruct (JS.truthy n) eqn:Ht; simpl in H; [|done].
  destruct (verifyOrgAccess t n) eqn:Hv; simpl in H; [|done].
  injection H as <-. apply verifyOrgAccess_true in Hv as (z & -> & Hz).
  exists t, z. eexists. split; [done|]. split; [done|].
  split; [simpl in Ht; by destruct (Z.eqb_spec z 0)|].
  do 3 (split; [done|]). do 2 (split; [reflexivity|]).
  cbn [NextRequest.headers]. unfold getOrgIdFromHeaders.
  rewrite headers_get_set, nonempty_Some by apply toString_nonempty.
  f_equal. rewrite <- (append_empty_r (toString (Num z))).
  apply parseInt_toString_app, no_leading_digit_empty.
Qed.

Lemma orgMiddleware_forwards_verified_example :
  ∃ t z req',
    Some token_org1 = Some t ∧ Num 1 = Num z ∧ z ≠ 0
    ∧ z ∈ default [] (jwt_organizations t)
    ∧ getOrgIdFromRequest (req_query "1") = Some (Num z)
    ∧ orgMiddleware_request (Some token_org1) (req_query "1") = Some req'
    ∧ NextRequest.searchParams req' = NextRequest.searchParams (req_query "1")
    ∧ NextRequest.pathname req' = NextRequest.pathname (req_query "1")
    ∧ getOrgIdFromHeaders (NextRequest.headers req') = Some (Num z).
Proof.
  apply (orgMiddleware_forwards_verified (Some token_org1) (req_query "1") (Num 1)).
  reflexivity.
Defined.

(** X13: a request whose query parameter [orgId] is not empty and reads as
    [NaN] or 0 passes [orgMiddleware] as a request without organization: it
    is handed on as it came, with whatever [x-org-id] header it carries, and
    no membership is checked; so does every request without token. *)
Theorem orgMiddleware_passes_unchecked (token : option ExtendedJWT)
    (req : NextRequest.t) (q : string) :
  nonempty (searchParams_get (NextRequest.searchParams req) "orgId") = Some q →
  JS.truthy (JS.parseInt q (Some 10)) = false →
  orgMiddleware_request token req = Some req
  ∧ orgMiddleware_request None req = Some req.
Proof.
  intros Hq Hfalsy. split; [|done].
  unfold orgMiddleware_request, orgMiddleware, getOrgIdFromRequest.
  destruct token; [|done]. rewrite Hq, Hfalsy. done.
Qed.

Lemma orgMiddleware_passes_unchecked_example :
  orgMiddleware_request (Some token_org1) req_query0_header5
  = Some req_query0_header5
  ∧ getOrgIdFromHeaders (NextRequest.headers req_query0_header5) = Some (Num 5).
Proof.
  split; [|reflexivity].
  apply (orgMiddleware_passes_unchecked (Some token_org1) req_query0_header5 "0");
    reflexivity.
Defined.

(** ** Server actions and routes *)

Lemma assertRole_of_membership session db U O requiredRoles m :
  uniq_user_org db → membership_org_fk db → caller_is session U →
  m ∈ userOrganizations db → is_membership U O m →
  assertRole session db O requiredRoles
  = if existsb (λ role, hasMinimumRole (UserOrganization.role m) (Role_key role))
               requiredRoles
    then ret (UserOrganization.role m, O)
    else throw (Forbidden_RequiresRoles (map Role_key requiredRoles)).
Proof.
  intros Hu Hfk Hc Hin Hm. rewrite (assertRole_caller _ _ U _ _ Hc).
  destruct (select_roles db U O) as [|k ks] eqn:E.
  - exfalso. apply (select_roles_nil _ _ _ Hfk E). by exists m.
  - destruct (select_roles_head _ _ _ _ _ Hu Hfk E) as (m' & _ & _ & Hr & Huniq).
    by rewrite (Huniq m Hin Hm), Hr.
Qed.


Lemma create_not_member session db U O id :
  session_user_id session = Some id → id ≠ "" → JS.parseInt id None = Num U →
  ¬ has_membership db U O →
  OrgDb.create session db O = throw Forbidden_NotAMember.
Proof.
  intros Hid Hne Hp Hno. rewrite (create_caller _ _ U _ id Hid Hne Hp).
  apply filter_membership_nil in Hno. by rewrite Hno.
Qed.

Lemma truthy_str_Some (s : string) : s ≠ "" → JS.truthy_str (Some s) = true.
Proof. by destruct s. Qed.

Lemma length_eqb_0 (s : string) :
  (String.length s =? 0)%nat = true ↔ s = "".
Proof. destruct s; simpl; split; done. Qed.

Lemma trim_empty : trim "" = "".
Proof. reflexivity. Qed.

(** The fuel of [JS.skipAll] is enough: what [trimStart] returns starts
    with no white space, and what [trimEnd] returns ends with none. *)
Lemma strip_prefix_length (p s r : string) :
  strip_prefix p s = Some r →
  String.length s = (String.length p + String.length r)%nat.
Proof.
  revert s. induction p as [|a p IH]; intros s; simpl.
  - by intros [= ->].
  - destruct s as [|b s]; [done|]. destruct (Ascii.eqb a b); [|done].
    intros H. simpl. by rewrite (IH _ H).
Qed.

Lemma skipOne_length (seqs : list string) (s r : string) :
  Forall (λ w, w ≠ "") seqs → JS.skipOne seqs s = Some r →
  (String.length r < String.length s)%nat.
Proof.
  unfold JS.skipOne. induction 1 as [|w seqs Hw _ IH]; simpl; [done|].
  destruct (strip_prefix w s) as [r'|] eqn:E; simpl.
  - intros [= <-]. apply strip_prefix_length in E.
    destruct w; [done|]. simpl in E. lia.
  - exact IH.
Qed.

Lemma skipAll_enough (seqs : list string) (fuel : nat) (s : string) :
  Forall (λ w, w ≠ "") seqs → (String.length s ≤ fuel)%nat →
  JS.skipOne seqs (JS.skipAll seqs fuel s) = None.
Proof.
  intros Hseqs. revert s. induction fuel as [|fuel IH]; intros s Hs; simpl.
  - destruct s; [|simpl in Hs; lia].
    unfold JS.skipOne. induction Hseqs as [|w seqs Hw _ IHs]; simpl; [done|].
    by destruct w.
  - destruct (JS.skipOne seqs s) as [r|] eqn:E; [|done].
    apply IH. apply (skipOne_length _ _ _ Hseqs) in E. lia.
Qed.

Lemma whiteSpace_nonempty : Forall (λ w, w ≠ "") JS.whiteSpace.
Proof. apply (bool_decide_unpack _). by vm_compute. Qed.

Lemma trimStart_done (s : string) :
  JS.skipOne JS.whiteSpace (JS.trimStart s) = None.
Proof. apply skipAll_enough; [apply whiteSpace_nonempty | done]. Qed.

Lemma rev_app_length (s t : string) :
  String.length (String.rev_app s t) = (String.length s + String.length t)%nat.
Proof.
  revert t. induction s as [|a s IH]; intros t; simpl; [done|].
  rewrite IH. simpl. lia.
Qed.

Lemma rev_app_rev_app (s t u : string) :
  String.rev_app (String.rev_app s t) u = String.rev_app t (s +:+ u).
Proof.
  revert t. induction s as [|a s IH]; intros t; simpl; [done|]. by rewrite IH.
Qed.

Lemma rev_involutive (s : string) : String.rev (String.rev s) = s.
Proof. unfold String.rev. rewrite rev_app_rev_app. simpl. apply append_empty_r. Qed.

Lemma trimEnd_done (s : string) :
  JS.skipOne (map String.rev JS.whiteSpace) (String.rev (trimEnd s)) = None.
Proof.
  unfold trimEnd. rewrite rev_involutive. apply skipAll_enough.
  - apply (bool_decide_unpack _). by vm_compute.
  - unfold String.rev. rewrite rev_app_length. simpl. lia.
Qed.

(** White space beyond ASCII is trimmed as well: a no-break space (U+00A0),
    an em space (U+2003) and a byte order mark (U+FEFF) around ["a"], and a
    name that is a no-break space alone. *)
Example trim_examples :
  trim "  blog " = "blog"
  ∧ trim (JS.bytes [194; 160; 226; 128; 131; 97; 239; 187; 191; 10]) = "a"
  ∧ trim (JS.bytes [194; 160]) = ""
  ∧ JS.parseInt (JS.bytes [194; 160; 52; 50]) (Some 10) = Num 42.
Proof. by vm_compute. Qed.

Lemma project_row_orgId g g' db random now data :
  orgId g = orgId g' →
  OrgDb.project_row g db random now data = OrgDb.project_row g' db random now data.
Proof. intros H. unfold OrgDb.project_row. by rewrite H. Qed.

Lemma createProject_orgId g g' db random now data :
  orgId g = orgId g' →
  OrgDb.createProject g db random now data
  = OrgDb.createProject g' db random now data.
Proof.
  intros H. unfold OrgDb.createProject. by rewrite (project_row_orgId g g').
Qed.

(** X14: the action [createProject], for an established caller who has a
    Membership row in the organization, both ids of the range of the
    integer columns: with a role below admin it answers with the failure
    "Forbidden: Requires one of these roles: admin, owner" and writes
    nothing; with the role admin or owner and a name that is blank after
    trimming it answers "Project name is required" and writes nothing; and
    with such a role and another name it inserts the project of the trimmed
    fields: when the columns and the constraints of the table accept the
    row it appends that one project of the organization and names it in its
    message, and when they refuse it the action fails and the tables hold
    the rows they held. *)
Theorem Actions_createProject_outcomes (session : option Session.t)
    (db : Database) (random : nat → nat) (now U O : Z)
    (projectData : OrgDb.ProjectData) (m : UserOrganization.t) :
  uniq_user_org db → membership_org_fk db → caller_is session U →
  int4 U → int4 O →
  m ∈ userOrganizations db → is_membership U O m →
  let data :=
    OrgDb.mkProjectData (trim (OrgDb.pd_name projectData))
      (trim <$> OrgDb.pd_description projectData)
      (trim <$> OrgDb.pd_domain projectData) in
  (satisfies_none (UserOrganization.role m) [admin; owner] →
   Actions.createProject session db random now O projectData
   = (Failure "Forbidden: Requires one of these roles: admin, owner", db))
  ∧ (satisfies_some (UserOrganization.role m) [admin; owner] →
     trim (OrgDb.pd_name projectData) = "" →
     Actions.createProject session db random now O projectData
     = (Failure "Project name is required", db))
  ∧ (satisfies_some (UserOrganization.role m) [admin; owner] →
     trim (OrgDb.pd_name projectData) ≠ "" →
     ∀ g, orgId g = O →
       (∀ row, OrgDb.project_row g db random now data = ret row →
          projects_accepts db row →
          ∃ db',
            Actions.createProject session db random now O projectData
            = (Success (row, "Project " +:+ dquote +:+ Project.name row
                             +:+ dquote +:+ " created successfully"), db')
            ∧ varchar 255 (trim (OrgDb.pd_name projectData))
              = ret (Project.name row)
            ∧ Project.organizationId row = O
            ∧ Project.isActive row = true
            ∧ projects db' = projects db ++ [row])
       ∧ ((∃ row, OrgDb.project_row g db random now data = ret row
                  ∧ ¬ projects_accepts db row)
          ∨ (∃ error, OrgDb.project_row g db random now data = throw error) →
          ∃ error db',
            Actions.createProject session db random now O projectData
            = (Failure error, db')
            ∧ same_rows db db')).
Proof.
  intros Hu Hfk Hc _ _ Hin Hm data. unfold Actions.createProject.
  rewrite (assertRole_of_membership _ _ U _ _ m Hu Hfk Hc Hin Hm).
  split; [|split].
  - intros Hnone. apply existsb_satisfies_none in Hnone. by rewrite Hnone.
  - intros Hsome Hblank. apply existsb_satisfies_some in Hsome. rewrite Hsome.
    cbn [thrown ret]. rewrite (proj2 (length_eqb_0 _) Hblank).
    by rewrite orb_true_r.
  - intros Hsome Hname g Hg. apply existsb_satisfies_some in Hsome. rewrite Hsome.
    cbn [thrown ret].
    assert (OrgDb.pd_name projectData ≠ "") as Hne
      by (intros E; apply Hname; by rewrite E).
    rewrite (truthy_str_Some _ Hne). cbn [negb orb].
    destruct (String.length (trim (OrgDb.pd_name projectData)) =? 0)%nat eqn:El;
      [by apply length_eqb_0 in El|].
    destruct (caller_is_id _ _ Hc) as (id & Hid & Hidne & Hp).
    unfold getOrgDb.
    rewrite (create_member session db U O id Hid Hidne Hp) by (by exists m).
    cbn [thrown ret]. fold data.
    rewrite (createProject_orgId (mkOrgDatabase O id) g) by done.
    split.
    + intros row Hrow Hacc.
      rewrite (createProject_accepted _ _ _ _ _ _ Hrow Hacc). unfold thrown, ret.
      eexists. split; [reflexivity|].
      apply project_row_ret in Hrow as (_ & Ho & Hn & _ & Hact).
      split; [done|]. split; [congruence|]. done.
    + intros [(row & Hrow & Hacc)|(error & Hrow)].
      * rewrite (createProject_refused _ _ _ _ _ _ Hrow Hacc). unfold thrown, throw.
        eexists _, _. split; [reflexivity|]. by repeat split.
      * unfold OrgDb.createProject. rewrite Hrow. unfold thrown, throw.
        eexists _, _. split; [reflexivity|]. by repeat split.
Qed.

Lemma db1_constraints : uniq_user_org db1 ∧ membership_org_fk db1 ∧ roles_valid db1.
Proof.
  split; [|split].
  - unfold uniq_user_org. apply (bool_decide_unpack _). by vm_compute.
  - unfold membership_org_fk. apply (bool_decide_unpack _). by vm_compute.
  - unfold roles_valid. simpl. repeat constructor; by eexists.
Defined.

Lemma caller_is_session8 : caller_is session8 8.
Proof. split; reflexivity. Defined.

Lemma db1_membership_7_1 : membership_7_1 ∈ userOrganizations db1
                           ∧ is_membership 7 1 membership_7_1.
Proof. split; [apply list_elem_of_here | by split]. Defined.

Lemma db1_membership_8_2 : membership_8_2 ∈ userOrganizations db1
                           ∧ is_membership 8 2 membership_8_2.
Proof.
  split; [apply list_elem_of_further, list_elem_of_here | by split].
Defined.

Lemma member_satisfies_none : satisfies_none "member" [admin; owner].
Proof.
  intros r Hr. apply elem_of_cons in Hr as [->|Hr]; [reflexivity|].
  apply list_elem_of_singleton in Hr as ->. reflexivity.
Defined.

Lemma owner_satisfies_some : satisfies_some "owner" [admin; owner].
Proof. exists admin. split; [apply list_elem_of_here | reflexivity]. Defined.

Lemma int4_small : int4 1 ∧ int4 2 ∧ int4 7 ∧ int4 8 ∧ int4 9.
Proof. unfold int4. lia. Defined.

(** User 7, a member of organization 1, is refused; user 8, the owner of
    organization 2, creates the project "blog". *)
Lemma Actions_createProject_example :
  Actions.createProject session7 db1 (λ i, i) 50 1
    (OrgDb.mkProjectData "  blog " None None)
  = (Failure "Forbidden: Requires one of these roles: admin, owner", db1)
  ∧ ∃ row db',
      Actions.createProject session8 db1 (λ i, i) 50 2
        (OrgDb.mkProjectData "  blog " None None)
      = (Success (row, "Project " +:+ dquote +:+ Project.name row +:+ dquote
                       +:+ " created successfully"), db')
      ∧ Project.name row = "blog"
      ∧ Project.organizationId row = 2
      ∧ Project.isActive row = true
      ∧ projects db' = projects db1 ++ [row].
Proof.
  destruct db1_constraints as (Hu & Hfk & _).
  destruct int4_small as (H1 & H2 & H7 & H8 & _).
  split.
  - apply (Actions_createProject_outcomes session7 db1 (λ i, i) 50 7 1
             (OrgDb.mkProjectData "  blog " None None) membership_7_1 Hu Hfk
             caller_is_session7 H7 H1 (proj1 db1_membership_7_1)
             (proj2 db1_membership_7_1)).
    exact member_satisfies_none.
  - destruct (Actions_createProject_outcomes session8 db1 (λ i, i) 50 8 2
                (OrgDb.mkProjectData "  blog " None None) membership_8_2 Hu Hfk
                caller_is_session8 H8 H2 (proj1 db1_membership_8_2)
                (proj2 db1_membership_8_2)) as (_ & _ & H).
    assert (∃ row, OrgDb.project_row (mkOrgDatabase 2 "8") db1 (λ i, i) 50
                     (OrgDb.mkProjectData "blog" None None) = ret row
                   ∧ projects_accepts db1 row ∧ Project.name row = "blog")
      as (row & Hrow & Hacc & Hname).
    { eexists. split; [by vm_compute|]. split; [|reflexivity].
      apply (bool_decide_unpack _). by vm_compute. }
    destruct (H owner_satisfies_some) with (g := mkOrgDatabase 2 "8") as [Hok _];
      [discriminate | reflexivity|].
    destruct (Hok row Hrow Hacc) as (db' & Hcreate & _ & Ho & Hact & Hrows).
    by exists row, db'.
Defined.

Lemma getOrgDb_parsed_Num session db id O :
  session_user_id session = Some id → id ≠ "" → int4 O →
  Routes.getOrgDb_parsed session db (Num O) = OrgDb.create session db O.
Proof.
  intros Hid Hne HO. unfold Routes.getOrgDb_parsed, getOrgDb.
  rewrite Hid, (truthy_str_Some _ Hne). cbn [negb int_param bind ret].
  by rewrite (integer_int4 _ HO).
Qed.

Lemma getOrgDb_parsed_out_of_range session db id O :
  session_user_id session = Some id → id ≠ "" → ¬ int4 O →
  Routes.getOrgDb_parsed session db (Num O)
  = throw (StorageFailure "value out of range for type integer").
Proof.
  intros Hid Hne HO. unfold Routes.getOrgDb_parsed, integer.
  rewrite Hid, (truthy_str_Some _ Hne). cbn [negb int_param bind ret].
  by rewrite decide_False.
Qed.

Lemma POST_projects_catch_status {A} (error : string) :
  ∃ status text, @Routes.POST_projects_catch A error = ErrorJson status text.
Proof.
  unfold Routes.POST_projects_catch. destruct (_ || _); eauto.
Qed.

(** X15: the route [POST /api/projects] asks for no role.  For a caller U
    of the integer range, a query [orgId] that reads as O and a body with a
    non-empty name: an O outside the range of the column is answered with
    500; a caller without Membership row in O with 403, and nothing is
    written; a caller with a Membership row, whatever the role, gets the
    project inserted under the name as it was sent: when the columns and the
    constraints of the table accept the row, the answer is that project, a
    project of O, and it is appended; when they refuse it, the answer is an
    error and the tables hold the rows they held. *)
Theorem Routes_POST_projects_any_member (session : option Session.t)
    (db : Database) (random : nat → nat) (now U O : Z) (req : NextRequest.t)
    (body : Routes.ProjectJson) (id orgIdText name : string) :
  session_user_id session = Some id → id ≠ "" → JS.parseInt id None = Num U →
  int4 U →
  nonempty (searchParams_get (NextRequest.searchParams req) "orgId")
  = Some orgIdText →
  JS.parseInt orgIdText (Some 10) = Num O →
  nonempty (Routes.pj_name body) = Some name →
  let data :=
    OrgDb.mkProjectData name (Routes.pj_description body) (Routes.pj_domain body) in
  (¬ int4 O →
   Routes.POST_projects session db random now req (Some body)
   = (ErrorJson 500 "Internal server error", db))
  ∧ (int4 O → ¬ has_membership db U O →
     Routes.POST_projects session db random now req (Some body)
     = (ErrorJson 403 "Access denied to organization", db))
  ∧ (int4 O → has_membership db U O →
     ∀ g, orgId g = O →
       (∀ row, OrgDb.project_row g db random now data = ret row →
          projects_accepts db row →
          ∃ db',
            Routes.POST_projects session db random now req (Some body)
            = (OkJson (Some row), db')
            ∧ Project.organizationId row = O
            ∧ varchar 255 name = ret (Project.name row)
            ∧ Project.isActive row = true
            ∧ projects db' = projects db ++ [row])
       ∧ ((∃ row, OrgDb.project_row g db random now data = ret row
                  ∧ ¬ projects_accepts db row)
          ∨ (∃ error, OrgDb.project_row g db random now data = throw error) →
          ∃ status error db',
            Routes.POST_projects session db random now req (Some body)
            = (ErrorJson status error, db')
            ∧ same_rows db db')).
Proof.
  intros Hid Hne Hp _ Hq Ho Hname data. unfold Routes.POST_projects.
  rewrite Hid, (truthy_str_Some _ Hne), Hq, Hname, Ho. cbn [negb].
  split; [|split].
  - intros HO. by rewrite (getOrgDb_parsed_out_of_range _ _ id O Hid Hne HO).
  - intros HO Hno. rewrite (getOrgDb_parsed_Num _ _ id O Hid Hne HO).
    by rewrite (create_not_member session db U O id Hid Hne Hp Hno).
  - intros HO Hm g Hg. rewrite (getOrgDb_parsed_Num _ _ id O Hid Hne HO).
    rewrite (create_member session db U O id Hid Hne Hp Hm).
    cbn [thrown ret]. fold data.
    rewrite (createProject_orgId (mkOrgDatabase O id) g) by done.
    split.
    + intros row Hrow Hacc.
      rewrite (createProject_accepted _ _ _ _ _ _ Hrow Hacc). unfold thrown, ret.
      eexists. split; [reflexivity|].
      apply project_row_ret in Hrow as (_ & Hor & Hn & _ & Hact).
      split; [congruence|]. done.
    + intros [(row & Hrow & Hacc)|(error & Hrow)].
      * rewrite (createProject_refused _ _ _ _ _ _ Hrow Hacc). unfold thrown, throw.
        destruct (@POST_projects_catch_status (option Project.t)
                    (message constraint_violation)) as (status & text & ->).
        eexists _, _, _. split; [reflexivity|]. by repeat split.
      * unfold OrgDb.createProject. rewrite Hrow. unfold thrown, throw.
        destruct (@POST_projects_catch_status (option Project.t) (message error))
          as (status & text & ->).
        eexists _, _, _. split; [reflexivity|]. by repeat split.
Qed.

(** User 7 holds the role member in organization 1. *)
Lemma Routes_POST_projects_example :
  ∃ row db',
    Routes.POST_projects session7 db1 (λ i, i) 50 req_org1
      (Some (Routes.mkProjectJson (Some " blog ") None None))
    = (OkJson (Some row), db')
    ∧ Project.organizationId row = 1
    ∧ Project.name row = " blog "
    ∧ Project.isActive row = true
    ∧ projects db' = projects db1 ++ [row].
Proof.
  destruct int4_small as (H1 & _ & H7 & _).
  destruct (Routes_POST_projects_any_member session7 db1 (λ i, i) 50 7 1 req_org1
              (Routes.mkProjectJson (Some " blog ") None None) "7" "1" " blog ")
    as (_ & _ & H); try reflexivity; [discriminate | exact H7|].
  assert (∃ row, OrgDb.project_row gateway1 db1 (λ i, i) 50
                   (OrgDb.mkProjectData " blog " None None) = ret row
                 ∧ projects_accepts db1 row ∧ Project.name row = " blog ")
    as (row & Hrow & Hacc & Hn).
  { eexists. split; [by vm_compute|]. split; [|reflexivity].
    apply (bool_decide_unpack _). by vm_compute. }
  destruct (H H1) with (g := gateway1) as [Hok _];
    [exists membership_7_1; exact db1_membership_7_1 | reflexivity|].
  destruct (Hok row Hrow Hacc) as (db' & Hpost & Ho & _ & Hact & Hrows).
  by exists row, db'.
Defined.

(** X16: [GET /api/projects]: without a session id the answer is 401,
    without a query parameter [orgId] it is 400, and for a query value that
    reads as no number, or as a number outside the range of the integer
    column, it is 500; for a caller U and the organization O of the query,
    both of that range, the answer is 403 when no Membership row exists, and
    otherwise it carries O, the projects of O and their count. *)
Theorem Routes_GET_projects_outcomes (session : option Session.t) (db : Database)
    (req : NextRequest.t) :
  (JS.truthy_str (session_user_id session) = false →
   Routes.GET_projects session db req = ErrorJson 401 "Unauthorized")
  ∧ (∀ id, session_user_id session = Some id → id ≠ "" →
       (nonempty (searchParams_get (NextRequest.searchParams req) "orgId") = None →
        Routes.GET_projects session db req
        = ErrorJson 400 "Organization ID required")
       ∧ (∀ orgIdText,
            nonempty (searchParams_get (NextRequest.searchParams req) "orgId")
            = Some orgIdText →
            (JS.parseInt orgIdText (Some 10) = NaN →
             Routes.GET_projects session db req
             = ErrorJson 500 "Internal server error")
            ∧ (∀ O, JS.parseInt orgIdText (Some 10) = Num O → ¬ int4 O →
                 Routes.GET_projects session db req
                 = ErrorJson 500 "Internal server error")
            ∧ (∀ U O, JS.parseInt id None = Num U →
                 JS.parseInt orgIdText (Some 10) = Num O →
                 int4 U → int4 O →
                 (¬ has_membership db U O →
                  Routes.GET_projects session db req
                  = ErrorJson 403 "Access denied to organization")
                 ∧ (has_membership db U O →
                    Routes.GET_projects session db req
                    = OkJson (Routes.mkProjectsBody O
                                (filter (λ p, Project.organizationId p = O)
                                        (projects db))
                                (Z.of_nat (length
                                   (filter (λ p, Project.organizationId p = O)
                                           (projects db))))))))).
Proof.
  split.
  { intros Hs. unfold Routes.GET_projects. by rewrite Hs. }
  intros id Hid Hne. unfold Routes.GET_projects.
  rewrite Hid, (truthy_str_Some _ Hne). cbn [negb]. split.
  { by intros ->. }
  intros orgIdText ->. split; [|split].
  { intros ->. unfold Routes.getOrgDb_parsed.
    by rewrite Hid, (truthy_str_Some _ Hne). }
  { intros O -> HO. by rewrite (getOrgDb_parsed_out_of_range _ _ id O Hid Hne HO). }
  intros U O Hp -> _ HO. rewrite (getOrgDb_parsed_Num _ _ id O Hid Hne HO). split.
  - intros Hno. by rewrite (create_not_member session db U O id Hid Hne Hp Hno).
  - intros Hm. by rewrite (create_member session db U O id Hid Hne Hp Hm).
Qed.

(** X17: the action [getOrgProjects]: without a session id it fails with
    "Authentication required"; for a caller U and an organization O, both
    ids of the range of the integer columns, it succeeds exactly when a
    Membership row exists for the organization, with the projects of that
    organization as its data, and fails with the message of the refusal
    otherwise. *)
Theorem Actions_getOrgProjects_outcomes (session : option Session.t)
    (db : Database) (O : Z) :
  (JS.truthy_str (session_user_id session) = false →
   Actions.getOrgProjects session db O = Failure "Authentication required")
  ∧ (∀ id U, session_user_id session = Some id → id ≠ "" →
       JS.parseInt id None = Num U → int4 U → int4 O →
       (has_membership db U O →
        Actions.getOrgProjects session db O
        = Success (filter (λ p, Project.organizationId p = O) (projects db)))
       ∧ (¬ has_membership db U O →
          Actions.getOrgProjects session db O
          = Failure "Forbidden: User not a member of this organization")).
Proof.
  split.
  { intros Hs. unfold Actions.getOrgProjects. by rewrite Hs. }
  intros id U Hid Hne Hp _ _. unfold Actions.getOrgProjects, getOrgDb.
  rewrite Hid, (truthy_str_Some _ Hne). cbn [negb]. split.
  - intros Hm. by rewrite (create_member session db U O id Hid Hne Hp Hm).
  - intros Hno. by rewrite (create_not_member session db U O id Hid Hne Hp Hno).
Qed.

(** X18: the action [switchActiveOrg], on a database whose memberships
    reference existing organizations, for a caller U and an organization O,
    both ids of the range of the integer columns: with a Membership row it
    succeeds with the id, name and slug of a stored organization whose id
    is the requested one, and never answers "Organization not found";
    without one it fails with the message of the refusal. *)
Theorem Actions_switchActiveOrg_outcomes (session : option Session.t)
    (db : Database) (U O : Z) (id : string) :
  membership_org_fk db →
  session_user_id session = Some id → id ≠ "" → JS.parseInt id None = Num U →
  int4 U → int4 O →
  (has_membership db U O →
   ∃ o, o ∈ organizations db ∧ Organization.id o = O
        ∧ Actions.switchActiveOrg session db O
          = Success (Actions.mkSwitchedOrg O (Organization.name o)
                                           (Organization.slug o),
                     "Switched to " +:+ Organization.name o))
  ∧ (¬ has_membership db U O →
     Actions.switchActiveOrg session db O
     = Failure "Forbidden: User not a member of this organization").
Proof.
  intros Hfk Hid Hne Hp _ _. unfold Actions.switchActiveOrg, getOrgDb. split.
  - intros Hm. rewrite (create_member session db U O id Hid Hne Hp Hm).
    destruct (getOrganization_member (mkOrgDatabase O id) db U Hfk Hm)
      as (o & Ho & Hoid & Hoin).
    unfold thrown, ret. rewrite Ho. simpl in Hoid. exists o.
    split; [done|]. split; [done|]. simpl. by rewrite Hoid.
  - intros Hno. by rewrite (create_not_member session db U O id Hid Hne Hp Hno).
Qed.

Lemma Actions_switchActiveOrg_example :
  (∃ o, o ∈ organizations db1 ∧ Organization.id o = 1
        ∧ Actions.switchActiveOrg session7 db1 1
          = Success (Actions.mkSwitchedOrg 1 (Organization.name o)
                                           (Organization.slug o),
                     "Switched to " +:+ Organization.name o))
  ∧ Actions.switchActiveOrg session7 db1 2
    = Failure "Forbidden: User not a member of this organization".
Proof.
  destruct int4_small as (H1 & H2 & H7 & _).
  split.
  - apply (Actions_switchActiveOrg_outcomes session7 db1 7 1 "7"
             (proj1 (proj2 db1_constraints)));
      [reflexivity | discriminate | reflexivity | exact H7 | exact H1 |].
    exists membership_7_1. exact db1_membership_7_1.
  - apply (Actions_switchActiveOrg_outcomes session7 db1 7 2 "7"
             (proj1 (proj2 db1_constraints)));
      [reflexivity | discriminate | reflexivity | exact H7 | exact H2 |].
    intros (m & Hin & Ho & Hu). simpl in Hin.
    apply elem_of_cons in Hin as [->|Hin]; [simpl in Ho; lia|].
    apply list_elem_of_singleton in Hin as ->. simpl in Hu. lia.
Defined.

(** X19: the route [POST /api/org]: a body whose [orgId] is absent, is not
    a number or is 0 is answered with 400; a number that is no integer, or
    an integer outside the range of the column, with 500; for a caller U
    and an id O other than 0, both of that range, on a database that
    satisfies the unique and foreign-key constraints of the memberships,
    the answer is 403 exactly when no Membership row exists, and otherwise
    names the organization O with the role of the caller's Membership
    row. *)
Theorem Routes_POST_org_outcomes (session : option Session.t) (db : Database)
    (U : Z) (id : string) :
  uniq_user_org db → membership_org_fk db →
  session_user_id session = Some id → id ≠ "" → JS.parseInt id None = Num U →
  int4 U →
  Routes.POST_org session db (Some Routes.NotANumber)
  = ErrorJson 400 "Invalid organization ID"
  ∧ Routes.POST_org session db (Some (Routes.Integer 0))
    = ErrorJson 400 "Invalid organization ID"
  ∧ Routes.POST_org session db (Some Routes.NotAnInteger)
    = ErrorJson 500 "Internal server error"
  ∧ (∀ O, O ≠ 0 → ¬ int4 O →
       Routes.POST_org session db (Some (Routes.Integer O))
       = ErrorJson 500 "Internal server error")
  ∧ (∀ O, O ≠ 0 → int4 O →
       (¬ has_membership db U O →
        Routes.POST_org session db (Some (Routes.Integer O))
        = ErrorJson 403 "Access denied to organization")
       ∧ (∀ m, m ∈ userOrganizations db → is_membership U O m →
            ∃ o, o ∈ organizations db ∧ Organization.id o = O
                 ∧ Routes.POST_org session db (Some (Routes.Integer O))
                   = OkJson (Routes.mkActiveOrg O (Organization.name o)
                               (Organization.slug o) (UserOrganization.role m),
                             "Switched to " +:+ Organization.name o))).
Proof.
  intros Hu Hfk Hid Hne Hp HU.
  assert (∀ body,
            Routes.POST_org session db (Some body)
            = match body with
              | Routes.NotANumber | Routes.Integer 0 =>
                  ErrorJson 400 "Invalid organization ID"
              | Routes.NotAnInteger => ErrorJson 500 "Internal server error"
              | Routes.Integer z =>
                  match integer z with
                  | inl _ => ErrorJson 500 "Internal server error"
                  | inr z =>
                      match filter (λ mo, is_membership U z (fst mo))
                                   (memberships_with_org db) with
                      | [] => ErrorJson 403 "Access denied to organization"
                      | (m, o) :: _ =>
                          OkJson (Routes.mkActiveOrg (Organization.id o)
                                    (Organization.name o) (Organization.slug o)
                                    (UserOrganization.role m),
                                  "Switched to " +:+ Organization.name o)
                      end
                  end
              end) as Hpost.
  { intros body. unfold Routes.POST_org.
    rewrite Hid, (truthy_str_Some _ Hne). cbn [negb].
    change (parse_user_id (Some id)) with (JS.parseInt id None). rewrite Hp.
    destruct body as [| |[|z|z]]; try done;
      cbn [int_param bind ret]; rewrite (integer_int4 _ HU); cbn [bind ret];
      try done; destruct (integer _) as [e|z']; try done;
      cbn [bind ret]; by destruct (filter _ _) as [|[m o] l]. }
  split; [by rewrite Hpost|]. split; [by rewrite Hpost|].
  split; [by rewrite Hpost|]. split.
  { intros O HO Hrange. rewrite Hpost.
    destruct O as [|q|q]; [done|..]; unfold integer; by rewrite decide_False. }
  intros O HO Hrange.
  assert (Routes.POST_org session db (Some (Routes.Integer O))
          = match filter (λ mo, is_membership U O (fst mo))
                         (memberships_with_org db) with
            | [] => ErrorJson 403 "Access denied to organization"
            | (m, o) :: _ =>
                OkJson (Routes.mkActiveOrg (Organization.id o)
                          (Organization.name o) (Organization.slug o)
                          (UserOrganization.role m),
                        "Switched to " +:+ Organization.name o)
            end) as ->.
  { rewrite Hpost.
    destruct O as [|q|q]; [done|..]; by rewrite (integer_int4 _ Hrange). }
  destruct (filter (λ mo, is_membership U O (fst mo)) (memberships_with_org db))
    as [|[m' o'] l] eqn:E.
  - split; [done|]. intros m Hin Hm. exfalso.
    unfold membership_org_fk in Hfk. rewrite Forall_forall in Hfk.
    destruct (proj1 (Exists_exists _ _) (Hfk m Hin)) as (o & Hoin & Hoid).
    assert ((m, o) ∈ filter (λ mo, is_membership U O (fst mo))
                            (memberships_with_org db)) as Hmo.
    { apply list_elem_of_filter. split; [done|]. by apply memberships_with_org_elem. }
    rewrite E in Hmo. by apply elem_of_nil in Hmo.
  - assert ((m', o') ∈ filter (λ mo, is_membership U O (fst mo))
                              (memberships_with_org db)) as Hmo
      by (rewrite E; apply list_elem_of_here).
    apply list_elem_of_filter in Hmo as [Hm' Hmo]. simpl in Hm'.
    apply memberships_with_org_elem in Hmo as (Hin' & Hoin' & Hoid').
    split.
    + intros Hno. exfalso. apply Hno. by exists m'.
    + intros m Hin Hm. rewrite (membership_unique db U O m m' Hu Hin Hm Hin' Hm').
      exists o'. destruct Hm' as [Horg _]. rewrite Horg in Hoid'.
      split; [done|]. split; [done|]. simpl. by rewrite Hoid'.
Qed.

Lemma Routes_POST_org_example :
  Routes.POST_org session7 db1 (Some (Routes.Integer 2147483648))
  = ErrorJson 500 "Internal server error"
  ∧ Routes.POST_org session7 db1 (Some (Routes.Integer 2))
    = ErrorJson 403 "Access denied to organization"
  ∧ ∃ o, o ∈ organizations db1 ∧ Organization.id o = 1
         ∧ Routes.POST_org session7 db1 (Some (Routes.Integer 1))
           = OkJson (Routes.mkActiveOrg 1 (Organization.name o)
                       (Organization.slug o) "member",
                     "Switched to " +:+ Organization.name o).
Proof.
  destruct int4_small as (H1 & H2 & H7 & _).
  destruct (Routes_POST_org_outcomes session7 db1 7 "7"
              (proj1 db1_constraints) (proj1 (proj2 db1_constraints)))
    as (_ & _ & _ & Hout & Hin); [reflexivity | discriminate | reflexivity
                                 | exact H7|].
  split; [apply Hout; unfold int4; lia|]. split.
  - apply (Hin 2); [lia | exact H2|].
    intros (m & Hm & Ho & Hu). simpl in Hm.
    apply elem_of_cons in Hm as [->|Hm]; [simpl in Ho; lia|].
    apply list_elem_of_singleton in Hm as ->. simpl in Hu. lia.
  - destruct (Hin 1) as [_ Hrow]; [lia | exact H1|].
    exact (Hrow membership_7_1 (proj1 db1_membership_7_1)
             (proj2 db1_membership_7_1)).
Defined.

(** ** The dashboard *)



(** ** The required roles of the guard *)

Lemma existsb_mono {A} (f : A → bool) (l l' : list A) :
  (∀ x, x ∈ l → x ∈ l') → existsb f l = true → existsb f l' = true.
Proof.
  intros Hsub H. apply existsb_exists in H as (x & Hin & Hx).
  apply existsb_exists. exists x. split; [|done].
  apply list_elem_of_In, Hsub. by apply list_elem_of_In.
Qed.

Lemma hasMinimumRole_member k k' :
  hasMinimumRole k k' = true → hasMinimumRole k (Role_key member) = true.
Proof.
  unfold hasMinimumRole. destruct (ROLES k) as [n|] eqn:E; [|done]. intros _.
  simpl. unfold ROLES in E. repeat case_match; by simplify_eq.
Qed.

(** X21: the guard and its list of required roles: with an empty list it
    never succeeds; a success stays the same success under every larger
    list; and whoever passes under some list passes under the list that
    holds member alone, with the same result. *)
Theorem assertRole_required_roles (session : option Session.t) (db : Database)
    (O : Z) :
  (∀ x, assertRole session db O [] ≠ ret x)
  ∧ (∀ requiredRoles requiredRoles' x,
       (∀ r, r ∈ requiredRoles → r ∈ requiredRoles') →
       assertRole session db O requiredRoles = ret x →
       assertRole session db O requiredRoles' = ret x)
  ∧ (∀ requiredRoles x,
       assertRole session db O requiredRoles = ret x →
       assertRole session db O [member] = ret x).
Proof.
  unfold assertRole.
  destruct (negb (JS.truthy_str (session_user_email session)));
    [by repeat split|].
  destruct (int_param _) as [e|uid]; [by repeat split|]. cbn [bind].
  destruct (take 1 (select_roles db uid O)) as [|k ks]; [by repeat split|].
  split; [done|]. split.
  - intros req req' x Hsub.
    destruct (existsb _ req) eqn:E; [|done]. cbn [negb]. intros <-.
    by rewrite (existsb_mono _ req req' Hsub E).
  - intros req x. destruct (existsb _ req) eqn:E; [|done]. cbn [negb]. intros <-.
    apply existsb_exists in E as (r & _ & Hr). cbn [existsb].
    by rewrite (hasMinimumRole_member _ _ Hr).
Qed.

(** ** The middleware and a token without organizations *)

(** X22: a token that carries no list of organizations, or an empty one,
    is refused with 403 for every request from which a non-zero organization
    id is extracted, and the header is never set for it. *)
Theorem orgMiddleware_without_organizations (token : ExtendedJWT)
    (req : NextRequest.t) :
  default [] (jwt_organizations token) = [] →
  (∀ n, getOrgIdFromRequest req = Some n → JS.truthy n = true →
        orgMiddleware (Some token) req = Forbidden403)
  ∧ (orgMiddleware (Some token) req = Next
     ∨ orgMiddleware (Some token) req = Forbidden403).
Proof.
  intros Hempty. unfold orgMiddleware, verifyOrgAccess. rewrite Hempty. split.
  - intros n -> ->. done.
  - destruct (getOrgIdFromRequest req) as [n|]; [|by left].
    destruct (JS.truthy n); [by right | by left].
Qed.

Lemma orgMiddleware_without_organizations_example :
  orgMiddleware (Some (mkExtendedJWT None)) (req_query "1") = Forbidden403.
Proof.
  destruct (orgMiddleware_without_organizations (mkExtendedJWT None)
              (req_query "1") eq_refl) as [H _].
  apply (H (Num 1)); reflexivity.
Defined.

(** ** The personal organization of a new user *)

Lemma uniq_user_org_app (rows : list UserOrganization.t) (m : UserOrganization.t) :
  NoDup (map (λ m, (UserOrganization.userId m, UserOrganization.organizationId m))
             rows) →
  Forall (λ m', (UserOrganization.userId m', UserOrganization.organizationId m')
                ≠ (UserOrganization.userId m, UserOrganization.organizationId m))
         rows →
  NoDup (map (λ m, (UserOrganization.userId m, UserOrganization.organizationId m))
             (rows ++ [m])).
Proof.
  intros Hnd Hfresh. rewrite map_app. apply NoDup_app. split; [done|].
  split; [|apply NoDup_singleton].
  intros key Hkey Hkey'. apply list_elem_of_singleton in Hkey'. subst key.
  apply list_elem_of_In, in_map_iff in Hkey as (m' & Heq & Hin).
  rewrite Forall_forall in Hfresh. by apply (Hfresh m'); [apply list_elem_of_In|].
Qed.

Lemma personal_organization_ret now newOrgId name email o :
  personal_organization now newOrgId name email = ret o →
  Organization.id o = newOrgId
  ∧ Organization.plan o = "free"
  ∧ varchar 255 (default (before_at email) (nonempty name) +:+ "'s Organization")
    = ret (Organization.name o)
  ∧ varchar 100 (JS.toLowerCase (before_at email +:+ "-" +:+ toString (Num now)))
    = ret (Organization.slug o)
  ∧ (∃ stored, varchar 255 email = ret stored
               ∧ Organization.billingEmail o = Some stored).
Proof.
  unfold personal_organization. intros H.
  apply bind_ret_inv in H as (n & Hn & H).
  apply bind_ret_inv in H as (slug & Hslug & H).
  apply bind_ret_inv in H as (billing & Hb & H).
  injection H as <-. do 4 (split; [done|]). by exists billing.
Qed.

Lemma owner_membership_ret now newMembershipId id newOrg m :
  owner_membership now newMembershipId id newOrg = ret m →
  ∃ U, JS.parseInt id None = Num U ∧ int4 U
       ∧ m = UserOrganization.mk newMembershipId U (Organization.id newOrg)
                                 "owner" now.
Proof.
  unfold owner_membership. intros H.
  apply bind_ret_inv in H as (U & HU & H).
  apply bind_ret_inv in H as (U' & HU' & H).
  apply integer_ret in HU' as [Hrange ->]. injection H as <-.
  exists U. split; [|done]. destruct (JS.parseInt id None); [done|].
  by injection HU as ->.
Qed.

(** X23: the [createUser] event, for a user with an e-mail address and an
    id, on a database that satisfies the unique and foreign-key constraints
    of the memberships.  When a column refuses a value of the organization
    (a name or slug too long), or a constraint the row (the slug or the id
    is taken), nothing is written.  Otherwise one organization is appended,
    on the plan "free", billed to the address and named after the user's
    name, or after the text before the [@] when there is no name; projects,
    events and snapshots are untouched.  When the id does not read as an
    integer of the column's range, or the table refuses the membership, the
    organization stays without membership.  Otherwise one membership is
    appended, owner, of the user in the new organization; the constraints
    still hold, the memberships in other organizations are the same, and
    the guard then admits the user as owner of the new organization. *)
Theorem createUser_personal_organization (db : Database) (users : list Z)
    (now newOrgId newMembershipId : Z) (user : AdapterUser) (email id : string) :
  uniq_user_org db → membership_org_fk db →
  JS.isSafeInteger now → ascii_text (before_at email) →
  nonempty (au_email user) = Some email → nonempty (au_id user) = Some id →
  let db' := createUser db users now newOrgId newMembershipId user in
  ((∃ error, personal_organization now newOrgId (au_name user) email
             = throw error)
   ∨ (∃ o, personal_organization now newOrgId (au_name user) email = ret o
           ∧ ¬ organizations_accepts db o) →
   db' = db)
  ∧ (∀ o, personal_organization now newOrgId (au_name user) email = ret o →
       organizations_accepts db o →
       organizations db' = organizations db ++ [o]
       ∧ Organization.id o = newOrgId
       ∧ Organization.plan o = "free"
       ∧ (∃ stored, varchar 255 email = ret stored
                    ∧ Organization.billingEmail o = Some stored)
       ∧ varchar 255 (default (before_at email) (nonempty (au_name user))
                      +:+ "'s Organization")
         = ret (Organization.name o)
       ∧ projects db' = projects db ∧ events db' = events db
       ∧ kpiSnapshots db' = kpiSnapshots db
       ∧ ((∃ error, owner_membership now newMembershipId id o = throw error)
          ∨ (∃ m, owner_membership now newMembershipId id o = ret m
                  ∧ ¬ user_organizations_accepts (add_organization db o) users m) →
          userOrganizations db' = userOrganizations db)
       ∧ (∀ m, owner_membership now newMembershipId id o = ret m →
            user_organizations_accepts (add_organization db o) users m →
            ∃ U, JS.parseInt id None = Num U
              ∧ userOrganizations db' = userOrganizations db ++ [m]
              ∧ is_membership U newOrgId m
              ∧ UserOrganization.role m = "owner"
              ∧ uniq_user_org db' ∧ membership_org_fk db'
              ∧ (∀ V B, B ≠ newOrgId →
                        has_membership db' V B ↔ has_membership db V B)
              ∧ (∀ session, caller_is session U →
                   assertRole session db' newOrgId [owner]
                   = ret ("owner", newOrgId)))).
Proof.
  intros Hu Hfk _ _ Hemail Hid db'.
  assert (db' = match personal_organization now newOrgId (au_name user) email with
                | inl _ => db
                | inr newOrg =>
                    if bool_decide (organizations_accepts db newOrg) then
                      match owner_membership now newMembershipId id newOrg with
                      | inl _ => add_organization db newOrg
                      | inr membership =>
                          if bool_decide (user_organizations_accepts
                                            (add_organization db newOrg) users
                                            membership)
                          then
                            mkDatabase (organizations db ++ [newOrg])
                              (userOrganizations db ++ [membership])
                              (projects db) (events db) (kpiSnapshots db)
                              (projects_id_seq db) (events_id_seq db)
                              (kpi_snapshots_id_seq db)
                          else add_organization db newOrg
                      end
                    else db
                end) as Hdb'.
  { subst db'. unfold createUser. by rewrite Hemail, Hid. }
  clearbody db'. split.
  { intros [(error & He)|(o & Ho & Hacc)]; rewrite Hdb'; [by rewrite He|].
    rewrite Ho. unfold ret. by rewrite (bool_decide_eq_false_2 _ Hacc). }
  intros o Ho Hacc. rewrite Ho in Hdb'. unfold ret at 1 in Hdb'.
  rewrite (bool_decide_eq_true_2 _ Hacc) in Hdb'.
  destruct (personal_organization_ret _ _ _ _ _ Ho)
    as (Hoid & Hplan & Hname & _ & Hbilling).
  destruct (owner_membership now newMembershipId id o) as [e|m] eqn:Em.
  { subst db'. do 8 (split; [done|]). split; [done|]. by intros m [=]. }
  destruct (bool_decide (user_organizations_accepts (add_organization db o)
                                                    users m)) eqn:Eacc.
  2:{ apply bool_decide_eq_false in Eacc. subst db'.
      do 8 (split; [done|]). split; [done|]. intros m' [= <-] Hm. done. }
  apply bool_decide_eq_true in Eacc. subst db'.
  do 8 (split; [done|]). split.
  { intros [(error & [=])|(m' & [= <-] & Hno)]. done. }
  intros m' [= <-] _.
  destruct (owner_membership_ret _ _ _ _ _ Em) as (U & HU & _ & Hm).
  destruct Eacc as (_ & _ & Hpair & _ & _).
  set (db' := mkDatabase _ _ _ _ _ _ _ _).
  assert (is_membership U newOrgId m) as His by (rewrite Hm, Hoid; by split).
  assert (UserOrganization.role m = "owner") as Hrole by (by rewrite Hm).
  assert (uniq_user_org db') as Hu' by (by apply uniq_user_org_app).
  assert (membership_org_fk db') as Hfk'.
  { unfold membership_org_fk. simpl. apply Forall_app. split.
    - eapply Forall_impl; [exact Hfk|]. simpl. intros m' Hex.
      apply Exists_app. by left.
    - repeat constructor. apply Exists_app. right. constructor.
      by rewrite Hm. }
  assert (m ∈ userOrganizations db') as Hin
    by (simpl; apply elem_of_app; right; apply list_elem_of_here).
  exists U. do 6 (split; [done|]). split.
  - intros V B HB. unfold has_membership. simpl. split.
    + intros (m' & Hin' & Hm'). apply elem_of_app in Hin' as [Hin'|Hin'].
      * by exists m'.
      * apply list_elem_of_singleton in Hin'. subst m'.
        destruct His as [Ho' _]. destruct Hm' as [Ho'' _]. congruence.
    + intros (m' & Hin' & Hm'). exists m'. split; [|done].
      apply elem_of_app. by left.
  - intros session Hc.
    by rewrite (assertRole_of_membership _ _ U _ _ m Hu' Hfk' Hc Hin His), Hrole.
Qed.

(** Alice signs up: one organization "alice's Organization", and she is its
    owner.  A second sign-up in the same millisecond under the same name
    before the [@] meets the slug of the first, and writes nothing. *)
Lemma createUser_personal_organization_example :
  let db' := createUser db0 [7; 9] 1000 3 2 alice in
  (∃ o, organizations db' = organizations db0 ++ [o]
        ∧ Organization.name o = "alice's Organization"
        ∧ Organization.slug o = "alice-1000")
  ∧ (∃ m, userOrganizations db' = userOrganizations db0 ++ [m]
          ∧ is_membership 9 3 m ∧ UserOrganization.role m = "owner")
  ∧ assertRole session_alice db' 3 [owner] = ret ("owner", 3)
  ∧ createUser db' [7; 9; 10] 1000 4 3
      (mkAdapterUser (Some "10") None (Some "alice@example.org")) = db'.
Proof.
  intros db'.
  assert (JS.isSafeInteger 1000) as Hnow by (unfold JS.isSafeInteger; lia).
  assert (ascii_text (before_at "alice@example.com")) as Hascii
    by (apply (bool_decide_unpack _); by vm_compute).
  assert (ascii_text (before_at "alice@example.org")) as Hascii'
    by (apply (bool_decide_unpack _); by vm_compute).
  set (o := Organization.mk 3 "alice's Organization" "alice-1000" "free"
                            (Some "alice@example.com") None 1000 1000).
  assert (personal_organization 1000 3 None "alice@example.com" = ret o) as Ho
    by (by vm_compute).
  assert (organizations_accepts db0 o) as Hacc
    by (apply (bool_decide_unpack _); by vm_compute).
  destruct (createUser_personal_organization db0 [7; 9] 1000 3 2 alice
              "alice@example.com" "9"
              (proj1 db0_constraints) (proj1 (proj2 db0_constraints))
              Hnow Hascii eq_refl eq_refl) as [_ H].
  destruct (H o Ho Hacc) as (Horgs & _ & _ & _ & _ & _ & _ & _ & _ & Hmem).
  assert (∃ m, owner_membership 1000 2 "9" o = ret m
               ∧ user_organizations_accepts (add_organization db0 o) [7; 9] m)
    as (m & Hm & Hmacc).
  { eexists. split; [by vm_compute|].
    apply (bool_decide_unpack _). by vm_compute. }
  destruct (Hmem m Hm Hmacc)
    as (U & HU & Hrows & His & Hrole & Hu' & Hfk' & _ & Hguard).
  injection HU as <-.
  split; [by exists o|]. split; [by exists m|].
  split; [apply Hguard; split; reflexivity|].
  assert (∃ o', personal_organization 1000 4 None "alice@example.org" = ret o'
                ∧ Organization.slug o' = "alice-1000")
    as (o' & Ho' & Hslug').
  { eexists. split; by vm_compute. }
  apply (createUser_personal_organization db' [7; 9; 10] 1000 4 3
           (mkAdapterUser (Some "10") None (Some "alice@example.org"))
           "alice@example.org" "10" Hu' Hfk' Hnow Hascii' eq_refl eq_refl).
  right. exists o'. split; [exact Ho'|].
  intros (_ & _ & Huniq). rewrite Forall_forall in Huniq.
  apply (Huniq o); [|by rewrite Hslug'].
  unfold db'. rewrite Horgs. apply elem_of_app. right. apply list_elem_of_here.
Defined.

(** ** Access decided on the session's own list *)

Lemma roleHierarchy_ROLES (k : string) : roleHierarchy k = ROLES k.
Proof.
  unfold roleHierarchy, ROLES.
  destruct (String.eqb_spec k "member") as [->|_]; [done|].
  destruct (String.eqb_spec k "admin") as [->|_]; [done|].
  by destruct (String.eqb_spec k "owner") as [->|_].
Qed.

Lemma roleLevel_range (k : string) :
  (roleLevel k = 0 ∧ ROLES k = None) ∨ (1 ≤ roleLevel k ≤ 3 ∧ is_Some (ROLES k)).
Proof.
  unfold roleLevel. rewrite roleHierarchy_ROLES. unfold ROLES.
  repeat case_match; simpl; (by left) || (right; split; [lia | by eexists]).
Qed.

Lemma getUserOrgMembership_Some session O org :
  getUserOrgMembership session O = Some org →
  Session.org_id org = O
  ∧ ∃ orgs, session_user_organizations session = Some orgs ∧ org ∈ orgs.
Proof.
  unfold getUserOrgMembership.
  destruct (session_user_organizations session) as [orgs|]; [|done].
  destruct (list_find _ orgs) as [[i org']|] eqn:E; [|done]. intros [= <-].
  apply list_find_Some in E as (Hi & Hid & _). split; [done|].
  exists orgs. split; [done|]. by eapply list_elem_of_lookup_2.
Qed.

(** X24: [hasOrgAccess] decides on the list of the session: it is false
    when the session has no list or does not list the organization; without
    a minimum role it decides for the minimum member; access for a role
    implies access for every lower role; and a listed role outside the
    table gives no access.  [createOrgContext] returns a context only for an
    organization that the session lists, with the requested id, the id of
    the session and the listed role, and then access for the minimum member
    holds exactly when that role is one of the table. *)
Theorem hasOrgAccess_on_session (session : option Session.t) (O : Z) :
  (getUserOrgMembership session O = None →
   ∀ minRole, hasOrgAccess session O minRole = false)
  ∧ hasOrgAccess session O None = hasOrgAccess session O (Some member)
  ∧ (∀ r1 r2, rank r1 ≤ rank r2 →
       hasOrgAccess session O (Some r2) = true →
       hasOrgAccess session O (Some r1) = true)
  ∧ (∀ org, getUserOrgMembership session O = Some org →
       ROLES (Session.org_role org) = None →
       ∀ minRole, hasOrgAccess session O minRole = false)
  ∧ (∀ ctx, createOrgContext session O = Some ctx →
       oc_orgId ctx = O
       ∧ session_user_id session = Some (oc_userId ctx)
       ∧ (∃ org, getUserOrgMembership session O = Some org
                 ∧ Session.org_id org = O
                 ∧ Session.org_role org = oc_role ctx)
       ∧ (hasOrgAccess session O None = true ↔ is_Some (ROLES (oc_role ctx)))).
Proof.
  split; [|split; [done|split; [|split]]].
  - intros Hnone minRole. unfold hasOrgAccess. by rewrite Hnone.
  - intros r1 r2 Hr. unfold hasOrgAccess.
    destruct (getUserOrgMembership session O) as [org|]; [|done].
    unfold roleLevel. rewrite !roleHierarchy_key. simpl. lia.
  - intros org Horg Hrole minRole. unfold hasOrgAccess. rewrite Horg.
    destruct (roleLevel_range (Session.org_role org)) as [[-> _]|[_ [? Hs]]];
      [|congruence].
    unfold roleLevel. rewrite roleHierarchy_key. simpl.
    pose proof (rank_range (default member minRole)). lia.
  - intros ctx. unfold createOrgContext.
    destruct (session_user_id session) as [[|c s]|] eqn:Hid; try done.
    cbn [nonempty JS.truthy_str].
    destruct (getUserOrgMembership session O) as [org|] eqn:Horg; [|done].
    intros [= <-]. cbn [oc_orgId oc_userId oc_role].
    destruct (getUserOrgMembership_Some _ _ _ Horg) as [HO _].
    split; [done|]. split; [done|]. split; [by exists org|].
    unfold hasOrgAccess. rewrite Horg. cbn [default].
    change (roleLevel (Role_key member)) with 1.
    destruct (roleLevel_range (Session.org_role org)) as [[-> Hn]|[Hr Hs]].
    + rewrite Hn. split; [done|]. by intros [? ?].
    + split; [done|]. intros _. lia.
Qed.

(** ** URLs and display names *)

Lemma append_assoc (s t u : string) : (s +:+ t) +:+ u = s +:+ (t +:+ u).
Proof.
  induction s as [|c s IH]; [done|]. by rewrite !append_String, IH.
Qed.

Lemma getOrgUrl_path (n : number) (c : ascii) (p : string) :
  getOrgUrl n (Some (String c p))
  = ("/org/" +:+ toString n)
    +:+ (if startsWithSlash (String c p) then "" else "/") +:+ String c p.
Proof. reflexivity. Qed.

Lemma getOrgUrl_no_path (n : number) (path : option string) :
  default "" path = "" → getOrgUrl n path = "/org/" +:+ toString n.
Proof. intros Hp. unfold getOrgUrl. by rewrite Hp. Qed.

(** X25: [getOrgUrl] on a safe integer id: without path, or with the empty
    path, it is ["/org/<id>"]; a path without leading slash gives the URL of
    the same path with the slash; and in every case the URL is ["/org/"]
    followed by a text from which [parseInt] reads the id back. *)
Theorem getOrgUrl_shape (z : Z) (path : option string) :
  JS.isSafeInteger z →
  (default "" path = "" → getOrgUrl (Num z) path = "/org/" +:+ toString (Num z))
  ∧ (∀ p, p ≠ "" → startsWithSlash p = false →
          getOrgUrl (Num z) (Some p) = getOrgUrl (Num z) (Some ("/" +:+ p))
          ∧ getOrgUrl (Num z) (Some p)
            = "/org/" +:+ toString (Num z) +:+ "/" +:+ p)
  ∧ ∃ rest, getOrgUrl (Num z) path = "/org/" +:+ rest
            ∧ JS.parseInt rest (Some 10) = Num z.
Proof.
  intros _. split; [apply getOrgUrl_no_path|]. split.
  - intros p Hp Hs. destruct p as [|c p]; [done|].
    change ("/" +:+ String c p) with (String "/" (String c p)).
    rewrite !getOrgUrl_path, Hs.
    change (startsWithSlash (String "/" (String c p))) with true.
    rewrite !append_assoc. done.
  - destruct path as [[|c p]|].
    + exists (toString (Num z)). split; [done|].
      rewrite <- (append_empty_r (toString (Num z))).
      apply parseInt_toString_app, no_leading_digit_empty.
    + exists (toString (Num z)
              +:+ (if startsWithSlash (String c p) then "" else "/")
              +:+ String c p).
      split; [by rewrite getOrgUrl_path, !append_assoc|].
      apply parseInt_toString_app. unfold no_leading_digit.
      destruct (startsWithSlash (String c p)) eqn:Hs; [|done].
      unfold startsWithSlash in Hs.
      destruct c as [[] [] [] [] [] [] [] []]; try done.
    + exists (toString (Num z)). split; [done|].
      rewrite <- (append_empty_r (toString (Num z))).
      apply parseInt_toString_app, no_leading_digit_empty.
Qed.

Lemma getOrgUrl_shape_example :
  getOrgUrl (Num 12) (Some "projects") = getOrgUrl (Num 12) (Some "/projects")
  ∧ getOrgUrl (Num 12) (Some "projects") = "/org/12/projects"
  ∧ ∃ rest, getOrgUrl (Num 12) (Some "projects") = "/org/" +:+ rest
            ∧ JS.parseInt rest (Some 10) = Num 12.
Proof.
  destruct (getOrgUrl_shape 12 (Some "projects")) as (_ & H & Hrest);
    [unfold JS.isSafeInteger; lia|].
  destruct (H "projects") as [H1 H2]; [discriminate | reflexivity|].
  split; [exact H1|]. split; [exact H2 | exact Hrest].
Defined.

Lemma replace_dashes_chars (s : string) :
  String.length (replace_dashes s) = String.length s
  ∧ Forall (λ c, c ≠ "-"%char) (characters (replace_dashes s)).
Proof.
  induction s as [|c s [IHl IHf]]; simpl; [by split|]. split; [by rewrite IHl|].
  constructor; [|done]. destruct (Ascii.eqb_spec c "-"); [done|done].
Qed.

Lemma toUpperAscii_not_dash (c : ascii) : c ≠ "-"%char → toUpperAscii c ≠ "-"%char.
Proof. destruct c as [[] [] [] [] [] [] [] []]; by vm_compute. Qed.

Lemma capitalize_words_chars (prev : bool) (s : string) :
  String.length (capitalize_words prev s) = String.length s
  ∧ (Forall (λ c, c ≠ "-"%char) (characters s) →
     Forall (λ c, c ≠ "-"%char) (characters (capitalize_words prev s))).
Proof.
  revert prev. induction s as [|c s IH]; intros prev; simpl; [by split|].
  destruct (IH (isWordChar c)) as [IHl IHf]. split; [by rewrite IHl|].
  intros Hs. apply Forall_cons in Hs as [Hc Hs]. constructor; [|by apply IHf].
  destruct (isWordChar c && negb prev); [by apply toUpperAscii_not_dash | done].
Qed.

(** X26: [formatOrgName] never returns the empty text; a non-empty name is
    returned as it is; and without name, a non-empty slug is returned with
    the same number of characters and without any dash. *)
Theorem formatOrgName_shape (org : OrgName) :
  formatOrgName org ≠ ""
  ∧ (∀ name, nonempty (on_name org) = Some name → formatOrgName org = name)
  ∧ (∀ slug, nonempty (on_name org) = None → nonempty (on_slug org) = Some slug →
       String.length (formatOrgName org) = String.length slug
       ∧ Forall (λ c, c ≠ "-"%char) (characters (formatOrgName org))).
Proof.
  assert (∀ o s, nonempty o = Some s → s ≠ "") as Hne.
  { intros [[|c s']|] s; try done. by intros [= <-]. }
  unfold formatOrgName. split; [|split].
  - destruct (nonempty (on_name org)) as [name|] eqn:En; [by eapply Hne|].
    destruct (nonempty (on_slug org)) as [slug|] eqn:Es; [|done].
    apply Hne in Es. destruct slug as [|c s]; [done|]. done.
  - by intros name ->.
  - intros slug -> ->.
    destruct (replace_dashes_chars slug) as [Hl Hf].
    destruct (capitalize_words_chars false (replace_dashes slug)) as [Hl' Hf'].
    split; [by rewrite Hl', Hl | by apply Hf'].
Qed.

Example formatOrgName_examples :
  formatOrgName (mkOrgName None (Some "my-company") (Num 7)) = "My Company"
  ∧ formatOrgName (mkOrgName (Some "") (Some "") (Num 7)) = "Organization 7"
  ∧ formatOrgName (mkOrgName (Some "Acme") (Some "acme") (Num 7)) = "Acme"
  ∧ getOrgUrl (Num 12) (Some "projects") = "/org/12/projects"
  ∧ getOrgUrl (Num 12) (Some "/projects") = "/org/12/projects"
  ∧ getOrgUrl (Num 12) None = "/org/12".
Proof. by vm_compute. Qed.

(** ** The action that lists the caller's organizations *)

(** X27: the action [getUserOrganizations]: without a session id it fails
    with "Authentication required"; with a session id and no e-mail it
    succeeds with the empty list; and for an established caller it succeeds
    with the rows of [getUserOrganizations] of [lib/rbac]. *)
Theorem Actions_getUserOrganizations_outcomes (session : option Session.t)
    (db : Database) :
  (JS.truthy_str (session_user_id session) = false →
   Actions.getUserOrganizations session db = Failure "Authentication required")
  ∧ (JS.truthy_str (session_user_id session) = true →
     JS.truthy_str (session_user_email session) = false →
     Actions.getUserOrganizations session db = Success [])
  ∧ (∀ U, caller_is session U →
       ∃ rows, Actions.getUserOrganizations session db = Success rows
               ∧ getUserOrganizations session db = ret rows
               ∧ ∀ r, r ∈ rows → has_membership db U (uo_id r)).
Proof.
  unfold Actions.getUserOrganizations. split; [|split].
  - by intros ->.
  - intros -> He. unfold getUserOrganizations. by rewrite He.
  - intros U Hc. destruct (caller_is_id _ _ Hc) as (id & Hid & Hne & _).
    rewrite Hid, (truthy_str_Some _ Hne). cbn [negb].
    destruct Hc as [He Hp]. unfold getUserOrganizations. rewrite He, Hp.
    cbn. eexists. split; [reflexivity|]. split; [reflexivity|].
    intros r Hr. apply list_elem_of_In, in_map_iff in Hr as ([m o] & <- & Hin).
    apply list_elem_of_In, list_elem_of_filter in Hin as [Hu Hin].
    apply memberships_with_org_elem in Hin as (Hm & Ho & Hoid).
    simpl in *. exists m. split; [done|]. by split.
Qed.
